(** * sqlpro: struct metadata, placeholder substitution and statement builders

    A shallow embedding of [util.go] and [exec.go].

    Conventions of the embedding:
    - a Go [string] that is only compared, split or stored (field names,
      tags, column names, string values) is a [string];
    - a template after the conversion [[]rune(sqlS)] and every text written
      to a [strings.Builder] is a [text], the list of its code points; the
      conversions between the bytes of a string and its code points are
      [decodeRunes] and [encodeRunes];
    - a pointer holds the value it leads to; a slice in which one pointer
      may occur more than once is given by a store of records and the
      addresses of its elements ([insertPointers], [savePointers]);
    - a Go map is an association list with unique keys; the order in
      which [range] visits a map is not fixed by the language and is a
      parameter, [rangeOrder];
    - a call that can panic returns a [result]. *)

From Stdlib Require Import List String Ascii ZArith Bool Lia Permutation.
From Stdlib Require Import DecimalString.
Import ListNotations.

Local Open Scope string_scope.
Local Open Scope list_scope.

Set Warnings "-register-all".

(** ** Panics *)

Inductive result (A : Type) : Type :=
| Ret (a : A)
| Panic (msg : string).

Arguments Ret {A} a.
Arguments Panic {A} msg.

Definition bind {A B : Type} (m : result A) (k : A -> result B) : result B :=
  match m with
  | Ret a => k a
  | Panic msg => Panic msg
  end.

Notation "x <- m ;; k" := (bind m (fun x => k))
  (at level 61, m at next level, right associativity).

(** ** Text *)

Definition rune := Z.
Definition text := list rune.

Definition runeOf (c : ascii) : rune := Z.of_nat (nat_of_ascii c).

(** The code points of an ASCII literal of the source. *)
Fixpoint runes (s : string) : text :=
  match s with
  | EmptyString => []
  | String c rest => runeOf c :: runes rest
  end.

(** [strconv.Itoa] on a non-negative count. *)
Definition Itoa (n : nat) : text :=
  runes (NilZero.string_of_uint (Nat.to_uint n)).

(** [strings.Join] on texts. *)
Fixpoint Join (parts : list text) (sep : text) : text :=
  match parts with
  | [] => []
  | [p] => p
  | p :: rest => p ++ sep ++ Join rest sep
  end.

(** [strings.Split] with a one-byte separator. *)
Fixpoint Split (s : string) (sep : ascii) : list string :=
  match s with
  | EmptyString => [EmptyString]
  | String c rest =>
      if Ascii.eqb c sep then EmptyString :: Split rest sep
      else match Split rest sep with
           | [] => [String c EmptyString]
           | h :: t => String c h :: t
           end
  end.

(** ** reflect: kinds, types and values *)

Inductive Kind : Set :=
| Invalid | Bool | Int | Int8 | Int16 | Int32 | Int64
| Uint | Uint8 | Uint16 | Uint32 | Uint64 | Uintptr
| Float32 | Float64 | Complex64 | Complex128
| Array | Chan | Func | Interface | Map | Ptr | Slice
| String_ | Struct | UnsafePointer.

Definition Kind_eqb (a b : Kind) : bool :=
  match a, b with
  | Invalid, Invalid | Bool, Bool | Int, Int | Int8, Int8 | Int16, Int16
  | Int32, Int32 | Int64, Int64 | Uint, Uint | Uint8, Uint8
  | Uint16, Uint16 | Uint32, Uint32 | Uint64, Uint64 | Uintptr, Uintptr
  | Float32, Float32 | Float64, Float64 | Complex64, Complex64
  | Complex128, Complex128 | Array, Array | Chan, Chan | Func, Func
  | Interface, Interface | Map, Map | Ptr, Ptr | Slice, Slice
  | String_, String_ | Struct, Struct | UnsafePointer, UnsafePointer => true
  | _, _ => false
  end.

(** The part of a [reflect.Type] the package looks at. *)
Inductive rtype : Type :=
| TScalar (k : Kind)
| TInterface
| TPtr (elem : rtype)
| TSlice (elem : rtype)
| TArray (len : nat) (elem : rtype)
| TStruct (name : string).

Definition KindOf (t : rtype) : Kind :=
  match t with
  | TScalar k => k
  | TInterface => Interface
  | TPtr _ => Ptr
  | TSlice _ => Slice
  | TArray _ _ => Array
  | TStruct _ => Struct
  end.

(** [reflect.StructField]; [dbTag] is [field.Tag.Get("db")]. *)
Record StructField : Type := {
  Name : string;
  PkgPath : string;
  dbTag : string;
  Type_ : rtype
}.

(** An [interface{}] value: [VNil] is the nil interface, every other
    constructor a value of a concrete dynamic type. A [VPtr] holds the
    value its pointer leads to ([None] for nil), so a [value] describes
    data in which every record is reached through one pointer only; a
    slice that holds one pointer more than once is described by a store
    of records and the addresses of its elements, see [insertPointers]. *)
Inductive value : Type :=
| VNil
| VBool (b : bool)
| VInt (k : Kind) (z : Z)
| VFloat64 (bits : Z)
| VString (s : string)
| VTime (wall ext : Z) (loc : bool)
| VPtr (elem : rtype) (target : option value)
| VSlice (elem : rtype) (items : option (list value))
| VArray (elem : rtype) (items : list value)
| VStruct (name : string) (fields : list (StructField * value)).

Definition timeType : rtype := TStruct "time.Time".

(** [reflect.TypeOf]; [None] is the nil type of the nil interface. *)
Definition TypeOf (v : value) : option rtype :=
  match v with
  | VNil => None
  | VBool _ => Some (TScalar Bool)
  | VInt k _ => Some (TScalar k)
  | VFloat64 _ => Some (TScalar Float64)
  | VString _ => Some (TScalar String_)
  | VTime _ _ _ => Some timeType
  | VPtr e _ => Some (TPtr e)
  | VSlice e _ => Some (TSlice e)
  | VArray e items => Some (TArray (List.length items) e)
  | VStruct n _ => Some (TStruct n)
  end.

Definition isNil (v : value) : bool :=
  match v with VNil => true | _ => false end.

(** [reflect.DeepEqual] of a value with the zero value of the static type
    of the position it sits in: a position of interface type is zero only
    when it holds nil. *)
Fixpoint deepZero (v : value) : bool :=
  match v with
  | VNil => true
  | VBool b => negb b
  | VInt _ z => (z =? 0)%Z
  | VFloat64 bits => ((bits =? 0) || (bits =? 2 ^ 63))%Z
  | VString s => String.eqb s ""
  | VTime wall ext loc => ((wall =? 0) && (ext =? 0))%Z && negb loc
  | VPtr _ target => match target with None => true | Some _ => false end
  | VSlice _ items => match items with None => true | Some _ => false end
  | VArray e items =>
      forallb (fun x => match e with
                        | TInterface => isNil x
                        | _ => deepZero x
                        end) items
  | VStruct _ fields =>
      forallb (fun fv => match Type_ (fst fv) with
                         | TInterface => isNil (snd fv)
                         | _ => deepZero (snd fv)
                         end) fields
  end.

(** [isZero]: [reflect.Zero(reflect.TypeOf(x))] panics on the nil type. *)
Definition isZero (x : value) : result bool :=
  match x with
  | VNil => Panic "reflect: Zero(nil)"
  | _ => Ret (deepZero x)
  end.

(** [driver.IsValue]. *)
Definition IsValue (v : value) : bool :=
  match v with
  | VNil => true
  | VSlice (TScalar Uint8) _ => true
  | VBool _ => true
  | VFloat64 _ => true
  | VInt Int64 _ => true
  | VString _ => true
  | VTime _ _ _ => true
  | _ => false
  end.

(** ** Go maps with string keys *)

Section GoMap.
Context {A : Type}.

(** [v, ok := m[k]] *)
Fixpoint mapGet (m : list (string * A)) (k : string) : option A :=
  match m with
  | [] => None
  | (k', v) :: rest => if String.eqb k' k then Some v else mapGet rest k
  end.

(** [m[k] = v] *)
Fixpoint mapSet (m : list (string * A)) (k : string) (v : A) : list (string * A) :=
  match m with
  | [] => [(k, v)]
  | (k', v') :: rest =>
      if String.eqb k' k then (k, v) :: rest else (k', v') :: mapSet rest k v
  end.
End GoMap.

(** ** util.go: NullTime *)

(** A [time.Time]: its three fields, [loc] telling whether the location
    pointer is set. *)
Record goTime : Type := {
  wall : Z;
  ext : Z;
  loc : bool
}.

(** [NullTime]; [None] is the nil [*time.Time]. *)
Record NullTime : Type := {
  Time_ : option goTime;
  Valid : bool
}.

(** [NullTime.Scan]: the receiver after the call and the error; the error
    carries the value that could not be scanned. *)
Definition Scan (ni : NullTime) (v : value) : NullTime * option value :=
  match v with
  | VNil => ({| Time_ := None; Valid := false |}, None)
  | VTime w e l =>
      ({| Time_ := Some {| wall := w; ext := e; loc := l |}; Valid := true |},
       None)
  | _ => (ni, Some v)
  end.

(** ** util.go: field descriptors *)

Record fieldInfo : Type := {
  name : string;
  dbName : string;
  omitEmpty : bool;
  primaryKey : bool;
  null : bool;
  notNull : bool;
  emptyValue : string;
  ptr : bool
}.

Definition structInfo := list (string * fieldInfo).

(** [structInfo.hasDbName] *)
Definition hasDbName (si : structInfo) (db_name : string) : bool :=
  match mapGet si db_name with Some _ => true | None => false end.

(** [structInfo.primaryKey] *)
Definition si_primaryKey (si : structInfo) (db_name : string) : result bool :=
  match mapGet si db_name with
  | None => Panic ("isPrimaryKey: db_name " ++ db_name ++ " not found.")
  | Some fi => Ret (primaryKey fi)
  end.

(** [fieldInfo.allowNull] *)
Definition allowNull (fi : fieldInfo) : bool :=
  if ptr fi then
    if notNull fi then false else true
  else if null fi then true
  else false.

Definition with_dbName (fi : fieldInfo) (s : string) : fieldInfo :=
  {| name := name fi; dbName := s; omitEmpty := omitEmpty fi;
     primaryKey := primaryKey fi; null := null fi; notNull := notNull fi;
     emptyValue := emptyValue fi; ptr := ptr fi |}.

Definition with_omitEmpty (fi : fieldInfo) (b : bool) : fieldInfo :=
  {| name := name fi; dbName := dbName fi; omitEmpty := b;
     primaryKey := primaryKey fi; null := null fi; notNull := notNull fi;
     emptyValue := emptyValue fi; ptr := ptr fi |}.

Definition with_primaryKey (fi : fieldInfo) (b : bool) : fieldInfo :=
  {| name := name fi; dbName := dbName fi; omitEmpty := omitEmpty fi;
     primaryKey := b; null := null fi; notNull := notNull fi;
     emptyValue := emptyValue fi; ptr := ptr fi |}.

Definition with_null (fi : fieldInfo) (b : bool) : fieldInfo :=
  {| name := name fi; dbName := dbName fi; omitEmpty := omitEmpty fi;
     primaryKey := primaryKey fi; null := b; notNull := notNull fi;
     emptyValue := emptyValue fi; ptr := ptr fi |}.

Definition with_notNull (fi : fieldInfo) (b : bool) : fieldInfo :=
  {| name := name fi; dbName := dbName fi; omitEmpty := omitEmpty fi;
     primaryKey := primaryKey fi; null := null fi; notNull := b;
     emptyValue := emptyValue fi; ptr := ptr fi |}.

Definition with_emptyValue (fi : fieldInfo) (s : string) : fieldInfo :=
  {| name := name fi; dbName := dbName fi; omitEmpty := omitEmpty fi;
     primaryKey := primaryKey fi; null := null fi; notNull := notNull fi;
     emptyValue := s; ptr := ptr fi |}.

Definition with_ptr (fi : fieldInfo) (b : bool) : fieldInfo :=
  {| name := name fi; dbName := dbName fi; omitEmpty := omitEmpty fi;
     primaryKey := primaryKey fi; null := null fi; notNull := notNull fi;
     emptyValue := emptyValue fi; ptr := b |}.

(** ** util.go: getStructInfo *)

(** The composite literal of lines 116-121: the unnamed fields are zero. *)
Definition newFieldInfo (path0 fieldName : string) : fieldInfo :=
  {| name := fieldName; dbName := path0; omitEmpty := false;
     primaryKey := false; null := false; notNull := false;
     emptyValue := ""; ptr := false |}.

(** [switch field.Type.Kind()], lines 127-137. *)
Definition kindSwitch (k : Kind) (info : fieldInfo) : fieldInfo :=
  match k with
  | Ptr => with_emptyValue (with_ptr info true) "null"
  | String_ => with_emptyValue info "''"
  | Int => with_emptyValue info "0"
  | _ => with_emptyValue info "''"
  end.

(** Lines 139-141. *)
Definition defaultDbName (fieldName : string) (info : fieldInfo) : fieldInfo :=
  if String.eqb (dbName info) "" then with_dbName info fieldName else info.

(** [switch p], lines 147-158. *)
Definition modifier (info : fieldInfo) (p : string) : fieldInfo :=
  if String.eqb p "pk" then with_primaryKey info true
  else if String.eqb p "omitempty" then with_omitEmpty info true
  else if String.eqb p "null" then with_null info true
  else if String.eqb p "notnull" then with_notNull info true
  else info.

(** [for idx, p := range path], skipping index 0. *)
Definition modifiers (path : list string) (info : fieldInfo) : fieldInfo :=
  fold_left modifier (tl path) info.

(** Lines 161-163. *)
Definition fixEmptyValue (info : fieldInfo) : fieldInfo :=
  if allowNull info && String.eqb (emptyValue info) "null"
  then with_emptyValue info "''"
  else info.

(** The descriptor of a tagged field as it stands after line 159, before
    the test of line 161. *)
Definition taggedInfo (field : StructField) : fieldInfo :=
  let path := Split (dbTag field) "," in
  modifiers path
    (defaultDbName (Name field)
       (kindSwitch (KindOf (Type_ field))
          (newFieldInfo (hd "" path) (Name field)))).

(** One turn of the loop: [None] is [continue]. *)
Definition fieldStep (field : StructField) : result (option fieldInfo) :=
  if String.eqb (dbTag field) "" then Ret None
  else if negb (String.eqb (PkgPath field) "") then
    Panic ("getStructInfo: Unable to use unexported field for sqlpro: "
             ++ Name field)
  else if String.eqb (hd "" (Split (dbTag field) ",")) "-" then Ret None
  else Ret (Some (fixEmptyValue (taggedInfo field))).

Fixpoint getStructInfoLoop (fields : list StructField) (si : structInfo)
  : result structInfo :=
  match fields with
  | [] => Ret si
  | field :: rest =>
      step <- fieldStep field ;;
      match step with
      | None => getStructInfoLoop rest si
      | Some info => getStructInfoLoop rest (mapSet si (dbName info) info)
      end
  end.

(** [getStructInfo] on the fields of [t], in declaration order. *)
Definition getStructInfo (fields : list StructField) : result structInfo :=
  getStructInfoLoop fields [].

(** ** The database handle *)

(** Modelled from the spec: the placeholder style of section 6, an enum of
    two values; the constants [QUESTION] (positional, [?]) and [DOLLAR]
    (numbered, [$1], [$2], ...) are declared outside util.go and exec.go. *)
Inductive PlaceholderMode_t : Set := QUESTION | DOLLAR.

(** Modelled from the spec: the [DB] struct is declared outside util.go and
    exec.go; the two files read its two sigils and its placeholder mode and
    call its method [Esc], which escapes a string as an SQL identifier and
    is kept abstract here; the string it returns is held as its code
    points. *)
Record DB : Type := {
  PlaceholderKey : rune;
  PlaceholderValue : rune;
  PlaceholderMode : PlaceholderMode_t;
  Esc : string -> text
}.

(** Go [error] values returned by the two files. *)
Inductive error : Type :=
| ErrExpectingArg (nth got : nat)
| ErrKeyType (sigil : rune) (arg : value)
| ErrEmptySlice
| ErrNeedSlice
| ErrNeedSliceBulk
| ErrNilKey (key : string)
| ErrNoKey
| ErrSavePk
| ErrOther (msg : string).

(** ** util.go: escValue and appendPlaceholder *)

(** [escValue], the one-result function of util.go; [return nil] is
    [VNil]. *)
Definition escValue (v : value) (fi : fieldInfo) : result value :=
  z <- isZero v ;;
  if (z : bool) then
    if allowNull fi then Ret VNil
    else if ptr fi then Panic "esc Value unimplemented case..."
    else Ret v
  else Ret v.

(** [appendPlaceholder] *)
Definition appendPlaceholder (db : DB) (sb : text) (numArg : nat) : text :=
  match PlaceholderMode db with
  | QUESTION => sb ++ runes "?"
  | DOLLAR => (sb ++ runes "$") ++ Itoa numArg
  end.

(** The mark [appendPlaceholder] writes for the parameter number [numArg]. *)
Definition placeholderMark (db : DB) (numArg : nat) : text :=
  appendPlaceholder db [] numArg.

(** ** util.go: replaceArgs *)

(** The variables of the loop: the builder, [newArgs] and [nthArg]. *)
Record scan : Type := {
  sb : text;
  newArgs : list value;
  nthArg : nat
}.

Definition WriteRune (st : scan) (r : rune) : scan :=
  {| sb := sb st ++ [r]; newArgs := newArgs st; nthArg := nthArg st |}.

Definition WriteString (st : scan) (s : text) : scan :=
  {| sb := sb st ++ s; newArgs := newArgs st; nthArg := nthArg st |}.

(** [nthArg++] *)
Definition consume (st : scan) : scan :=
  {| sb := sb st; newArgs := newArgs st; nthArg := S (nthArg st) |}.

(** [newArgs = append(newArgs, v); db.appendPlaceholder(&sb, len(newArgs))] *)
Definition bindParam (db : DB) (st : scan) (v : value) : scan :=
  let newArgs' := newArgs st ++ [v] in
  {| sb := appendPlaceholder db (sb st) (List.length newArgs');
     newArgs := newArgs';
     nthArg := nthArg st |}.

Definition replaced : Type := text * list value * option error.

(** The [return] of the empty string, nil and an error. *)
Definition failWith (e : error) : replaced := ([], [], Some e).

(** Lines 264-270: the left over arguments are appended. *)
Definition finish (args : list value) (st : scan) : replaced :=
  (sb st, newArgs st ++ skipn (nthArg st) args, None).

(** [rv.IsValid()] for [rv := reflect.ValueOf(arg)] *)
Definition IsValid (arg : value) : bool := negb (isNil arg).

(** [rv.Type().Kind() == k] *)
Definition hasKind (arg : value) (k : Kind) : bool :=
  match TypeOf arg with
  | Some t => Kind_eqb (KindOf t) k
  | None => false
  end.

(** The elements [rv.Index(i).Interface()], [0 <= i < rv.Len()], of a
    slice; a nil slice has none. *)
Definition sliceItems (arg : value) : list value :=
  match arg with
  | VSlice _ (Some items) => items
  | _ => []
  end.

(** [rv.Type().Elem().Kind() == reflect.Ptr] for a slice *)
Definition elemIsPtr (arg : value) : bool :=
  match arg with
  | VSlice e _ => Kind_eqb (KindOf e) Ptr
  | _ => false
  end.

(** [&fieldInfo{ptr: p}] *)
Definition itemInfo (p : bool) : fieldInfo :=
  with_ptr (newFieldInfo "" "") p.

(** Lines 246-253, from index [i] on. *)
Fixpoint expandItems (db : DB) (fi : fieldInfo) (items : list value) (i : nat)
  (st : scan) : result scan :=
  match items with
  | [] => Ret st
  | item :: rest =>
      let st1 := if (0 <? i)%nat then WriteRune st 44%Z else st in
      v <- escValue item fi ;;
      expandItems db fi rest (S i) (bindParam db st1 v)
  end.

(** The [for] loop of lines 189-262 on the runes not yet visited, and the
    tail of the function. *)
Fixpoint replaceLoop (db : DB) (args : list value) (rs : text) (st : scan)
  : result replaced :=
  match rs with
  | [] => Ret (finish args st)
  | currRune :: rest =>
      let nextRune := hd 0%Z rest in
      if negb (currRune =? PlaceholderKey db)%Z
         && negb (currRune =? PlaceholderValue db)%Z
      then replaceLoop db args rest (WriteRune st currRune)
      else if ((currRune =? PlaceholderValue db)%Z
               && (nextRune =? PlaceholderValue db)%Z)
              || ((currRune =? PlaceholderKey db)%Z
                  && (nextRune =? PlaceholderKey db)%Z)
      then
        match rest with
        | [] => Ret (finish args (WriteRune st currRune))
        | _ :: rest' => replaceLoop db args rest' (WriteRune st currRune)
        end
      else
        match nth_error args (nthArg st) with
        | None =>
            Ret (failWith (ErrExpectingArg (nthArg st + 1) (List.length args)))
        | Some arg =>
            let st := consume st in
            if (currRune =? PlaceholderKey db)%Z then
              match arg with
              | VPtr (TScalar String_) target =>
                  match target with
                  | Some (VString v) =>
                      replaceLoop db args rest (WriteString st (Esc db v))
                  | _ => Panic "invalid memory address or nil pointer dereference"
                  end
              | VString v =>
                  replaceLoop db args rest (WriteString st (Esc db v))
              | _ => Ret (failWith (ErrKeyType currRune arg))
              end
            else if IsValue arg then
              replaceLoop db args rest (bindParam db st arg)
            else if IsValid arg && hasKind arg Slice && negb (IsValue arg) then
              if (List.length (sliceItems arg) =? 0)%nat then
                Ret (failWith ErrEmptySlice)
              else
                let fi := itemInfo (elemIsPtr arg) in
                st' <- expandItems db fi (sliceItems arg) 0
                         (WriteRune st 40%Z) ;;
                replaceLoop db args rest (WriteRune st' 41%Z)
            else
              replaceLoop db args rest (bindParam db st arg)
        end
  end.

(** [replaceArgs] between its two conversions: [sqlS] is the result of
    [[]rune(sqlS)] and the text returned is what the builder holds before
    [sb.String()]. [replaceArgsString] below goes from string to string. *)
Definition replaceArgs (db : DB) (sqlS : text) (args : list value)
  : result replaced :=
  replaceLoop db args sqlS {| sb := []; newArgs := []; nthArg := 0 |}.

(** ** util.go: replaceArgs from string to string *)

(** A Go string is a sequence of bytes; [byteOf] reads one, [toByte] writes
    one. *)
Definition byteOf (c : ascii) : Z := Z.of_nat (nat_of_ascii c).

Definition toByte (b : Z) : ascii := ascii_of_nat (Z.to_nat b).

(** [utf8.RuneError], U+FFFD. *)
Definition RuneError : rune := 65533%Z.

(** The table [first] of unicode/utf8: the length of the sequence a lead
    byte starts, 0 for a byte that starts none. *)
Definition seqLen (b0 : Z) : nat :=
  if (b0 <? 128)%Z then 1
  else if (b0 <? 194)%Z then 0
  else if (b0 <? 224)%Z then 2
  else if (b0 <? 240)%Z then 3
  else if (b0 <? 245)%Z then 4
  else 0.

Definition inRange (lo hi b : Z) : bool := ((lo <=? b) && (b <=? hi))%Z.

(** [acceptRanges]: the second byte a lead byte accepts. *)
Definition acceptSecond (b0 b1 : Z) : bool :=
  inRange (if (b0 =? 224)%Z then 160 else if (b0 =? 240)%Z then 144 else 128)%Z
          (if (b0 =? 237)%Z then 159 else if (b0 =? 244)%Z then 143 else 191)%Z
          b1.

(** A continuation byte. *)
Definition isCont (b : Z) : bool := inRange 128 191 b.

(** The conversion [[]rune(s)]: every well-formed sequence gives its code
    point; a byte that starts no well-formed sequence gives U+FFFD and the
    decoding goes on at the next byte. *)
Fixpoint decodeRunes (s : string) : text :=
  match s with
  | EmptyString => []
  | String c0 s1 =>
      let b0 := byteOf c0 in
      match seqLen b0 with
      | 1 => b0 :: decodeRunes s1
      | 2 =>
          match s1 with
          | String c1 s2 =>
              if acceptSecond b0 (byteOf c1)
              then ((b0 - 192) * 64 + (byteOf c1 - 128))%Z :: decodeRunes s2
              else RuneError :: decodeRunes s1
          | _ => RuneError :: decodeRunes s1
          end
      | 3 =>
          match s1 with
          | String c1 (String c2 s3) =>
              if acceptSecond b0 (byteOf c1) && isCont (byteOf c2)
              then ((b0 - 224) * 4096 + (byteOf c1 - 128) * 64
                    + (byteOf c2 - 128))%Z :: decodeRunes s3
              else RuneError :: decodeRunes s1
          | _ => RuneError :: decodeRunes s1
          end
      | 4 =>
          match s1 with
          | String c1 (String c2 (String c3 s4)) =>
              if acceptSecond b0 (byteOf c1) && isCont (byteOf c2) && isCont (byteOf c3)
              then ((b0 - 240) * 262144 + (byteOf c1 - 128) * 4096
                    + (byteOf c2 - 128) * 64 + (byteOf c3 - 128))%Z
                   :: decodeRunes s4
              else RuneError :: decodeRunes s1
          | _ => RuneError :: decodeRunes s1
          end
      | _ => RuneError :: decodeRunes s1
      end
  end.

(** [utf8.ValidString]: the string is made of well-formed sequences only. *)
Fixpoint ValidString (s : string) : bool :=
  match s with
  | EmptyString => true
  | String c0 s1 =>
      let b0 := byteOf c0 in
      match seqLen b0 with
      | 1 => ValidString s1
      | 2 =>
          match s1 with
          | String c1 s2 => acceptSecond b0 (byteOf c1) && ValidString s2
          | _ => false
          end
      | 3 =>
          match s1 with
          | String c1 (String c2 s3) =>
              acceptSecond b0 (byteOf c1) && isCont (byteOf c2) && ValidString s3
          | _ => false
          end
      | 4 =>
          match s1 with
          | String c1 (String c2 (String c3 s4)) =>
              acceptSecond b0 (byteOf c1) && isCont (byteOf c2) && isCont (byteOf c3)
              && ValidString s4
          | _ => false
          end
      | _ => false
      end
  end.

(** The bytes [strings.Builder.WriteRune] appends for one rune: a rune
    that is no Unicode scalar value is written as U+FFFD. *)
Definition encodeRune (r : rune) : string :=
  if ((0 <=? r) && (r <? 128))%Z then String (toByte r) EmptyString
  else if ((0 <=? r) && (r <? 2048))%Z then
    String (toByte (192 + r / 64)) (String (toByte (128 + r mod 64)) EmptyString)
  else if ((r <? 0) || (1114111 <? r) || ((55296 <=? r) && (r <=? 57343)))%Z then
    String (toByte 239) (String (toByte 191) (String (toByte 189) EmptyString))
  else if (r <? 65536)%Z then
    String (toByte (224 + r / 4096))
      (String (toByte (128 + (r / 64) mod 64))
         (String (toByte (128 + r mod 64)) EmptyString))
  else
    String (toByte (240 + r / 262144))
      (String (toByte (128 + (r / 4096) mod 64))
         (String (toByte (128 + (r / 64) mod 64))
            (String (toByte (128 + r mod 64)) EmptyString))).

(** [sb.String()] for a builder that holds the code points [t]. *)
Fixpoint encodeRunes (t : text) : string :=
  match t with
  | [] => EmptyString
  | r :: rest => String.append (encodeRune r) (encodeRunes rest)
  end.

(** [replaceArgs] as its caller sees it: the template string is converted
    with [[]rune(sqlS)], scanned, and the builder is returned as a string. *)
Definition replaceArgsString (db : DB) (sqlS : string) (args : list value)
  : result (string * list value * option error) :=
  r <- replaceArgs db (decodeRunes sqlS) args ;;
  let '(sql, params, err) := r in
  Ret (encodeRunes sql, params, err).

(** ** exec.go: checkData *)

(** A [reflect.Value] that is valid: the value it holds, its static type
    and whether it is addressable. *)
Record Value : Type := {
  held : value;
  typ : rtype;
  CanAddr : bool
}.

(** [reflect.Indirect(reflect.ValueOf(data))]; [None] is the zero Value,
    which nil and a nil pointer give. *)
Definition Indirect (data : value) : option Value :=
  match data with
  | VNil => None
  | VPtr _ None => None
  | VPtr e (Some target) => Some {| held := target; typ := e; CanAddr := true |}
  | _ =>
      match TypeOf data with
      | Some t => Some {| held := data; typ := t; CanAddr := false |}
      | None => None
      end
  end.

(** [Type.Elem()] of a pointer, slice or array type. *)
Definition Elem (t : rtype) : result rtype :=
  match t with
  | TPtr e | TSlice e | TArray _ e => Ret e
  | _ => Panic "reflect: Elem of invalid type"
  end.

Definition checked : Type := Value * bool * option error.

(** [checkData] *)
Definition checkData (data : value) : result checked :=
  match Indirect data with
  | None => Panic "reflect: call of reflect.Value.Type on zero Value"
  | Some rv =>
      let err : checked := (rv, false, Some ErrNeedSlice) in
      match KindOf (typ rv) with
      | Slice =>
          e <- Elem (typ rv) ;;
          match KindOf e with
          | Ptr =>
              ee <- Elem e ;;
              if negb (Kind_eqb (KindOf ee) Struct) then Ret err
              else Ret (rv, false, None)
          | Struct => Ret (rv, false, None)
          | _ => Ret (rv, false, Some ErrNeedSlice)
          end
      | Struct =>
          if negb (CanAddr rv) then Ret err
          else Ret (rv, true, None)
      | _ => Ret err
      end
  end.

(** The shapes the comment of [checkData] lists: [*struct], [[]struct],
    [[]*struct], [*[]struct] and [*[]*struct]. *)
Inductive acceptedShape : value -> Prop :=
| shape_ptr_struct n fields :
    acceptedShape (VPtr (TStruct n) (Some (VStruct n fields)))
| shape_slice_struct n items :
    acceptedShape (VSlice (TStruct n) items)
| shape_slice_ptr n items :
    acceptedShape (VSlice (TPtr (TStruct n)) items)
| shape_ptr_slice_struct n items :
    acceptedShape (VPtr (TSlice (TStruct n)) (Some (VSlice (TStruct n) items)))
| shape_ptr_slice_ptr n items :
    acceptedShape (VPtr (TSlice (TPtr (TStruct n)))
                     (Some (VSlice (TPtr (TStruct n)) items))).

(** ** reflect on struct values *)

(** [v.FieldByName(n)]; [None] is the zero Value. *)
Fixpoint FieldByName (fields : list (StructField * value)) (n : string)
  : option (StructField * value) :=
  match fields with
  | [] => None
  | (f, v) :: rest =>
      if String.eqb (Name f) n then Some (f, v) else FieldByName rest n
  end.

Definition isSignedInt (k : Kind) : bool :=
  match k with
  | Int | Int8 | Int16 | Int32 | Int64 => true
  | _ => false
  end.

Definition intBits (k : Kind) : Z :=
  match k with
  | Int8 => 8
  | Int16 => 16
  | Int32 => 32
  | _ => 64
  end.

(** Conversion of an [int64] to a signed integer of [bits] bits. *)
Definition truncate (bits x : Z) : Z :=
  ((x + 2 ^ (bits - 1)) mod 2 ^ bits - 2 ^ (bits - 1))%Z.

(** [v.FieldByName(n).SetInt(x)] on an addressable struct: the new fields.
    [SetInt] panics on the zero Value, on an unexported field and on a
    field that is not of a signed integer kind. *)
Fixpoint SetIntByName (fields : list (StructField * value)) (n : string) (x : Z)
  : result (list (StructField * value)) :=
  match fields with
  | [] => Panic "reflect: call of reflect.Value.SetInt on zero Value"
  | (f, v) :: rest =>
      if String.eqb (Name f) n then
        if negb (String.eqb (PkgPath f) "") then
          Panic "reflect: reflect.Value.SetInt using value obtained using unexported field"
        else
          match v with
          | VInt k _ =>
              if isSignedInt k then
                Ret ((f, VInt k (truncate (intBits k) x)) :: rest)
              else Panic "reflect: call of reflect.Value.SetInt on uint Value"
          | _ => Panic "reflect: call of reflect.Value.SetInt on Value of another kind"
          end
      else
        rest' <- SetIntByName rest n x ;;
        Ret ((f, v) :: rest')
  end.

(** ** Records reached through several pointers *)

(** The records a slice of pointers leads to are kept in a store, a list
    indexed by address. [pointerTo] is the pointer to the record at [a]; an
    address the store does not hold is the nil pointer. *)
Definition pointerTo (e : rtype) (store : list value) (a : nat) : value :=
  VPtr e (nth_error store a).

(** The store after [row] was written at the address [a]. *)
Fixpoint writeAt (store : list value) (a : nat) (row : value) : list value :=
  match store, a with
  | [], _ => []
  | _ :: rest, O => row :: rest
  | r :: rest, S a' => r :: writeAt rest a' row
  end.

(** The store after a call that was handed the pointer to [a] and left
    [item'] behind it. *)
Definition writeBack (store : list value) (a : nat) (item' : value)
  : list value :=
  match item' with
  | VPtr _ (Some row) => writeAt store a row
  | _ => store
  end.

(** ** exec.go: statement builders and Insert *)

Definition text_eqb (a b : text) : bool :=
  if list_eq_dec Z.eq_dec a b then true else false.

Section Exec.

(** The order in which [range] visits the entries of a map. *)
Variable rangeOrder : forall A : Type, list (string * A) -> list (string * A).

(** The three-result [db.escValue] that exec.go calls with a value and
    the [*fieldInfo] found in the map ([None] is the nil pointer): the
    literal to inline, or the empty string and the value to bind, and an
    error. util.go holds the one-result function of that name. *)
Variable escValue3 :
  value -> option fieldInfo -> result (text * value * option error).

(** Modelled from the spec: [db.exec] is declared outside util.go and
    exec.go; section 6 gives its contract, here on an explicit state of
    the driver: the expected number of affected rows, the statement and
    its arguments give the last inserted id and an error. *)
Variable driver : Type.
Variable exec : driver -> Z -> text -> list value -> driver * (Z * option error).

(** [structInfo.onlyPrimaryKey]: the loop, with the variable [fi]. *)
Fixpoint onlyPrimaryKeyLoop (entries : list (string * fieldInfo))
  (fi : option fieldInfo) : option fieldInfo :=
  match entries with
  | [] => fi
  | (_, info) :: rest =>
      if primaryKey info then
        match fi with
        | Some _ => None
        | None => onlyPrimaryKeyLoop rest (Some info)
        end
      else onlyPrimaryKeyLoop rest fi
  end.

Definition onlyPrimaryKey (si : structInfo) : option fieldInfo :=
  onlyPrimaryKeyLoop (rangeOrder _ si) None.

(** [valuesFromStruct]: the loop over [info]. *)
Fixpoint valuesLoop (fields : list (StructField * value))
  (entries : list (string * fieldInfo)) (values : list (string * value))
  : result (list (string * value)) :=
  match entries with
  | [] => Ret values
  | (_, fi) :: rest =>
      match FieldByName fields (name fi) with
      | None => Panic "reflect: call of reflect.Value.Interface on zero Value"
      | Some (_, actualData) =>
          z <- isZero actualData ;;
          if (z : bool) && omitEmpty fi then valuesLoop fields rest values
          else valuesLoop fields rest (mapSet values (dbName fi) actualData)
      end
  end.

(** [valuesFromStruct]. A [time.Time] is a struct too: its fields carry no
    tag, [getStructInfo] skips them all and both maps stay empty. *)
Definition valuesFromStruct (data : value)
  : result (list (string * value) * structInfo) :=
  match data with
  | VStruct _ fields =>
      info <- getStructInfo (map fst fields) ;;
      values <- valuesLoop fields (rangeOrder _ info) [] ;;
      Ret (values, info)
  | VTime _ _ _ => Ret ([], [])
  | _ => Panic "reflect: NumField of non-struct type"
  end.

(** The three slices of [insertClauseFromValues]. *)
Record clause : Type := {
  cols : list text;
  vs : list text;
  cargs : list value
}.

Fixpoint insertClauseLoop (db : DB) (info : structInfo)
  (entries : list (string * value)) (c : clause) : result clause :=
  match entries with
  | [] => Ret c
  | (col, v) :: rest =>
      let cols' := cols c ++ [Esc db col] in
      r <- escValue3 v (mapGet info col) ;;
      let '(escV, driverV, err) := r in
      match err with
      | Some _ => Panic "panic(err)"
      | None =>
          if text_eqb escV [] then
            insertClauseLoop db info rest
              {| cols := cols'; vs := vs c ++ [runes "?"];
                 cargs := cargs c ++ [driverV] |}
          else
            insertClauseLoop db info rest
              {| cols := cols'; vs := vs c ++ [escV]; cargs := cargs c |}
      end
  end.

(** [insertClauseFromValues] *)
Definition insertClauseFromValues (db : DB) (table : string)
  (values : list (string * value)) (info : structInfo) : result replaced :=
  c <- insertClauseLoop db info (rangeOrder _ values)
         {| cols := []; vs := []; cargs := [] |} ;;
  Ret (runes "INSERT INTO " ++ Esc db table ++ runes " ("
         ++ Join (cols c) (runes ",") ++ runes ") VALUES("
         ++ Join (vs c) (runes ",") ++ runes ")",
       cargs c, None).

(** [insertStruct]: the driver after the call, the inserted id, the
    struct info ([[]] for the nil map) and the error. *)
Definition insertStruct (db : DB) (d : driver) (table : string) (row : value)
  : result (driver * (Z * structInfo * option error)) :=
  vi <- valuesFromStruct row ;;
  let '(values, info) := vi in
  r <- insertClauseFromValues db table values info ;;
  let '(sql, args, err) := r in
  match err with
  | Some e => Ret (d, (0%Z, [], Some e))
  | None =>
      let '(d', (insert_id, err)) := exec d 1%Z sql args in
      match err with
      | Some e => Ret (d', (0%Z, [], Some e))
      | None => Ret (d', (insert_id, info, None))
      end
  end.

(** Lines 84-91 and 94-101: one row is inserted and its only primary key
    set; the result holds the row as it is afterwards. *)
Definition insertRow (db : DB) (d : driver) (table : string) (row : value)
  : result (driver * (value * option error)) :=
  r <- insertStruct db d table row ;;
  let '(d', (insert_id, info, err)) := r in
  match err with
  | Some e => Ret (d', (row, Some e))
  | None =>
      match onlyPrimaryKey info with
      | Some pk =>
          match row with
          | VStruct n fields =>
              fields' <- SetIntByName fields (name pk) insert_id ;;
              Ret (d', (VStruct n fields', None))
          | _ => Panic "reflect: call of reflect.Value.FieldByName on non-struct Value"
          end
      | None => Ret (d', (row, None))
      end
  end.

(** [row := reflect.Indirect(rv.Index(i))] and the body of the loop of
    lines 82-92, on one element of the slice. *)
Definition insertItem (db : DB) (d : driver) (table : string) (item : value)
  : result (driver * (value * option error)) :=
  match item with
  | VPtr e target =>
      match target with
      | None => Panic "reflect: call of reflect.Value.Interface on zero Value"
      | Some row =>
          r <- insertRow db d table row ;;
          let '(d', (row', err)) := r in
          Ret (d', (VPtr e (Some row'), err))
      end
  | _ => insertRow db d table item
  end.

(** The loop of lines 82-92 over the elements of a slice of records, or
    of pointers that lead to pairwise different records; the result holds
    the elements as they are afterwards. [insertPointers] is the loop for
    a slice in which one pointer may occur more than once. *)
Fixpoint insertItems (db : DB) (d : driver) (table : string)
  (items : list value) : result (driver * (list value * option error)) :=
  match items with
  | [] => Ret (d, ([], None))
  | item :: rest =>
      r <- insertItem db d table item ;;
      let '(d1, (item', err)) := r in
      match err with
      | Some e => Ret (d1, (item' :: rest, Some e))
      | None =>
          r2 <- insertItems db d1 table rest ;;
          let '(d2, (rest', err2)) := r2 in
          Ret (d2, (item' :: rest', err2))
      end
  end.

(** The caller's [data] after the rows behind it were changed. *)
Definition rebuild (data held' : value) : value :=
  match data with
  | VPtr e (Some _) => VPtr e (Some held')
  | _ => held'
  end.

(** [Insert]: the driver and the caller's data after the call, and the
    error returned. *)
Definition Insert (db : DB) (d : driver) (table : string) (data : value)
  : result (driver * (value * option error)) :=
  c <- checkData data ;;
  let '(rv, structMode, err) := c in
  match err with
  | Some e => Ret (d, (data, Some e))
  | None =>
      if negb structMode then
        match held rv with
        | VSlice e items =>
            r <- insertItems db d table (sliceItems (held rv)) ;;
            let '(d', (items', err)) := r in
            Ret (d', (rebuild data
                        (VSlice e (match items with
                                   | None => None
                                   | Some _ => Some items'
                                   end)), err))
        | _ => Panic "reflect: call of reflect.Value.Len on non-slice Value"
        end
      else
        r <- insertRow db d table (held rv) ;;
        let '(d', (row', err)) := r in
        Ret (d', (rebuild data row', err))
  end.

(** The loop of lines 82-92 on a slice of pointers, element [i] being the
    pointer to the record at the address [ptrs[i]] of [store]: every row
    is read from the store as the rows before it left it, and its key is
    written into the store. The result holds the store after the loop. *)
Fixpoint insertPointers (e : rtype) (db : DB) (d : driver) (table : string)
  (store : list value) (ptrs : list nat)
  : result (driver * (list value * option error)) :=
  match ptrs with
  | [] => Ret (d, (store, None))
  | a :: rest =>
      r <- insertItem db d table (pointerTo e store a) ;;
      let '(d1, (item', err)) := r in
      let store1 := writeBack store a item' in
      match err with
      | Some er => Ret (d1, (store1, Some er))
      | None => insertPointers e db d1 table store1 rest
      end
  end.

(** [Insert] on a slice [[]*T] (or a pointer to one) whose elements are the
    pointers to the addresses [ptrs] of [store]: the driver and the store
    after the call, and the error returned. [checkData] never reports
    struct mode for a slice, so what follows it is the loop. *)
Definition InsertPointers (e : rtype) (db : DB) (d : driver) (table : string)
  (store : list value) (ptrs : list nat)
  : result (driver * (list value * option error)) :=
  c <- checkData (VSlice (TPtr e) (Some (map (pointerTo e store) ptrs))) ;;
  let '(_, _, err) := c in
  match err with
  | Some er => Ret (d, (store, Some er))
  | None => insertPointers e db d table store ptrs
  end.

(** The variables of the loop of [updateClauseFromRow]. *)
Record building : Type := {
  update : text;
  where_ : text;
  idx : nat;
  valid : bool;
  uargs : list value
}.

(** Lines 246-290 on the entries of [values] not yet visited. *)
Fixpoint updateLoop (db : DB) (info : structInfo)
  (entries : list (string * value)) (b : building) : result replaced :=
  match entries with
  | [] =>
      if negb (valid b) then Ret ([], uargs b, Some ErrNoKey)
      else Ret (update b ++ where_ b, uargs b, None)
  | (key, v) :: rest =>
      pk <- si_primaryKey info key ;;
      if (pk : bool) then
        r <- escValue3 v (mapGet info key) ;;
        let '(escV, driverV, err) := r in
        match err with
        | Some e => Ret ([], uargs b, Some e)
        | None =>
            if text_eqb escV (runes "null") then
              Ret ([], uargs b, Some (ErrNilKey key))
            else
              let w := where_ b ++ Esc db key ++ runes "=" in
              if text_eqb escV [] then
                updateLoop db info rest
                  {| update := update b;
                     where_ := w ++ [PlaceholderValue db];
                     idx := idx b; valid := true;
                     uargs := uargs b ++ [driverV] |}
              else
                updateLoop db info rest
                  {| update := update b; where_ := w ++ escV;
                     idx := idx b; valid := true; uargs := uargs b |}
        end
      else
        let u := (if (0 <? idx b)%nat then update b ++ runes ","
                  else update b) ++ Esc db key ++ runes "=" in
        r <- escValue3 v (mapGet info key) ;;
        let '(escV, driverV, err) := r in
        match err with
        | Some e => Ret ([], uargs b, Some e)
        | None =>
            if text_eqb escV [] then
              updateLoop db info rest
                {| update := u ++ [PlaceholderValue db]; where_ := where_ b;
                   idx := S (idx b); valid := valid b;
                   uargs := uargs b ++ [driverV] |}
            else
              updateLoop db info rest
                {| update := u ++ escV; where_ := where_ b;
                   idx := S (idx b); valid := valid b; uargs := uargs b |}
        end
  end.

(** The builders as they stand before the loop, lines 237-245. *)
Definition updateStart (db : DB) (table : string) : building :=
  {| update := runes "UPDATE " ++ Esc db table ++ runes " SET ";
     where_ := runes " WHERE ";
     idx := 0; valid := false; uargs := [] |}.

(** [updateClauseFromRow] after [valuesFromStruct]: on the value map and
    the struct info. *)
Definition updateClauseFromValues (db : DB) (table : string)
  (values : list (string * value)) (info : structInfo) : result replaced :=
  updateLoop db info (rangeOrder _ values) (updateStart db table).

(** [updateClauseFromRow] *)
Definition updateClauseFromRow (db : DB) (table : string) (row : value)
  : result replaced :=
  vi <- valuesFromStruct row ;;
  let '(values, info) := vi in
  updateClauseFromValues db table values info.

(** [reflect.Indirect(rv.Index(i)).Interface()] on one element of a
    slice: the zero Value a nil pointer gives has no [Interface]. *)
Definition rowOf (item : value) : result value :=
  match item with
  | VPtr _ target =>
      match target with
      | None => Panic "reflect: call of reflect.Value.Interface on zero Value"
      | Some row => Ret row
      end
  | _ => Ret item
  end.

(** Lines 312-319 and 323-330: the clause of one row is built and
    executed. *)
Definition updateRow (db : DB) (d : driver) (table : string) (row : value)
  : result (driver * option error) :=
  r <- updateClauseFromRow db table row ;;
  let '(sql, args, err) := r in
  match err with
  | Some e => Ret (d, Some e)
  | None =>
      let '(d', (_, err)) := exec d 1%Z sql args in
      Ret (d', err)
  end.

Fixpoint updateItems (db : DB) (d : driver) (table : string)
  (items : list value) : result (driver * option error) :=
  match items with
  | [] => Ret (d, None)
  | item :: rest =>
      row <- rowOf item ;;
      r <- updateRow db d table row ;;
      let '(d', err) := r in
      match err with
      | Some e => Ret (d', Some e)
      | None => updateItems db d' table rest
      end
  end.

(** [Update]: the driver after the call and the error returned. *)
Definition Update (db : DB) (d : driver) (table : string) (data : value)
  : result (driver * option error) :=
  c <- checkData data ;;
  let '(rv, structMode, err) := c in
  match err with
  | Some e => Ret (d, Some e)
  | None =>
      if (structMode : bool) then updateRow db d table (held rv)
      else
        match held rv with
        | VSlice _ _ => updateItems db d table (sliceItems (held rv))
        | _ => Panic "reflect: call of reflect.Value.Len on non-slice Value"
        end
  end.

(** [saveRow]: the driver and [data] after the call, and the error. *)
Definition saveRow (db : DB) (d : driver) (table : string) (data : value)
  : result (driver * (value * option error)) :=
  match Indirect data with
  | None => Panic "reflect: call of reflect.Value.Interface on zero Value"
  | Some row =>
      vi <- valuesFromStruct (held row) ;;
      let '(values, info) := vi in
      match onlyPrimaryKey info with
      | None => Ret (d, (data, Some ErrSavePk))
      | Some pk =>
          match mapGet values (dbName pk) with
          | None => Insert db d table data
          | Some pk_value =>
              z <- isZero pk_value ;;
              if (z : bool) then Insert db d table data
              else
                r <- Update db d table data ;;
                let '(d', err) := r in
                Ret (d', (data, err))
          end
      end
  end.

(** The loop of lines 350-355 on the elements [rv.Index(i).Interface()] of
    a slice of records, or of pointers that lead to pairwise different
    records; [savePointers] is the loop for a slice in which one pointer
    may occur more than once. *)
Fixpoint saveItems (db : DB) (d : driver) (table : string)
  (items : list value) : result (driver * (list value * option error)) :=
  match items with
  | [] => Ret (d, ([], None))
  | item :: rest =>
      r <- saveRow db d table item ;;
      let '(d1, (item', err)) := r in
      match err with
      | Some e => Ret (d1, (item' :: rest, Some e))
      | None =>
          r2 <- saveItems db d1 table rest ;;
          let '(d2, (rest', err2)) := r2 in
          Ret (d2, (item' :: rest', err2))
      end
  end.

(** [Save]: the driver and the caller's data after the call, and the error
    returned. *)
Definition Save (db : DB) (d : driver) (table : string) (data : value)
  : result (driver * (value * option error)) :=
  c <- checkData data ;;
  let '(rv, structMode, err) := c in
  match err with
  | Some e => Ret (d, (data, Some e))
  | None =>
      if (structMode : bool) then saveRow db d table data
      else
        match held rv with
        | VSlice e items =>
            r <- saveItems db d table (sliceItems (held rv)) ;;
            let '(d', (items', err)) := r in
            Ret (d', (rebuild data
                        (VSlice e (match items with
                                   | None => None
                                   | Some _ => Some items'
                                   end)), err))
        | _ => Panic "reflect: call of reflect.Value.Len on non-slice Value"
        end
  end.

(** The loop of lines 350-355 on a slice of pointers into [store], as
    [insertPointers]. *)
Fixpoint savePointers (e : rtype) (db : DB) (d : driver) (table : string)
  (store : list value) (ptrs : list nat)
  : result (driver * (list value * option error)) :=
  match ptrs with
  | [] => Ret (d, (store, None))
  | a :: rest =>
      r <- saveRow db d table (pointerTo e store a) ;;
      let '(d1, (item', err)) := r in
      let store1 := writeBack store a item' in
      match err with
      | Some er => Ret (d1, (store1, Some er))
      | None => savePointers e db d1 table store1 rest
      end
  end.

(** [Save] on a slice [[]*T] whose elements are the pointers to the
    addresses [ptrs] of [store]. *)
Definition SavePointers (e : rtype) (db : DB) (d : driver) (table : string)
  (store : list value) (ptrs : list nat)
  : result (driver * (list value * option error)) :=
  c <- checkData (VSlice (TPtr e) (Some (map (pointerTo e store) ptrs))) ;;
  let '(_, _, err) := c in
  match err with
  | Some er => Ret (d, (store, Some er))
  | None => savePointers e db d table store ptrs
  end.

(** [InsertBulk], lines 137-145: the value map of every row is collected
    and every key is entered into [key_map] with [structInfo[key]]. *)
Fixpoint bulkRows (items : list value)
  (key_map : list (string * option fieldInfo))
  (rows : list (list (string * value)))
  : result (list (string * option fieldInfo) * list (list (string * value))) :=
  match items with
  | [] => Ret (key_map, rows)
  | item :: rest =>
      row <- rowOf item ;;
      vi <- valuesFromStruct row ;;
      let '(values, info) := vi in
      bulkRows rest
        (fold_left (fun km e => mapSet km (fst e) (mapGet info (fst e)))
           (rangeOrder _ values) key_map)
        (rows ++ [values])
  end.

(** Lines 152-159: the pieces of the column list and the keys, in the
    order of one [range] over [key_map]. *)
Fixpoint bulkColumns (db : DB) (entries : list (string * option fieldInfo))
  (idx : nat) (insert : list text) (keys : list string)
  : list text * list string :=
  match entries with
  | [] => (insert, keys)
  | (key, _) :: rest =>
      let insert := if (0 <? idx)%nat then insert ++ [runes ","] else insert in
      bulkColumns db rest (S idx) (insert ++ [Esc db key]) (keys ++ [key])
  end.

(** [key_map[key]]: the nil pointer for a key that is not there. *)
Definition keyInfo (key_map : list (string * option fieldInfo)) (key : string)
  : option fieldInfo :=
  match mapGet key_map key with
  | Some fi => fi
  | None => None
  end.

(** Lines 167-177 for one row: [Some e] is [return err]. *)
Fixpoint bulkValues (key_map : list (string * option fieldInfo))
  (row : list (string * value)) (keys : list string) (idx2 : nat)
  (insert : list text) : result (list text * option error) :=
  match keys with
  | [] => Ret (insert, None)
  | key :: rest =>
      let insert := if (0 <? idx2)%nat then insert ++ [runes ","] else insert in
      let v := match mapGet row key with Some v => v | None => VNil end in
      r <- escValue3 v (keyInfo key_map key) ;;
      let '(escV, _, err) := r in
      match err with
      | Some e => Ret (insert, Some e)
      | None => bulkValues key_map row rest (S idx2) (insert ++ [escV])
      end
  end.

(** Lines 162-179. *)
Fixpoint bulkTuples (key_map : list (string * option fieldInfo))
  (keys : list string) (rows : list (list (string * value))) (idx : nat)
  (insert : list text) : result (list text * option error) :=
  match rows with
  | [] => Ret (insert, None)
  | row :: rest =>
      let insert := if (0 <? idx)%nat then insert ++ [runes ","] else insert in
      r <- bulkValues key_map row keys 0 (insert ++ [runes "("]) ;;
      let '(insert, err) := r in
      match err with
      | Some e => Ret (insert, Some e)
      | None => bulkTuples key_map keys rest (S idx) (insert ++ [runes ")"])
      end
  end.

(** [InsertBulk]: the driver after the call and the error returned. *)
Definition InsertBulk (db : DB) (d : driver) (table : string) (data : value)
  : result (driver * option error) :=
  c <- checkData data ;;
  let '(rv, structMode, err) := c in
  match err with
  | Some e => Ret (d, Some e)
  | None =>
      if (structMode : bool) then Ret (d, Some ErrNeedSliceBulk)
      else
        match held rv with
        | VSlice _ _ =>
            kr <- bulkRows (sliceItems (held rv)) [] [] ;;
            let '(key_map, rows) := kr in
            let '(insert, keys) :=
              bulkColumns db (rangeOrder _ key_map) 0
                [runes "INSERT INTO "; Esc db table; runes "("] [] in
            r <- bulkTuples key_map keys rows 0 (insert ++ [runes ") VALUES "]) ;;
            let '(insert, err) := r in
            match err with
            | Some e => Ret (d, Some e)
            | None =>
                let '(d', (_, err)) :=
                  exec d (Z.of_nat (List.length (sliceItems (held rv))))
                    (List.concat insert) [] in
                Ret (d', err)
            end
        | _ => Panic "reflect: call of reflect.Value.Len on non-slice Value"
        end
  end.

End Exec.

(** Modelled from the spec: the three-result [escValue] of exec.go is not
    in src; section 4.2 gives its rule. A zero value of a descriptor that
    allows NULL is the literal [null]; a zero value of a pointer field that
    forbids NULL is an error; every other value is bound as a parameter,
    which the callers recognise by the empty literal. The descriptor is
    only read for a zero value, as in the one-result function. *)
Definition escValueSpec (v : value) (fi : option fieldInfo)
  : result (text * value * option error) :=
  z <- isZero v ;;
  if (z : bool) then
    match fi with
    | None => Panic "invalid memory address or nil pointer dereference"
    | Some fi =>
        if allowNull fi then Ret (runes "null", VNil, None)
        else if ptr fi then
          Ret ([], VNil, Some (ErrOther "esc Value unimplemented case..."))
        else Ret ([], v, None)
    end
  else Ret ([], v, None).

(** ** Vocabulary of the statements about replaceArgs *)

(** A rune that is neither sigil. *)
Definition plain (db : DB) (r : rune) : Prop :=
  r <> PlaceholderKey db /\ r <> PlaceholderValue db.

(** The marks of the parameters [k+1 .. k+n], joined by commas. *)
Definition joinedMarks (db : DB) (k n : nat) : text :=
  Join (map (placeholderMark db) (seq (S k) n)) (runes ",").

(** The same marks, each after a comma. *)
Definition commaMarks (db : DB) (k n : nat) : text :=
  List.concat (map (fun j => runes "," ++ placeholderMark db j) (seq (S k) n)).

(** The final text and parameters begin with what the scan holds. *)
Definition extends (st : scan) (sql : text) (params : list value) : Prop :=
  exists moreText moreParams,
    sql = sb st ++ moreText /\ params = newArgs st ++ moreParams.

(** ** Vocabulary of the statements about Insert *)

(** A slice of [items] as [Insert] is handed it: the slice itself, or a
    pointer to it. *)
Definition sliceData (byRef : bool) (e : rtype) (items : list value) : value :=
  if byRef then VPtr (TSlice e) (Some (VSlice e (Some items)))
  else VSlice e (Some items).

(** ** Sample inputs *)

(** A stand-in for [db.Esc]: the name between two backquotes. *)
Definition sampleEsc (s : string) : text := runes "`" ++ runes s ++ runes "`".

(** Key sigil [%], value sigil [#], as in the examples of the spec. *)
Definition sampleDB : DB :=
  {| PlaceholderKey := 37%Z; PlaceholderValue := 35%Z;
     PlaceholderMode := QUESTION; Esc := sampleEsc |}.

Definition numberedDB : DB :=
  {| PlaceholderKey := 37%Z; PlaceholderValue := 35%Z;
     PlaceholderMode := DOLLAR; Esc := sampleEsc |}.

(** [range] in the order of insertion. *)
Definition insertionOrder (A : Type) (m : list (string * A)) : list (string * A) := m.

(** [range] in the opposite order. *)
Definition reverseOrder (A : Type) (m : list (string * A)) : list (string * A) :=
  rev m.

(** A driver that counts its calls and reports 42 as the inserted id. *)
Definition sampleExec (d : nat) (expected : Z) (sql : text) (args : list value)
  : nat * (Z * option error) :=
  (S d, (42%Z, None)).

Definition exported (n tag : string) (t : rtype) : StructField :=
  {| Name := n; PkgPath := ""; dbTag := tag; Type_ := t |}.

(** [A *string `db:"a,notnull"`] *)
Definition notnullPointerField : StructField :=
  exported "A" "a,notnull" (TPtr (TScalar String_)).

(** [N int64 `db:"n"`] *)
Definition int64Field : StructField := exported "N" "n" (TScalar Int64).

(** [struct { ID int64 `db:"id,pk"`; Name string `db:"name"` }] *)
Definition person (id : Z) (n : string) : value :=
  VStruct "person"
    [(exported "ID" "id,pk" (TScalar Int64), VInt Int64 id);
     (exported "Name" "name" (TScalar String_), VString n)].

(** [struct { A int64 `db:"a,pk"`; B int64 `db:"b,pk"`; C string `db:"c"` }] *)
Definition twoKeys (a b : Z) (c : string) : value :=
  VStruct "twoKeys"
    [(exported "A" "a,pk" (TScalar Int64), VInt Int64 a);
     (exported "B" "b,pk" (TScalar Int64), VInt Int64 b);
     (exported "C" "c" (TScalar String_), VString c)].

(** [struct { ID int64 `db:"id,pk"` }] *)
Definition keyOnly (id : Z) : value :=
  VStruct "keyOnly" [(exported "ID" "id,pk" (TScalar Int64), VInt Int64 id)].

(** [struct { Name string `db:"name"` }] *)
Definition noKey (n : string) : value :=
  VStruct "noKey" [(exported "Name" "name" (TScalar String_), VString n)].

(** [secret string `db:"-"`], an unexported field with a tag. *)
Definition hiddenField : StructField :=
  {| Name := "secret"; PkgPath := "sqlpro"; dbTag := "-"; Type_ := TScalar String_ |}.

(** [Old string `db:"n"`], a second field for the column of [int64Field]. *)
Definition shadowedField : StructField := exported "Old" "n" (TScalar String_).

(** [*string `db:"note,omitempty,null"`] *)
Definition noteField : StructField :=
  exported "Note" "note,omitempty,null" (TPtr (TScalar String_)).

(** The descriptors of [person]. *)
Definition personInfo : structInfo :=
  [("id", with_primaryKey (with_emptyValue (newFieldInfo "id" "ID") "''") true);
   ("name", with_emptyValue (newFieldInfo "name" "Name") "''")].



(** A driver that keeps the statements it was sent and reports 42. *)
Definition loggingExec (d : list text) (expected : Z) (sql : text)
  (args : list value) : list text * (Z * option error) :=
  (d ++ [sql], (42%Z, None)).

(** A driver that refuses every statement. *)
Definition failingExec (d : nat) (expected : Z) (sql : text) (args : list value)
  : nat * (Z * option error) :=
  (S d, (0%Z, Some (ErrOther "driver: bad connection"))).

(** A driver that refuses its second statement. *)
Definition secondFailsExec (d : nat) (expected : Z) (sql : text)
  (args : list value) : nat * (Z * option error) :=
  match d with
  | 1 => (2, (0%Z, Some (ErrOther "driver: bad connection")))
  | _ => (S d, (42%Z, None))
  end.



Definition noKeyInfo : structInfo :=
  [("name", with_emptyValue (newFieldInfo "name" "Name") "''")].

(** [struct { ID *int64 `db:"id,pk"`; Name string `db:"name"` }] with a nil
    [ID]. *)
Definition nilKey (n : string) : value :=
  VStruct "nilKey"
    [(exported "ID" "id,pk" (TPtr (TScalar Int64)), VPtr (TScalar Int64) None);
     (exported "Name" "name" (TScalar String_), VString n)].

Definition nilKeyInfo : structInfo :=
  [("id", with_primaryKey
            (with_emptyValue (with_ptr (newFieldInfo "id" "ID") true) "''") true);
   ("name", with_emptyValue (newFieldInfo "name" "Name") "''")].

(** The descriptors of [twoKeys] and which of its columns are keys. *)
Definition twoKeysInfo : structInfo :=
  [("a", with_primaryKey (with_emptyValue (newFieldInfo "a" "A") "''") true);
   ("b", with_primaryKey (with_emptyValue (newFieldInfo "b" "B") "''") true);
   ("c", with_emptyValue (newFieldInfo "c" "C") "''")].

Definition twoKeysIsKey (k : string) : bool :=
  String.eqb k "a" || String.eqb k "b".

(** The template that is the one byte 0xFF, which starts no UTF-8
    sequence, and the three bytes EF BF BD that encode U+FFFD. *)
Definition invalidTemplate : string := String (toByte 255) EmptyString.

Definition replacementBytes : string :=
  String (toByte 239) (String (toByte 191) (String (toByte 189) EmptyString)).

(** The template [SELECT 'é'], the letter as its two bytes C3 A9. *)
Definition accentTemplate : string :=
  String.append "SELECT '"
    (String (toByte 195) (String (toByte 169) "'")).

(** [[]int{...}], [[3]int{...}] and [[]byte{...}] *)
Definition intSlice (l : list Z) : value :=
  VSlice (TScalar Int) (Some (map (VInt Int) l)).

Definition intArray (l : list Z) : value :=
  VArray (TScalar Int) (map (VInt Int) l).

Definition byteSlice (l : list Z) : value :=
  VSlice (TScalar Uint8) (Some (map (VInt Uint8) l)).

(** * Properties *)

(** ** Kinds and maps *)

Lemma Kind_eqb_eq (a b : Kind) : Kind_eqb a b = true <-> a = b.
Proof.
  split.
  - destruct a, b; simpl; congruence.
  - intros ->. destruct b; reflexivity.
Qed.

Lemma mapGet_mapSet_same {A : Type} (m : list (string * A)) k v :
  mapGet (mapSet m k v) k = Some v.
Proof.
  induction m as [|[k' v'] m IH]; simpl.
  - now rewrite String.eqb_refl.
  - destruct (String.eqb k' k) eqn:E; simpl.
    + now rewrite String.eqb_refl.
    + now rewrite E.
Qed.

Lemma mapGet_mapSet_other {A : Type} (m : list (string * A)) k k' v :
  k <> k' -> mapGet (mapSet m k v) k' = mapGet m k'.
Proof.
  intros Hne. induction m as [|[k0 v0] m IH]; simpl.
  - destruct (String.eqb k k') eqn:E; [apply String.eqb_eq in E; contradiction | reflexivity].
  - destruct (String.eqb k0 k) eqn:E; simpl.
    + apply String.eqb_eq in E. subst k0.
      destruct (String.eqb k k') eqn:E'; [apply String.eqb_eq in E'; contradiction | reflexivity].
    + destruct (String.eqb k0 k'); [reflexivity | exact IH].
Qed.

Lemma mapGet_In {A : Type} (m : list (string * A)) k v :
  mapGet m k = Some v -> In (k, v) m.
Proof.
  induction m as [|[k' v'] m IH]; cbn [mapGet]; [discriminate|].
  destruct (String.eqb k' k) eqn:E.
  - intros H. inversion H; subst. apply String.eqb_eq in E. subst. now left.
  - intros H. right. now apply IH.
Qed.

(** ** The metadata extractor *)

Lemma modifier_emptyValue info p : emptyValue (modifier info p) = emptyValue info.
Proof.
  unfold modifier.
  repeat match goal with |- context [if ?c then _ else _] => destruct c end;
    reflexivity.
Qed.

Lemma modifier_ptr info p : ptr (modifier info p) = ptr info.
Proof.
  unfold modifier.
  repeat match goal with |- context [if ?c then _ else _] => destruct c end;
    reflexivity.
Qed.

Lemma fold_modifier_emptyValue ps info :
  emptyValue (fold_left modifier ps info) = emptyValue info.
Proof.
  revert info. induction ps as [|p ps IH]; intros info; simpl.
  - reflexivity.
  - rewrite IH. apply modifier_emptyValue.
Qed.

Lemma fold_modifier_ptr ps info :
  ptr (fold_left modifier ps info) = ptr info.
Proof.
  revert info. induction ps as [|p ps IH]; intros info; simpl.
  - reflexivity.
  - rewrite IH. apply modifier_ptr.
Qed.

Lemma defaultDbName_emptyValue n info :
  emptyValue (defaultDbName n info) = emptyValue info.
Proof. unfold defaultDbName. now destruct (String.eqb (dbName info) ""). Qed.

(** The default literal is decided by the kind alone. *)
Lemma taggedInfo_emptyValue_kind (field : StructField) :
  emptyValue (taggedInfo field) =
  emptyValue (kindSwitch (KindOf (Type_ field)) (newFieldInfo "" "")).
Proof.
  unfold taggedInfo, modifiers.
  rewrite fold_modifier_emptyValue, defaultDbName_emptyValue.
  destruct (KindOf (Type_ field)); reflexivity.
Qed.

(** What lines 161-163 do establish: a descriptor that allows NULL never
    keeps the literal [null]. *)
Lemma fixEmptyValue_allowNull info :
  allowNull (fixEmptyValue info) = true ->
  emptyValue (fixEmptyValue info) <> "null".
Proof.
  unfold fixEmptyValue.
  destruct (allowNull info) eqn:Ha; simpl.
  - destruct (String.eqb (emptyValue info) "null") eqn:Ee; simpl.
    + discriminate.
    + intros _ H. apply String.eqb_neq in Ee. contradiction.
  - rewrite Ha. discriminate.
Qed.

(** A descriptor that forbids NULL passes lines 161-163 unchanged. *)
Lemma fixEmptyValue_forbidNull info :
  allowNull info = false -> fixEmptyValue info = info.
Proof. unfold fixEmptyValue. now intros ->. Qed.

Lemma modifier_notNull_keeps info p :
  notNull info = true -> notNull (modifier info p) = true.
Proof.
  unfold modifier. intros H.
  repeat match goal with |- context [if ?c then _ else _] => destruct c end;
    cbn; auto.
Qed.

Lemma fold_modifier_notNull ps : forall info,
  notNull info = true \/ In "notnull" ps ->
  notNull (fold_left modifier ps info) = true.
Proof.
  induction ps as [|p ps IH]; intros info [H | H]; cbn [fold_left].
  - exact H.
  - destruct H.
  - apply IH. left. now apply modifier_notNull_keeps.
  - destruct H as [-> | H].
    + apply IH. left. reflexivity.
    + apply IH. now right.
Qed.

(** Every pointer field tagged [notnull] leaves the extractor with a policy
    that forbids NULL and with the literal ["null"]. *)
Lemma notnull_pointer_keeps_null (field : StructField) :
  KindOf (Type_ field) = Ptr ->
  In "notnull" (tl (Split (dbTag field) ",")) ->
  allowNull (fixEmptyValue (taggedInfo field)) = false
  /\ emptyValue (fixEmptyValue (taggedInfo field)) = "null".
Proof.
  intros Hk Hn.
  assert (Hp : ptr (taggedInfo field) = true).
  { unfold taggedInfo, modifiers. rewrite fold_modifier_ptr, Hk.
    unfold defaultDbName. now destruct (String.eqb _ _). }
  assert (Hnn : notNull (taggedInfo field) = true).
  { unfold taggedInfo, modifiers. apply fold_modifier_notNull. now right. }
  assert (Ha : allowNull (taggedInfo field) = false).
  { unfold allowNull. now rewrite Hp, Hnn. }
  rewrite (fixEmptyValue_forbidNull _ Ha). split; [exact Ha|].
  unfold taggedInfo, modifiers.
  rewrite fold_modifier_emptyValue, defaultDbName_emptyValue, Hk. reflexivity.
Qed.

(** The descriptors that leave lines 161-163 with the literal ["null"] are
    descriptors of pointer fields tagged [notnull]. *)
Lemma null_literal_only_when_forbidden (field : StructField) :
  emptyValue (fixEmptyValue (taggedInfo field)) = "null" ->
  ptr (fixEmptyValue (taggedInfo field)) = true
  /\ notNull (fixEmptyValue (taggedInfo field)) = true.
Proof.
  unfold fixEmptyValue.
  destruct (allowNull (taggedInfo field)) eqn:Ha; cbn [andb].
  - destruct (String.eqb (emptyValue (taggedInfo field)) "null") eqn:Ee.
    + cbn. discriminate.
    + intros H. apply String.eqb_neq in Ee. contradiction.
  - intros He. rewrite taggedInfo_emptyValue_kind in He.
    assert (Hp : ptr (taggedInfo field) = true).
    { unfold taggedInfo, modifiers. rewrite fold_modifier_ptr.
      unfold defaultDbName.
      destruct (KindOf (Type_ field)); try discriminate He.
      now destruct (String.eqb _ _). }
    split; [exact Hp|].
    unfold allowNull in Ha. rewrite Hp in Ha.
    now destruct (notNull (taggedInfo field)).
Qed.

Lemma mapSet_In {A : Type} (m : list (string * A)) k v e :
  In e (mapSet m k v) -> e = (k, v) \/ In e m.
Proof.
  induction m as [|[k' v'] m IH]; cbn [mapSet].
  - intros [<- | []]. now left.
  - destruct (String.eqb k' k).
    + intros [<- | H]; [now left | right; now right].
    + intros [<- | H]; [right; now left |].
      destruct (IH H) as [-> | H']; [now left | right; now right].
Qed.

(** An invariant of the loop of [getStructInfo]: what holds of every
    descriptor a field yields holds of every entry of the map. *)
Lemma getStructInfoLoop_invariant (P : string -> fieldInfo -> Prop) :
  (forall field info, fieldStep field = Ret (Some info) -> P (dbName info) info) ->
  forall fields si si',
    (forall k fi, In (k, fi) si -> P k fi) ->
    getStructInfoLoop fields si = Ret si' ->
    forall k fi, In (k, fi) si' -> P k fi.
Proof.
  intros Hstep. induction fields as [|field fields IH]; intros si si' Hsi Hrun.
  - cbn in Hrun. inversion Hrun; subst. exact Hsi.
  - cbn [getStructInfoLoop] in Hrun.
    destruct (fieldStep field) as [[info|]|msg] eqn:Ef; cbn [bind] in Hrun.
    + eapply IH; [|exact Hrun].
      intros k fi Hin. apply mapSet_In in Hin.
      destruct Hin as [E | Hin]; [inversion E; subst; now apply (Hstep field) | now apply Hsi].
    + eapply IH; eassumption.
    + discriminate.
Qed.

Lemma fieldStep_some field info :
  fieldStep field = Ret (Some info) -> info = fixEmptyValue (taggedInfo field).
Proof.
  unfold fieldStep.
  repeat match goal with |- context [if ?c then _ else _] => destruct c end;
    intros H; inversion H; reflexivity.
Qed.

(** Every entry of the struct info is filed under its own column name. *)
Lemma getStructInfo_keys fields si k fi :
  getStructInfo fields = Ret si -> In (k, fi) si -> dbName fi = k.
Proof.
  intros Hrun Hin.
  apply (getStructInfoLoop_invariant (fun k fi => dbName fi = k))
    with (fields := fields) (si := []) (si' := si);
    [ reflexivity | intros ? ? [] | exact Hrun | exact Hin ].
Qed.

(** [si[k]] is the descriptor of the column [k]. *)
Lemma getStructInfo_lookup fields si k fi :
  getStructInfo fields = Ret si -> mapGet si k = Some fi -> dbName fi = k.
Proof.
  intros Hrun Hget. eapply getStructInfo_keys; [exact Hrun|].
  apply mapGet_In. exact Hget.
Qed.

(** What lines 161-163 establish for every struct type: a descriptor that
    allows NULL never has the literal ["null"]. *)
Lemma getStructInfo_allowNull fields si k fi :
  getStructInfo fields = Ret si -> In (k, fi) si ->
  allowNull fi = true -> emptyValue fi <> "null".
Proof.
  intros Hrun Hin.
  apply (getStructInfoLoop_invariant
           (fun _ fi => allowNull fi = true -> emptyValue fi <> "null"))
    with (fields := fields) (si := []) (si' := si) (k := k);
    [ | intros ? ? [] | exact Hrun | exact Hin ].
  intros field info Hs. rewrite (fieldStep_some _ _ Hs).
  apply fixEmptyValue_allowNull.
Qed.

(** C1, evaluated on the code: for the field [A *string `db:"a,notnull"`]
    the extractor returns a descriptor whose policy forbids NULL
    ([allowNull] is false) and whose [emptyValue] is still ["null"]: the
    test of line 161 rewrites the literal when NULL is allowed, not when it
    is forbidden. *)
Theorem getStructInfo_notnull_pointer_keeps_null :
  exists fi,
    getStructInfo [notnullPointerField] = Ret [("a", fi)]
    /\ allowNull fi = false
    /\ emptyValue fi = "null".
Proof.
  eexists. split; [vm_compute; reflexivity | split; reflexivity].
Qed.

(** C8, refuted as stated: the tagged field [N int64 `db:"n"`] is of a
    numeric kind and its default [emptyValue], before lines 161-163, is
    ["''"], not ["0"]. *)
Lemma int64_default_emptyValue_not_zero :
  KindOf (Type_ int64Field) = Int64
  /\ dbTag int64Field <> ""
  /\ emptyValue (taggedInfo int64Field) = "''"
  /\ emptyValue (taggedInfo int64Field) <> "0".
Proof.
  repeat split; try reflexivity; vm_compute; discriminate.
Qed.

(** C8, amended: for every struct field the default [emptyValue] before
    the correction of lines 161-163 is decided by the kind of the field:
    ["null"] for a pointer, ["0"] for the kind [int] alone, and ["''"] for
    every other kind. *)
Theorem taggedInfo_emptyValue_by_kind (field : StructField) :
  emptyValue (taggedInfo field) =
  match KindOf (Type_ field) with
  | Ptr => "null"
  | Int => "0"
  | _ => "''"
  end.
Proof.
  unfold taggedInfo, modifiers.
  rewrite fold_modifier_emptyValue, defaultDbName_emptyValue.
  destruct (KindOf (Type_ field)); reflexivity.
Qed.

(** ** Placeholder substitution *)

Section ReplaceArgs.

Variable db : DB.
Variable args : list value.

Lemma replaceLoop_plain_step r rest st :
  plain db r ->
  replaceLoop db args (r :: rest) st = replaceLoop db args rest (WriteRune st r).
Proof.
  intros [Hk Hv]. cbn [replaceLoop].
  apply Z.eqb_neq in Hk, Hv. now rewrite Hk, Hv.
Qed.

Lemma replaceLoop_plain rs : forall st,
  Forall (plain db) rs ->
  replaceLoop db args rs st = Ret (finish args (WriteString st rs)).
Proof.
  induction rs as [|r rs IH]; intros st H.
  - cbn [replaceLoop]. unfold finish, WriteString. cbn. now rewrite app_nil_r.
  - inversion H as [|? ? Hr Hrs]; subst.
    rewrite replaceLoop_plain_step by assumption.
    rewrite IH by assumption.
    unfold finish, WriteString, WriteRune. cbn.
    now rewrite <- app_assoc.
Qed.

(** A sigil that is not followed by itself and has an argument left
    reaches line 216. *)
Lemma replaceLoop_value_step c rest st arg :
  c = PlaceholderValue db ->
  c <> PlaceholderKey db ->
  hd 0%Z rest <> c ->
  nth_error args (nthArg st) = Some arg ->
  replaceLoop db args (c :: rest) st =
  if IsValue arg then replaceLoop db args rest (bindParam db (consume st) arg)
  else if IsValid arg && hasKind arg Slice && negb (IsValue arg) then
    if (List.length (sliceItems arg) =? 0)%nat then Ret (failWith ErrEmptySlice)
    else
      st' <- expandItems db (itemInfo (elemIsPtr arg)) (sliceItems arg) 0
               (WriteRune (consume st) 40%Z) ;;
      replaceLoop db args rest (WriteRune st' 41%Z)
  else replaceLoop db args rest (bindParam db (consume st) arg).
Proof.
  intros Hv Hk Hn Harg. cbn [replaceLoop]. rewrite Harg.
  subst c.
  apply Z.eqb_neq in Hk, Hn. rewrite Hk, Hn, Z.eqb_refl.
  cbn [negb andb orb]. reflexivity.
Qed.

Lemma appendPlaceholder_mark s n :
  appendPlaceholder db s n = s ++ placeholderMark db n.
Proof.
  unfold placeholderMark, appendPlaceholder.
  destruct (PlaceholderMode db); cbn [app]; [reflexivity | now rewrite <- app_assoc].
Qed.

Lemma allowNull_itemInfo p : allowNull (itemInfo p) = p.
Proof. now destruct p. Qed.

(** The value policy on an element of a slice: a zero pointer becomes
    nil, every other element is bound as it is; only the nil interface
    makes it panic. *)
Lemma escValue_itemInfo p item :
  item <> VNil ->
  escValue item (itemInfo p) =
  Ret (if deepZero item && p then VNil else item).
Proof.
  intros Hn. unfold escValue.
  assert (Hz : isZero item = Ret (deepZero item)) by (destruct item; [congruence | reflexivity ..]).
  rewrite Hz. cbn [bind]. rewrite allowNull_itemInfo.
  destruct (deepZero item), p; reflexivity.
Qed.

Lemma expandItems_later fi items : forall i st,
  (forall item, In item items -> exists p, escValue item fi = Ret p) ->
  exists params,
    Forall2 (fun item p => escValue item fi = Ret p) items params
    /\ expandItems db fi items (S i) st =
       Ret {| sb := sb st ++ commaMarks db (List.length (newArgs st)) (List.length items);
              newArgs := newArgs st ++ params;
              nthArg := nthArg st |}.
Proof.
  induction items as [|item items IH]; intros i st H.
  - exists []. split; [constructor|].
    cbn. unfold commaMarks. cbn. rewrite !app_nil_r. now destruct st.
  - destruct (H item (or_introl eq_refl)) as [p Hp].
    destruct (IH (S i) (bindParam db (WriteRune st 44%Z) p)) as [ps [Hps Heq]].
    { intros x Hx. apply H. now right. }
    exists (p :: ps). split; [now constructor|].
    cbn [expandItems Nat.ltb Nat.leb]. rewrite Hp. cbn [bind].
    rewrite Heq. f_equal.
    unfold bindParam, WriteRune, commaMarks. cbn [sb newArgs nthArg].
    rewrite appendPlaceholder_mark.
    rewrite !length_app. cbn [List.length seq map List.concat].
    rewrite Nat.add_1_r.
    f_equal.
    + rewrite <- !app_assoc. reflexivity.
    + now rewrite <- app_assoc.
Qed.

Lemma Join_cons_concat (m : text) (ms : list text) (sep : text) :
  Join (m :: ms) sep = m ++ List.concat (map (fun x => sep ++ x) ms).
Proof.
  revert m. induction ms as [|m' ms IH]; intros m.
  - cbn. now rewrite app_nil_r.
  - change (Join (m :: m' :: ms) sep) with (m ++ sep ++ Join (m' :: ms) sep).
    rewrite IH. cbn [map List.concat]. now rewrite <- app_assoc.
Qed.

Lemma expandItems_first fi items st :
  items <> [] ->
  (forall item, In item items -> exists p, escValue item fi = Ret p) ->
  exists params,
    Forall2 (fun item p => escValue item fi = Ret p) items params
    /\ expandItems db fi items 0 st =
       Ret {| sb := sb st ++ joinedMarks db (List.length (newArgs st)) (List.length items);
              newArgs := newArgs st ++ params;
              nthArg := nthArg st |}.
Proof.
  destruct items as [|item items]; [congruence|]. intros _ H.
  destruct (H item (or_introl eq_refl)) as [p Hp].
  destruct (expandItems_later fi items 0 (bindParam db st p)) as [ps [Hps Heq]].
  { intros x Hx. apply H. now right. }
  exists (p :: ps). split; [now constructor|].
  cbn [expandItems Nat.ltb Nat.leb]. rewrite Hp. cbn [bind].
  rewrite Heq. f_equal.
  unfold bindParam, joinedMarks, commaMarks. cbn [sb newArgs nthArg].
  rewrite appendPlaceholder_mark.
  rewrite !length_app. cbn [List.length seq map].
  rewrite Join_cons_concat, map_map, Nat.add_1_r.
  f_equal.
  - now rewrite <- app_assoc.
  - now rewrite <- app_assoc.
Qed.

(** *** The builder and the parameters only grow *)

Lemma extends_WriteString st s sql ps :
  extends (WriteString st s) sql ps -> extends st sql ps.
Proof.
  intros [t [q [Ht Hq]]]. cbn in Ht, Hq.
  exists (s ++ t), q. now rewrite app_assoc.
Qed.

Lemma extends_WriteRune st r sql ps :
  extends (WriteRune st r) sql ps -> extends st sql ps.
Proof. apply (extends_WriteString st [r]). Qed.

Lemma extends_consume st sql ps :
  extends (consume st) sql ps -> extends st sql ps.
Proof. intros H. exact H. Qed.

Lemma extends_bindParam st v sql ps :
  extends (bindParam db st v) sql ps -> extends st sql ps.
Proof.
  intros [t [q [Ht Hq]]]. cbn [bindParam sb newArgs] in Ht, Hq.
  rewrite appendPlaceholder_mark in Ht.
  exists (placeholderMark db (List.length (newArgs st ++ [v])) ++ t), ([v] ++ q).
  now rewrite !app_assoc.
Qed.

Lemma expandItems_grows fi items : forall i st st',
  expandItems db fi items i st = Ret st' ->
  forall sql ps, extends st' sql ps -> extends st sql ps.
Proof.
  induction items as [|item items IH]; intros i st st' Hrun sql ps Hext.
  - cbn in Hrun. inversion Hrun; subst. exact Hext.
  - cbn [expandItems] in Hrun.
    destruct (escValue item fi) as [v|msg]; cbn [bind] in Hrun; [|discriminate].
    pose proof (IH _ _ _ Hrun sql ps Hext) as H.
    apply extends_bindParam in H.
    destruct (0 <? i)%nat; [now apply extends_WriteRune in H | exact H].
Qed.

Lemma replaceLoop_grows_bounded n : forall rs st sql ps,
  (List.length rs <= n)%nat ->
  replaceLoop db args rs st = Ret (sql, ps, None) ->
  extends st sql ps.
Proof.
  induction n as [|n IH]; intros rs st sql ps Hlen Hrun.
  - destruct rs; [|cbn in Hlen; lia].
    cbn in Hrun. inversion Hrun; subst. exists [], (skipn (nthArg st) args).
    now rewrite app_nil_r.
  - destruct rs as [|r rest].
    { cbn in Hrun. inversion Hrun; subst. exists [], (skipn (nthArg st) args).
      now rewrite app_nil_r. }
    cbn [List.length] in Hlen.
    assert (Hrest : (List.length rest <= n)%nat) by lia.
    cbn [replaceLoop] in Hrun.
    destruct (negb (r =? PlaceholderKey db)%Z && negb (r =? PlaceholderValue db)%Z).
    { apply extends_WriteRune with (r := r). now apply (IH rest). }
    destruct (((r =? PlaceholderValue db)%Z && (hd 0%Z rest =? PlaceholderValue db)%Z)
              || ((r =? PlaceholderKey db)%Z && (hd 0%Z rest =? PlaceholderKey db)%Z)).
    { apply extends_WriteRune with (r := r).
      destruct rest as [|r' rest'].
      - inversion Hrun; subst. cbn.
        exists [], (skipn (nthArg st) args). now rewrite app_nil_r.
      - apply (IH rest'); [cbn [List.length] in Hrest; lia | exact Hrun]. }
    destruct (nth_error args (nthArg st)) as [arg|]; [|discriminate].
    apply extends_consume.
    destruct (r =? PlaceholderKey db)%Z.
    { destruct arg as [ | | | | v | | e target | | | ]; try discriminate.
      - apply extends_WriteString with (s := Esc db v). now apply (IH rest).
      - destruct e as [k| | | | | ]; try discriminate.
        destruct k; try discriminate.
        destruct target as [[ | | | | v | | | | | ]|]; try discriminate.
        apply extends_WriteString with (s := Esc db v). now apply (IH rest). }
    destruct (IsValue arg).
    { apply extends_bindParam with (v := arg). now apply (IH rest). }
    destruct (IsValid arg && hasKind arg Slice && negb false).
    { destruct (List.length (sliceItems arg) =? 0)%nat; [discriminate|].
      destruct (expandItems db (itemInfo (elemIsPtr arg)) (sliceItems arg) 0
                  (WriteRune (consume st) 40%Z)) as [st'|msg] eqn:Ex;
        cbn [bind] in Hrun; [|discriminate].
      apply extends_WriteRune with (r := 40%Z).
      apply (expandItems_grows _ _ _ _ _ Ex).
      apply extends_WriteRune with (r := 41%Z). now apply (IH rest). }
    apply extends_bindParam with (v := arg). now apply (IH rest).
Qed.

(** Whatever a successful call returns begins with the text and the
    parameters the scan held at any point it went through. *)
Lemma replaceLoop_grows rs st sql ps :
  replaceLoop db args rs st = Ret (sql, ps, None) -> extends st sql ps.
Proof. apply (replaceLoop_grows_bounded (List.length rs)). lia. Qed.

End ReplaceArgs.

(** A prefix without sigils is copied, and the scan goes on behind it: the
    statements above about a point of the scan apply to every template
    that reaches it. *)
Lemma replaceLoop_plain_prefix (db : DB) (args : list value) (pre rs : text) :
  forall st,
    Forall (plain db) pre ->
    replaceLoop db args (pre ++ rs) st = replaceLoop db args rs (WriteString st pre).
Proof.
  induction pre as [|r pre IH]; intros st H.
  - cbn [app]. unfold WriteString. rewrite app_nil_r. now destruct st.
  - inversion H as [|? ? Hr Hpre]; subst.
    cbn [app]. rewrite replaceLoop_plain_step by assumption.
    rewrite IH by assumption.
    unfold WriteString, WriteRune. cbn [sb newArgs nthArg].
    now rewrite <- app_assoc.
Qed.

(** When the scan of [rs] from [st] goes on as the scan of [rest] from
    [st'], whatever the call returns without error begins with the text
    and the parameters of [st'], and when no sigil is left in [rest] the
    call returns the text of [st'] followed by [rest] and the parameters
    of [st'] followed by the arguments not consumed. *)
Lemma replaceLoop_resumes (db : DB) (args : list value) (rs rest : text)
  (st st' : scan) :
  replaceLoop db args rs st = replaceLoop db args rest st' ->
  (forall sql ps,
     replaceLoop db args rs st = Ret (sql, ps, None) -> extends st' sql ps)
  /\ (Forall (plain db) rest ->
      replaceLoop db args rs st
      = Ret (sb st' ++ rest, newArgs st' ++ skipn (nthArg st') args, None)).
Proof.
  intros E. split.
  - intros sql ps Hrun. rewrite E in Hrun.
    exact (replaceLoop_grows db args _ _ _ _ Hrun).
  - intros Hp. rewrite E. now rewrite replaceLoop_plain by assumption.
Qed.

Ltac plain_runes :=
  vm_compute; repeat (constructor; [ split; discriminate | ]); constructor.

(** On the code points: a template in which neither sigil occurs leaves
    the loop as it entered it, together with the argument list unchanged
    in values, order and count, and with no error. *)
Lemma replaceArgs_without_sigils (db : DB) (sqlS : text) (args : list value) :
  Forall (plain db) sqlS ->
  replaceArgs db sqlS args = Ret (sqlS, args, None).
Proof.
  intros H. unfold replaceArgs.
  rewrite replaceLoop_plain by assumption.
  reflexivity.
Qed.

Lemma replaceArgs_without_sigils_witness :
  Forall (plain sampleDB) (runes "SELECT 1")
  /\ replaceArgs sampleDB (runes "SELECT 1") [VInt Int 5; VString "x"]
     = Ret (runes "SELECT 1", [VInt Int 5; VString "x"], None).
Proof.
  assert (H : Forall (plain sampleDB) (runes "SELECT 1")) by plain_runes.
  split; [exact H | exact (replaceArgs_without_sigils sampleDB _ _ H)].
Defined.

(** *** The two conversions of the template *)

Lemma toByte_byteOf c : toByte (byteOf c) = c.
Proof. unfold toByte, byteOf. rewrite Nat2Z.id. apply ascii_nat_embedding. Qed.

Lemma byteOf_range c : (0 <= byteOf c < 256)%Z.
Proof. unfold byteOf. pose proof (nat_ascii_bounded c). lia. Qed.

Lemma inRange_spec lo hi b : inRange lo hi b = true <-> (lo <= b <= hi)%Z.
Proof. unfold inRange. rewrite andb_true_iff, !Z.leb_le. tauto. Qed.

Lemma isCont_spec b : isCont b = true -> (128 <= b <= 191)%Z.
Proof. unfold isCont. now rewrite inRange_spec. Qed.

Lemma seqLen_cases b :
  (seqLen b = 1 /\ (b < 128)%Z)
  \/ (seqLen b = 2 /\ (194 <= b <= 223)%Z)
  \/ (seqLen b = 3 /\ (224 <= b <= 239)%Z)
  \/ (seqLen b = 4 /\ (240 <= b <= 244)%Z)
  \/ seqLen b = 0.
Proof.
  unfold seqLen.
  repeat match goal with
         | |- context [(?x <? ?y)%Z] => destruct (Z.ltb_spec x y)
         end; try lia; auto 10.
  all: intuition lia.
Qed.

Lemma acceptSecond_spec b0 b1 :
  acceptSecond b0 b1 = true ->
  (128 <= b1 <= 191
   /\ (b0 = 224 -> 160 <= b1) /\ (b0 = 240 -> 144 <= b1)
   /\ (b0 = 237 -> b1 <= 159) /\ (b0 = 244 -> b1 <= 143))%Z.
Proof.
  unfold acceptSecond. rewrite inRange_spec.
  repeat match goal with
         | |- context [(?x =? ?y)%Z] => destruct (Z.eqb_spec x y)
         end; lia.
Qed.

Lemma encodeRune_1 b :
  (0 <= b < 128)%Z -> encodeRune b = String (toByte b) EmptyString.
Proof.
  intros H. unfold encodeRune.
  destruct (Z.leb_spec 0 b); [|lia].
  destruct (Z.ltb_spec b 128); [|lia]. reflexivity.
Qed.

Lemma encodeRune_2 b0 b1 :
  (194 <= b0 <= 223)%Z -> (128 <= b1 <= 191)%Z ->
  encodeRune ((b0 - 192) * 64 + (b1 - 128))%Z
  = String (toByte b0) (String (toByte b1) EmptyString).
Proof.
  intros H0 H1. unfold encodeRune.
  set (r := ((b0 - 192) * 64 + (b1 - 128))%Z).
  assert (Hr : (128 <= r < 2048)%Z) by (subst r; lia).
  assert (Hd : (r / 64 = b0 - 192)%Z) by (subst r; Z.div_mod_to_equations; lia).
  assert (Hm : (r mod 64 = b1 - 128)%Z) by (subst r; Z.div_mod_to_equations; lia).
  destruct (Z.leb_spec 0 r); [|lia].
  destruct (Z.ltb_spec r 128); [lia|].
  destruct (Z.ltb_spec r 2048); [|lia].
  cbn [andb]. rewrite Hd, Hm. do 2 f_equal; f_equal; lia.
Qed.

Lemma encodeRune_3 b0 b1 b2 :
  (224 <= b0 <= 239)%Z -> (128 <= b1 <= 191)%Z -> (128 <= b2 <= 191)%Z ->
  (b0 = 224 -> 160 <= b1)%Z -> (b0 = 237 -> b1 <= 159)%Z ->
  encodeRune ((b0 - 224) * 4096 + (b1 - 128) * 64 + (b2 - 128))%Z
  = String (toByte b0) (String (toByte b1) (String (toByte b2) EmptyString)).
Proof.
  intros H0 H1 H2 Hlo Hhi. unfold encodeRune.
  set (r := ((b0 - 224) * 4096 + (b1 - 128) * 64 + (b2 - 128))%Z).
  assert (Hr : (2048 <= r < 65536)%Z) by (subst r; lia).
  assert (Hs : (r < 55296 \/ 57343 < r)%Z) by (subst r; lia).
  assert (Hd : (r / 4096 = b0 - 224)%Z) by (subst r; Z.div_mod_to_equations; lia).
  assert (Hm1 : ((r / 64) mod 64 = b1 - 128)%Z)
    by (subst r; Z.div_mod_to_equations; lia).
  assert (Hm : (r mod 64 = b2 - 128)%Z) by (subst r; Z.div_mod_to_equations; lia).
  destruct (Z.leb_spec 0 r); [|lia].
  destruct (Z.ltb_spec r 128); [lia|].
  destruct (Z.ltb_spec r 2048); [lia|].
  destruct (Z.ltb_spec r 0); [lia|].
  destruct (Z.ltb_spec 1114111 r); [lia|].
  destruct (Z.ltb_spec r 65536); [|lia].
  cbn [andb orb].
  assert (Hsur : ((55296 <=? r) && (r <=? 57343))%Z = false).
  { apply andb_false_iff. rewrite Z.leb_gt, Z.leb_gt. lia. }
  rewrite Hsur, Hd, Hm1, Hm. do 3 f_equal; f_equal; lia.
Qed.

Lemma encodeRune_4 b0 b1 b2 b3 :
  (240 <= b0 <= 244)%Z -> (128 <= b1 <= 191)%Z -> (128 <= b2 <= 191)%Z ->
  (128 <= b3 <= 191)%Z ->
  (b0 = 240 -> 144 <= b1)%Z -> (b0 = 244 -> b1 <= 143)%Z ->
  encodeRune ((b0 - 240) * 262144 + (b1 - 128) * 4096 + (b2 - 128) * 64
              + (b3 - 128))%Z
  = String (toByte b0)
      (String (toByte b1) (String (toByte b2) (String (toByte b3) EmptyString))).
Proof.
  intros H0 H1 H2 H3 Hlo Hhi. unfold encodeRune.
  set (r := ((b0 - 240) * 262144 + (b1 - 128) * 4096 + (b2 - 128) * 64
             + (b3 - 128))%Z).
  assert (Hr : (65536 <= r <= 1114111)%Z) by (subst r; lia).
  assert (Hd : (r / 262144 = b0 - 240)%Z)
    by (subst r; Z.div_mod_to_equations; lia).
  assert (Hm2 : ((r / 4096) mod 64 = b1 - 128)%Z)
    by (subst r; Z.div_mod_to_equations; lia).
  assert (Hm1 : ((r / 64) mod 64 = b2 - 128)%Z)
    by (subst r; Z.div_mod_to_equations; lia).
  assert (Hm : (r mod 64 = b3 - 128)%Z) by (subst r; Z.div_mod_to_equations; lia).
  destruct (Z.leb_spec 0 r); [|lia].
  destruct (Z.ltb_spec r 128); [lia|].
  destruct (Z.ltb_spec r 2048); [lia|].
  destruct (Z.ltb_spec r 0); [lia|].
  destruct (Z.ltb_spec 1114111 r); [lia|].
  destruct (Z.ltb_spec r 65536); [lia|].
  cbn [andb orb].
  assert (Hsur : ((55296 <=? r) && (r <=? 57343))%Z = false).
  { apply andb_false_iff. rewrite Z.leb_gt, Z.leb_gt. lia. }
  rewrite Hsur, Hd, Hm2, Hm1, Hm. do 4 f_equal; f_equal; lia.
Qed.

Lemma encodeRunes_decodeRunes_bounded n : forall s,
  (String.length s <= n)%nat ->
  ValidString s = true ->
  encodeRunes (decodeRunes s) = s.
Proof.
  induction n as [|n IH]; intros s Hlen Hv.
  - destruct s; [reflexivity | cbn in Hlen; lia].
  - destruct s as [|c0 s1]; [reflexivity|].
    cbn [String.length] in Hlen.
    pose proof (byteOf_range c0) as R0.
    cbn [decodeRunes ValidString] in *.
    destruct (seqLen_cases (byteOf c0)) as [[E H]|[[E H]|[[E H]|[[E H]|E]]]];
      rewrite E in *; try discriminate.
    + cbn [encodeRunes]. rewrite encodeRune_1 by lia. rewrite toByte_byteOf.
      cbn [String.append]. f_equal. apply IH; [lia | exact Hv].
    + destruct s1 as [|c1 s2]; [discriminate|].
      apply andb_true_iff in Hv. destruct Hv as [Hs Hv]. rewrite Hs.
      apply acceptSecond_spec in Hs. destruct Hs as [R1 _].
      cbn [encodeRunes]. rewrite encodeRune_2 by lia. rewrite !toByte_byteOf.
      cbn [String.append]. do 2 f_equal. apply IH; [cbn in Hlen; lia | exact Hv].
    + destruct s1 as [|c1 [|c2 s3]]; try discriminate.
      apply andb_true_iff in Hv. destruct Hv as [Hs Hv].
      rewrite Hs. apply andb_true_iff in Hs. destruct Hs as [Hs Hc2].
      apply acceptSecond_spec in Hs. destruct Hs as [R1 [L1 [_ [U1 _]]]].
      apply isCont_spec in Hc2.
      cbn [encodeRunes]. rewrite encodeRune_3 by lia. rewrite !toByte_byteOf.
      cbn [String.append]. do 3 f_equal. apply IH; [cbn in Hlen; lia | exact Hv].
    + destruct s1 as [|c1 [|c2 [|c3 s4]]]; try discriminate.
      apply andb_true_iff in Hv. destruct Hv as [Hs Hv].
      rewrite Hs. apply andb_true_iff in Hs. destruct Hs as [Hs Hc3].
      apply andb_true_iff in Hs. destruct Hs as [Hs Hc2].
      apply acceptSecond_spec in Hs. destruct Hs as [R1 [_ [L1 [_ U1]]]].
      apply isCont_spec in Hc2, Hc3.
      cbn [encodeRunes]. rewrite encodeRune_4 by lia. rewrite !toByte_byteOf.
      cbn [String.append]. do 4 f_equal. apply IH; [cbn in Hlen; lia | exact Hv].
Qed.

(** A string of well-formed sequences is what its code points encode to:
    the two conversions of [replaceArgs] cancel on valid UTF-8. *)
Lemma encodeRunes_decodeRunes s :
  ValidString s = true -> encodeRunes (decodeRunes s) = s.
Proof. apply (encodeRunes_decodeRunes_bounded (String.length s)). lia. Qed.

(** C10, refuted as stated: the template that is the single byte 0xFF
    holds no sigil, and the call returns the three bytes of U+FFFD in its
    place. *)
Lemma replaceArgs_invalid_byte_replaced :
  Forall (plain sampleDB) (decodeRunes invalidTemplate)
  /\ replaceArgsString sampleDB invalidTemplate [VInt Int 5]
     = Ret (replacementBytes, [VInt Int 5], None)
  /\ replacementBytes <> invalidTemplate.
Proof.
  split; [plain_runes|]. split; [vm_compute; reflexivity|].
  vm_compute. discriminate.
Qed.

(** C10, amended: a template that is valid UTF-8 and in which neither
    sigil occurs is returned unchanged, byte for byte, together with the
    argument list unchanged in values, order and count, and with no
    error. *)
Theorem replaceArgsString_without_sigils (db : DB) (sqlS : string)
  (args : list value) :
  ValidString sqlS = true ->
  Forall (plain db) (decodeRunes sqlS) ->
  replaceArgsString db sqlS args = Ret (sqlS, args, None).
Proof.
  intros Hv Hp. unfold replaceArgsString, replaceArgs.
  rewrite replaceLoop_plain by assumption.
  unfold finish, WriteString. cbn [bind sb newArgs nthArg app skipn].
  now rewrite encodeRunes_decodeRunes.
Qed.

Lemma replaceArgsString_without_sigils_witness :
  ValidString accentTemplate = true
  /\ Forall (plain sampleDB) (decodeRunes accentTemplate)
  /\ replaceArgsString sampleDB accentTemplate [VInt Int 5; VString "x"]
     = Ret (accentTemplate, [VInt Int 5; VString "x"], None).
Proof.
  assert (H1 : ValidString accentTemplate = true) by (vm_compute; reflexivity).
  assert (H2 : Forall (plain sampleDB) (decodeRunes accentTemplate))
    by plain_runes.
  repeat (split; [assumption|]).
  exact (replaceArgsString_without_sigils sampleDB _ _ H1 H2).
Defined.

(** C7: at any point of the scan, a sigil followed at once by the same
    sigil writes that rune once and leaves the argument counter and the
    parameters as they were; the scan goes on after the second rune.
    Whatever the call then returns without error holds that one rune at
    that position; when no sigil follows, the call returns the text built
    before, the rune once and the rest of the template, with every
    argument that was not consumed before; and a template with no other
    sigil comes back with the two runes replaced by one and the argument
    list as it was given. *)
Theorem replaceLoop_doubled_sigil (db : DB) (args : list value) (c : rune)
  (rest : text) (st : scan) :
  c = PlaceholderKey db \/ c = PlaceholderValue db ->
  replaceLoop db args (c :: c :: rest) st =
  replaceLoop db args rest
    {| sb := sb st ++ [c]; newArgs := newArgs st; nthArg := nthArg st |}
  /\ (forall sql ps,
        replaceLoop db args (c :: c :: rest) st = Ret (sql, ps, None) ->
        exists moreText moreParams,
          sql = sb st ++ [c] ++ moreText /\ ps = newArgs st ++ moreParams)
  /\ (Forall (plain db) rest ->
      replaceLoop db args (c :: c :: rest) st
      = Ret (sb st ++ [c] ++ rest, newArgs st ++ skipn (nthArg st) args, None))
  /\ (forall pre,
        Forall (plain db) pre -> Forall (plain db) rest ->
        replaceArgs db (pre ++ c :: c :: rest) args
        = Ret (pre ++ c :: rest, args, None)).
Proof.
  intros H.
  assert (E : forall st0,
             replaceLoop db args (c :: c :: rest) st0 =
             replaceLoop db args rest
               {| sb := sb st0 ++ [c]; newArgs := newArgs st0;
                  nthArg := nthArg st0 |}).
  { intros st0. remember (c :: rest) as t eqn:Et.
    assert (Hh : hd 0%Z t = c) by (subst t; reflexivity).
    cbn [replaceLoop]. rewrite Hh.
    destruct H as [-> | ->]; rewrite Z.eqb_refl; cbn [negb andb orb];
      rewrite ?andb_false_r, ?orb_true_r; subst t; reflexivity. }
  destruct (replaceLoop_resumes db args _ _ _ _ (E st)) as [Hret Hplain].
  split; [exact (E st)|]. split; [|split].
  - intros sql ps Hrun.
    destruct (Hret sql ps Hrun) as [t [q [Ht Hq]]]. cbn [sb newArgs] in Ht, Hq.
    exists t, q. rewrite Ht, Hq, <- app_assoc. split; reflexivity.
  - intros Hp. rewrite (Hplain Hp). cbn [sb newArgs nthArg].
    now rewrite <- app_assoc.
  - intros pre Hpre Hp. unfold replaceArgs.
    rewrite replaceLoop_plain_prefix by assumption.
    destruct (replaceLoop_resumes db args _ _ _ _
                (E (WriteString {| sb := []; newArgs := []; nthArg := 0 |} pre)))
      as [_ Hplain'].
    rewrite (Hplain' Hp). cbn [WriteString sb newArgs nthArg app skipn].
    now rewrite <- app_assoc.
Qed.

Lemma replaceLoop_doubled_sigil_witness :
  (35%Z = PlaceholderKey sampleDB \/ 35%Z = PlaceholderValue sampleDB)
  /\ replaceLoop sampleDB [VInt Int 1] (35 :: 35 :: runes " x")%Z
       {| sb := runes "a "; newArgs := []; nthArg := 0 |}
     = replaceLoop sampleDB [VInt Int 1] (runes " x")
         {| sb := runes "a " ++ [35%Z]; newArgs := []; nthArg := 0 |}
  /\ (forall sql ps,
        replaceLoop sampleDB [VInt Int 1] (35 :: 35 :: runes " x")%Z
          {| sb := runes "a "; newArgs := []; nthArg := 0 |}
        = Ret (sql, ps, None) ->
        exists moreText moreParams,
          sql = runes "a " ++ [35%Z] ++ moreText /\ ps = [] ++ moreParams)
  /\ (Forall (plain sampleDB) (runes " x") ->
      replaceLoop sampleDB [VInt Int 1] (35 :: 35 :: runes " x")%Z
        {| sb := runes "a "; newArgs := []; nthArg := 0 |}
      = Ret (runes "a " ++ [35%Z] ++ runes " x",
             [] ++ skipn 0 [VInt Int 1], None))
  /\ (forall pre,
        Forall (plain sampleDB) pre -> Forall (plain sampleDB) (runes " x") ->
        replaceArgs sampleDB (pre ++ 35%Z :: 35%Z :: runes " x") [VInt Int 1]
        = Ret (pre ++ 35%Z :: runes " x", [VInt Int 1], None)).
Proof.
  assert (H : 35%Z = PlaceholderKey sampleDB \/ 35%Z = PlaceholderValue sampleDB)
    by (right; reflexivity).
  split; [exact H|].
  exact (replaceLoop_doubled_sigil sampleDB [VInt Int 1] 35%Z (runes " x")
           {| sb := runes "a "; newArgs := []; nthArg := 0 |} H).
Defined.

(** The example of the rule: [a ## b] with one argument left over. *)
Example replaceArgs_doubled_value_sigil :
  replaceArgs sampleDB (runes "a ## b") [VInt Int 1]
  = Ret (runes "a # b", [VInt Int 1], None)
  /\ replaceArgs sampleDB (runes "a %% b") [VInt Int 1]
     = Ret (runes "a % b", [VInt Int 1], None).
Proof. split; vm_compute; reflexivity. Qed.

Lemma hasKind_IsValid arg k : hasKind arg k = true -> IsValid arg = true.
Proof. unfold hasKind, IsValid; destruct arg; cbn; intros; congruence. Qed.

(** C6, refuted as stated: an empty [[]byte] at a value sigil is bound as
    one parameter; the call returns SQL text and no error. *)
Lemma replaceArgs_empty_bytes_no_error :
  sliceItems (byteSlice []) = []
  /\ replaceArgs sampleDB (runes "b = #") [byteSlice []]
     = Ret (runes "b = ?", [byteSlice []], None).
Proof. split; vm_compute; reflexivity. Qed.

(** C6, amended: when the scan stands at a value sigil that is not doubled
    and the next argument is an empty or nil slice that the driver does
    not take as a value (every slice but [[]byte]), the call returns the
    error of line 242 with the empty string and no parameters. *)
Theorem replaceLoop_empty_slice (db : DB) (args : list value) (c : rune)
  (rest : text) (st : scan) (arg : value) :
  c = PlaceholderValue db ->
  c <> PlaceholderKey db ->
  hd 0%Z rest <> c ->
  nth_error args (nthArg st) = Some arg ->
  hasKind arg Slice = true ->
  IsValue arg = false ->
  sliceItems arg = [] ->
  replaceLoop db args (c :: rest) st = Ret ([], [], Some ErrEmptySlice).
Proof.
  intros Hv Hk Hn Harg Hs Hd He.
  rewrite (replaceLoop_value_step db args c rest st arg Hv Hk Hn Harg).
  rewrite Hd, Hs, (hasKind_IsValid _ _ Hs), He. reflexivity.
Qed.

Lemma replaceLoop_empty_slice_witness :
  35%Z = PlaceholderValue sampleDB
  /\ 35%Z <> PlaceholderKey sampleDB
  /\ hd 0%Z (runes " x") <> 35%Z
  /\ nth_error [intSlice []] 0 = Some (intSlice [])
  /\ hasKind (intSlice []) Slice = true
  /\ IsValue (intSlice []) = false
  /\ sliceItems (intSlice []) = []
  /\ replaceLoop sampleDB [intSlice []] (35%Z :: runes " x")
       {| sb := runes "id = "; newArgs := []; nthArg := 0 |}
     = Ret ([], [], Some ErrEmptySlice).
Proof.
  assert (H1 : 35%Z = PlaceholderValue sampleDB) by reflexivity.
  assert (H2 : 35%Z <> PlaceholderKey sampleDB) by (vm_compute; discriminate).
  assert (H3 : hd 0%Z (runes " x") <> 35%Z) by (vm_compute; discriminate).
  assert (H4 : nth_error [intSlice []] 0 = Some (intSlice [])) by reflexivity.
  assert (H5 : hasKind (intSlice []) Slice = true) by reflexivity.
  assert (H6 : IsValue (intSlice []) = false) by reflexivity.
  assert (H7 : sliceItems (intSlice []) = []) by reflexivity.
  repeat (split; [assumption|]).
  exact (replaceLoop_empty_slice sampleDB _ _ _
           {| sb := runes "id = "; newArgs := []; nthArg := 0 |} _
           H1 H2 H3 H4 H5 H6 H7).
Defined.




(** ** The shape check *)

(** C9, evaluated on the code: a single record passed by value is not
    addressable, so [checkData] returns the error of line 26 for it, and
    [Insert], [Update] and [Save] return that error, send nothing to the
    driver and leave the record as it is. The comment above [Insert] lists
    [struct] among the shapes it takes. *)
Theorem struct_by_value_is_refused
  (rangeOrder : forall A : Type, list (string * A) -> list (string * A))
  (escValue3 : value -> option fieldInfo -> result (text * value * option error))
  (driver : Type)
  (exec : driver -> Z -> text -> list value -> driver * (Z * option error))
  (db : DB) (d : driver) (table n : string)
  (fields : list (StructField * value)) :
  checkData (VStruct n fields)
  = Ret ({| held := VStruct n fields; typ := TStruct n; CanAddr := false |},
         false, Some ErrNeedSlice)
  /\ Insert rangeOrder escValue3 driver exec db d table (VStruct n fields)
     = Ret (d, (VStruct n fields, Some ErrNeedSlice))
  /\ Update rangeOrder escValue3 driver exec db d table (VStruct n fields)
     = Ret (d, Some ErrNeedSlice)
  /\ Save rangeOrder escValue3 driver exec db d table (VStruct n fields)
     = Ret (d, (VStruct n fields, Some ErrNeedSlice)).
Proof. repeat split; reflexivity. Qed.

(** The same on the record [person{7, "ann"}]. *)
Example checkData_struct_by_value_rejected :
  checkData (person 7 "ann")
  = Ret ({| held := person 7 "ann"; typ := TStruct "person"; CanAddr := false |},
         false, Some ErrNeedSlice)
  /\ Insert insertionOrder escValueSpec nat sampleExec sampleDB 0 "t"
       (person 7 "ann")
     = Ret (0, (person 7 "ann", Some ErrNeedSlice)).
Proof. split; reflexivity. Qed.

(** The shapes the comment of [checkData] lists: it returns no error for a
    single record passed by reference and for a slice of structs or of
    pointers to structs, passed by reference or by value; struct mode is
    reported for the single record only. *)
Lemma checkData_accepts (data : value) :
  acceptedShape data ->
  exists rv structMode,
    checkData data = Ret (rv, structMode, None)
    /\ (structMode = true <-> exists n fields, held rv = VStruct n fields).
Proof.
  intros H. destruct H; eexists; eexists; (split; [reflexivity|]); cbn;
    split; try discriminate; try (intros [n' [fs E]]; discriminate E);
    intros _; eauto.
Qed.

Lemma checkData_accepts_witness :
  acceptedShape (VPtr (TStruct "person") (Some (person 7 "ann")))
  /\ exists rv structMode,
       checkData (VPtr (TStruct "person") (Some (person 7 "ann")))
       = Ret (rv, structMode, None)
       /\ (structMode = true <-> exists n fields, held rv = VStruct n fields).
Proof.
  assert (H : acceptedShape (VPtr (TStruct "person") (Some (person 7 "ann"))))
    by (unfold person; constructor).
  split; [exact H | exact (checkData_accepts _ H)].
Defined.

(** ** The UPDATE builder *)

(** C2, evaluated on the code: for a record with the two primary-key
    columns [a] and [b], both non-zero, the WHERE clause is the two
    equality predicates written one after the other, with no AND between
    them, whichever order [range] takes. *)
Theorem updateClause_two_keys_not_joined :
  updateClauseFromRow insertionOrder escValueSpec sampleDB "t" (twoKeys 1 2 "x")
  = Ret (runes "UPDATE `t` SET `c`=# WHERE `a`=#`b`=#",
         [VInt Int64 1; VInt Int64 2; VString "x"], None)
  /\ updateClauseFromValues reverseOrder escValueSpec sampleDB "t"
       [("a", VInt Int64 1); ("b", VInt Int64 2); ("c", VString "x")]
       [("a", with_primaryKey (newFieldInfo "a" "A") true);
        ("b", with_primaryKey (newFieldInfo "b" "B") true);
        ("c", newFieldInfo "c" "C")]
     = Ret (runes "UPDATE `t` SET `c`=# WHERE `b`=#`a`=#",
            [VString "x"; VInt Int64 2; VInt Int64 1], None).
Proof. split; vm_compute; reflexivity. Qed.

(** The same on every handle: nothing stands between the predicates. *)
Lemma updateClause_two_keys_any_db (db : DB) :
  updateClauseFromRow insertionOrder escValueSpec db "t" (twoKeys 1 2 "x")
  = Ret (runes "UPDATE " ++ Esc db "t" ++ runes " SET "
           ++ Esc db "c" ++ runes "=" ++ [PlaceholderValue db]
           ++ runes " WHERE "
           ++ Esc db "a" ++ runes "=" ++ [PlaceholderValue db]
           ++ Esc db "b" ++ runes "=" ++ [PlaceholderValue db],
         [VInt Int64 1; VInt Int64 2; VString "x"], None).
Proof.
  cbv - [app Esc PlaceholderValue]. repeat rewrite <- app_assoc. reflexivity.
Qed.

Section UpdateLoop.

Variable rangeOrder : forall A : Type, list (string * A) -> list (string * A).
Variable escValue3 :
  value -> option fieldInfo -> result (text * value * option error).
Variable db : DB.
Variable info : structInfo.

(** As long as no primary key was seen, a loop over columns that are not
    primary keys ends in an error with the empty string. *)
Lemma updateLoop_no_key entries : forall b,
  valid b = false ->
  (forall key v, In (key, v) entries -> si_primaryKey info key = Ret false) ->
  (forall key v, In (key, v) entries ->
                 exists r, escValue3 v (mapGet info key) = Ret r) ->
  exists args e,
    updateLoop escValue3 db info entries b = Ret ([], args, Some e).
Proof.
  induction entries as [|[key v] entries IH]; intros b Hb Hpk Hesc.
  - cbn [updateLoop]. rewrite Hb. cbn. eauto.
  - cbn [updateLoop].
    rewrite (Hpk key v (or_introl eq_refl)). cbn [bind].
    destruct (Hesc key v (or_introl eq_refl)) as [[[escV driverV] err] Hr].
    rewrite Hr. cbn [bind].
    destruct err as [e|]; [eauto|].
    destruct (text_eqb escV []);
      (apply IH;
       [ exact Hb
       | intros k' v' Hin; apply (Hpk k' v'); now right
       | intros k' v' Hin; apply (Hesc k' v'); now right ]).
Qed.

(** Primary-key columns whose values are bound as parameters: each adds
    its predicate to the WHERE builder right behind the one before, and
    nothing else is written. *)
Lemma updateLoop_keys_back_to_back entries : forall b,
  (forall key v, In (key, v) entries -> si_primaryKey info key = Ret true) ->
  (forall key v, In (key, v) entries ->
                 escValue3 v (mapGet info key) = Ret ([], v, None)) ->
  updateLoop escValue3 db info entries b =
  updateLoop escValue3 db info []
    {| update := update b;
       where_ := where_ b
                 ++ List.concat
                      (map (fun e => Esc db (fst e) ++ runes "="
                                       ++ [PlaceholderValue db]) entries);
       idx := idx b;
       valid := valid b || match entries with [] => false | _ => true end;
       uargs := uargs b ++ map snd entries |}.
Proof.
  induction entries as [|[key v] entries IH]; intros b Hpk Hesc.
  - cbn [map List.concat]. rewrite !app_nil_r, orb_false_r. now destruct b.
  - cbn [updateLoop].
    rewrite (Hpk key v (or_introl eq_refl)). cbn [bind].
    rewrite (Hesc key v (or_introl eq_refl)). cbn [bind].
    change (text_eqb [] (runes "null")) with false.
    change (text_eqb [] []) with true. cbv iota.
    rewrite IH.
    + cbn [update where_ idx valid uargs map List.concat fst snd orb].
      rewrite orb_true_r. rewrite <- !app_assoc. reflexivity.
    + intros k' v' Hin. apply (Hpk k' v'). now right.
    + intros k' v' Hin. apply (Hesc k' v'). now right.
Qed.

End UpdateLoop.

(** C3, evaluated on the code: a record whose only column is its primary
    key contributes no settable column, and the builder returns a
    statement with an empty SET list and no error. The loop counts the
    settable columns in [idx] and tests only [valid]. *)
Theorem updateClause_key_only_no_error :
  updateClauseFromRow insertionOrder escValueSpec sampleDB "t" (keyOnly 7)
  = Ret (runes "UPDATE `t` SET  WHERE `id`=#", [VInt Int64 7], None).
Proof. vm_compute. reflexivity. Qed.

(** The same on every handle, table and key: nothing stands between SET
    and WHERE. *)
Lemma updateClause_key_only_any_db (db : DB) (table : string) (id : Z) :
  updateClauseFromRow insertionOrder escValueSpec db table (keyOnly id)
  = Ret (runes "UPDATE " ++ Esc db table ++ runes " SET " ++ runes " WHERE "
           ++ Esc db "id" ++ runes "=" ++ [PlaceholderValue db],
         [VInt Int64 id], None).
Proof.
  destruct id as [|p|p]; cbv - [app Esc PlaceholderValue];
    repeat rewrite <- app_assoc; reflexivity.
Qed.

(** The test the loop does make: when none of the columns the record
    contributes is a primary key, and every value is classified without a
    panic, building the UPDATE clause returns an error and the empty
    string in place of SQL text. *)
Lemma updateClauseFromRow_no_key
  (rangeOrder : forall A : Type, list (string * A) -> list (string * A))
  (escValue3 : value -> option fieldInfo -> result (text * value * option error))
  (db : DB) (table : string) (row : value)
  (values : list (string * value)) (info : structInfo) :
  valuesFromStruct rangeOrder row = Ret (values, info) ->
  (forall key v, In (key, v) (rangeOrder value values) ->
                 si_primaryKey info key = Ret false) ->
  (forall key v, In (key, v) (rangeOrder value values) ->
                 exists r, escValue3 v (mapGet info key) = Ret r) ->
  exists args e,
    updateClauseFromRow rangeOrder escValue3 db table row
    = Ret ([], args, Some e).
Proof.
  intros Hv Hpk Hesc. unfold updateClauseFromRow.
  rewrite Hv. cbn [bind]. unfold updateClauseFromValues.
  apply updateLoop_no_key; [reflexivity | exact Hpk | exact Hesc].
Qed.

Lemma updateClauseFromRow_no_key_witness :
  valuesFromStruct insertionOrder (noKey "ann")
  = Ret ([("name", VString "ann")],
         [("name", with_emptyValue (newFieldInfo "name" "Name") "''")])
  /\ (forall key v,
        In (key, v) (insertionOrder value [("name", VString "ann")]) ->
        si_primaryKey
          [("name", with_emptyValue (newFieldInfo "name" "Name") "''")] key
        = Ret false)
  /\ (forall key v,
        In (key, v) (insertionOrder value [("name", VString "ann")]) ->
        exists r,
          escValueSpec v
            (mapGet [("name", with_emptyValue (newFieldInfo "name" "Name") "''")]
               key) = Ret r)
  /\ exists args e,
       updateClauseFromRow insertionOrder escValueSpec sampleDB "t" (noKey "ann")
       = Ret ([], args, Some e).
Proof.
  assert (H1 : valuesFromStruct insertionOrder (noKey "ann")
               = Ret ([("name", VString "ann")],
                      [("name", with_emptyValue (newFieldInfo "name" "Name") "''")]))
    by (vm_compute; reflexivity).
  assert (H2 : forall key v,
             In (key, v) (insertionOrder value [("name", VString "ann")]) ->
             si_primaryKey
               [("name", with_emptyValue (newFieldInfo "name" "Name") "''")] key
             = Ret false).
  { intros key v [E | []]. inversion E; subst. reflexivity. }
  assert (H3 : forall key v,
             In (key, v) (insertionOrder value [("name", VString "ann")]) ->
             exists r,
               escValueSpec v
                 (mapGet [("name", with_emptyValue (newFieldInfo "name" "Name") "''")]
                    key) = Ret r).
  { intros key v [E | []]. inversion E; subst. eexists. reflexivity. }
  repeat (split; [assumption|]).
  exact (updateClauseFromRow_no_key insertionOrder escValueSpec sampleDB "t"
           _ _ _ H1 H2 H3).
Defined.

(** ** Insert and the primary key *)

Lemma truncate_int64 (x : Z) :
  (- 2 ^ 63 <= x < 2 ^ 63)%Z -> truncate 64 x = x.
Proof.
  intros H. unfold truncate.
  change (64 - 1)%Z with 63%Z.
  rewrite Z.mod_small; lia.
Qed.


Lemma onlyPrimaryKeyLoop_none entries : forall fi,
  (forall e, In e entries -> primaryKey (snd e) = false) ->
  onlyPrimaryKeyLoop entries fi = fi.
Proof.
  induction entries as [|[k i] entries IH]; intros fi H.
  - reflexivity.
  - cbn [onlyPrimaryKeyLoop].
    pose proof (H (k, i) (or_introl eq_refl)) as Hi. cbn [snd] in Hi.
    rewrite Hi.
    apply IH. intros e He. apply H. now right.
Qed.

(** Exactly one primary key among the entries: it is the one returned,
    wherever [range] meets it. *)
Lemma onlyPrimaryKeyLoop_exactly_one before k pk after :
  primaryKey pk = true ->
  (forall e, In e (before ++ after) -> primaryKey (snd e) = false) ->
  onlyPrimaryKeyLoop (before ++ (k, pk) :: after) None = Some pk.
Proof.
  intros Hpk. induction before as [|[k' i] before IH]; intros H.
  - cbn [app onlyPrimaryKeyLoop]. rewrite Hpk.
    apply onlyPrimaryKeyLoop_none. exact H.
  - cbn [app onlyPrimaryKeyLoop].
    pose proof (H (k', i) (or_introl eq_refl)) as Hi. cbn [snd] in Hi.
    rewrite Hi.
    apply IH. intros e He. apply H. now right.
Qed.

(** A second primary key makes the result nil. *)
Lemma onlyPrimaryKeyLoop_second entries : forall fi k pk after,
  primaryKey pk = true ->
  onlyPrimaryKeyLoop (entries ++ (k, pk) :: after) (Some fi) = None.
Proof.
  induction entries as [|[k' i] entries IH]; intros fi k pk after Hpk.
  - cbn [app onlyPrimaryKeyLoop]. now rewrite Hpk.
  - cbn [app onlyPrimaryKeyLoop].
    destruct (primaryKey i); [reflexivity | now apply IH].
Qed.

Section InsertMore.

Variable rangeOrder : forall A : Type, list (string * A) -> list (string * A).
Variable escValue3 :
  value -> option fieldInfo -> result (text * value * option error).
Variable driver : Type.
Variable exec : driver -> Z -> text -> list value -> driver * (Z * option error).
Variable db : DB.

(** [insertStruct] once the statement is built. *)
Lemma insertStruct_built d table row values info sql args :
  valuesFromStruct rangeOrder row = Ret (values, info) ->
  insertClauseFromValues rangeOrder escValue3 db table values info
  = Ret (sql, args, None) ->
  insertStruct rangeOrder escValue3 driver exec db d table row =
  Ret (let '(d', (insert_id, err)) := exec d 1%Z sql args in
       match err with
       | Some e => (d', (0%Z, [], Some e))
       | None => (d', (insert_id, info, None))
       end).
Proof.
  intros Hv Hc. unfold insertStruct. rewrite Hv. cbn [bind]. rewrite Hc.
  cbn [bind]. destruct (exec d 1%Z sql args) as [d' [i [e|]]]; reflexivity.
Qed.


Lemma insertItems_app table l1 : forall d l2 d1 l1',
  insertItems rangeOrder escValue3 driver exec db d table l1
  = Ret (d1, (l1', None)) ->
  insertItems rangeOrder escValue3 driver exec db d table (l1 ++ l2) =
  (r <- insertItems rangeOrder escValue3 driver exec db d1 table l2 ;;
   let '(d2, (l2', err)) := r in Ret (d2, (l1' ++ l2', err))).
Proof.
  induction l1 as [|item l1 IH]; intros d l2 d1 l1' Hrun.
  - cbn in Hrun. inversion Hrun; subst. cbn [app].
    destruct (insertItems _ _ _ _ _ d1 table l2) as [[d2 [l2' err]]|msg]; reflexivity.
  - cbn [insertItems] in Hrun. cbn [app insertItems].
    destruct (insertItem rangeOrder escValue3 driver exec db d table item)
      as [[da [item' [e|]]]|msg]; cbn [bind] in Hrun |- *; try discriminate.
    destruct (insertItems rangeOrder escValue3 driver exec db da table l1)
      as [[db' [l1'' err1]]|msg] eqn:E1; cbn [bind] in Hrun; [|discriminate].
    inversion Hrun; subst.
    rewrite (IH da l2 d1 l1'' E1).
    destruct (insertItems _ _ _ _ _ d1 table l2) as [[d2 [l2' err]]|msg];
      reflexivity.
Qed.

(** A row whose insert fails is handed back as it was. *)
Lemma insertRow_error_keeps_row d table row d' row' err :
  insertRow rangeOrder escValue3 driver exec db d table row
  = Ret (d', (row', Some err)) ->
  row' = row.
Proof.
  unfold insertRow. intros H.
  destruct (insertStruct rangeOrder escValue3 driver exec db d table row)
    as [[d1 [[id info] [e|]]]|msg]; cbn [bind] in H; try discriminate.
  - now inversion H.
  - destruct (onlyPrimaryKey rangeOrder info); [|discriminate].
    destruct row; try discriminate.
    destruct (SetIntByName fields (name f) id); cbn [bind] in H; discriminate.
Qed.

Lemma insertItem_error_keeps_item d table item d' item' err :
  insertItem rangeOrder escValue3 driver exec db d table item
  = Ret (d', (item', Some err)) ->
  item' = item.
Proof.
  unfold insertItem. intros H.
  destruct item; try (apply insertRow_error_keeps_row in H; exact H).
  destruct target as [row|]; [|discriminate].
  destruct (insertRow rangeOrder escValue3 driver exec db d table row)
    as [[d1 [row1 [e|]]]|msg] eqn:E; cbn [bind] in H; try discriminate.
  inversion H; subst. apply insertRow_error_keeps_row in E. now subst.
Qed.

(** What [insertItem] does behind a pointer is [insertRow] on the record
    it leads to. *)
Lemma insertItem_pointer d table e target d' item' err :
  insertItem rangeOrder escValue3 driver exec db d table (VPtr e target)
  = Ret (d', (item', err)) ->
  exists row row',
    target = Some row /\ item' = VPtr e (Some row')
    /\ insertRow rangeOrder escValue3 driver exec db d table row
       = Ret (d', (row', err)).
Proof.
  cbn [insertItem]. intros H.
  destruct target as [row|]; [|discriminate].
  destruct (insertRow rangeOrder escValue3 driver exec db d table row)
    as [[d1 [row1 er]]|msg] eqn:E; cbn [bind] in H; [|discriminate].
  inversion H; subst. exists row, row1. repeat split; try reflexivity. exact E.
Qed.


(** [Insert] on a slice of records, passed by value or by reference, is
    the loop over its rows. *)
Lemma Insert_sliceData d table byRef n items :
  Insert rangeOrder escValue3 driver exec db d table
    (sliceData byRef (TStruct n) items) =
  (r <- insertItems rangeOrder escValue3 driver exec db d table items ;;
   let '(d', (items', err)) := r in
   Ret (d', (sliceData byRef (TStruct n) items', err))).
Proof.
  unfold Insert, sliceData.
  destruct byRef;
    cbn [checkData Indirect TypeOf KindOf typ Elem bind Kind_eqb negb held
           sliceItems];
    destruct (insertItems rangeOrder escValue3 driver exec db d table items)
      as [[d' [items' err]]|msg]; reflexivity.
Qed.

(** *** The store of a slice of pointers *)

Lemma nth_error_writeAt_same store : forall a row,
  (a < List.length store)%nat -> nth_error (writeAt store a row) a = Some row.
Proof.
  induction store as [|r store IH]; intros a row H; [cbn in H; lia|].
  destruct a as [|a]; [reflexivity|].
  cbn [writeAt nth_error]. apply IH. cbn in H. lia.
Qed.

Lemma nth_error_writeAt_other store : forall a b row,
  a <> b -> nth_error (writeAt store b row) a = nth_error store a.
Proof.
  induction store as [|r store IH]; intros a b row H; [reflexivity|].
  destruct b as [|b]; destruct a as [|a]; try reflexivity; try congruence.
  cbn [writeAt nth_error]. apply IH. congruence.
Qed.

Lemma writeAt_same store : forall a row,
  nth_error store a = Some row -> writeAt store a row = store.
Proof.
  induction store as [|r store IH]; intros a row H; [reflexivity|].
  destruct a as [|a]; cbn [writeAt nth_error] in *.
  - now inversion H.
  - f_equal. now apply IH.
Qed.

Lemma nth_error_writeBack_other store a b item :
  a <> b -> nth_error (writeBack store b item) a = nth_error store a.
Proof.
  intros H. unfold writeBack. destruct item; try reflexivity.
  destruct target; [now apply nth_error_writeAt_other | reflexivity].
Qed.

Lemma writeBack_pointerTo e store a :
  writeBack store a (pointerTo e store a) = store.
Proof.
  unfold writeBack, pointerTo.
  destruct (nth_error store a) as [row|] eqn:E; [now apply writeAt_same | reflexivity].
Qed.

Lemma insertPointers_app e table l1 : forall d store l2 d1 store1,
  insertPointers rangeOrder escValue3 driver exec e db d table store l1
  = Ret (d1, (store1, None)) ->
  insertPointers rangeOrder escValue3 driver exec e db d table store (l1 ++ l2)
  = insertPointers rangeOrder escValue3 driver exec e db d1 table store1 l2.
Proof.
  induction l1 as [|a l1 IH]; intros d store l2 d1 store1 Hrun.
  - cbn in Hrun. now inversion Hrun.
  - cbn [insertPointers] in Hrun. cbn [app insertPointers].
    destruct (insertItem rangeOrder escValue3 driver exec db d table
                (pointerTo e store a))
      as [[da [item' [er|]]]|msg]; cbn [bind] in Hrun |- *; try discriminate.
    now apply IH.
Qed.

(** The loop writes to the records its pointers lead to and to no other. *)
Lemma insertPointers_frame e table ptrs : forall d store d' store' err a,
  insertPointers rangeOrder escValue3 driver exec e db d table store ptrs
  = Ret (d', (store', err)) ->
  ~ In a ptrs ->
  nth_error store' a = nth_error store a.
Proof.
  induction ptrs as [|b ptrs IH]; intros d store d' store' err a Hrun Hin.
  - cbn in Hrun. now inversion Hrun.
  - cbn [insertPointers] in Hrun.
    assert (Hab : a <> b) by (intros ->; apply Hin; now left).
    destruct (insertItem rangeOrder escValue3 driver exec db d table
                (pointerTo e store b))
      as [[da [item' [er|]]]|msg]; cbn [bind] in Hrun; try discriminate.
    + inversion Hrun; subst. now apply nth_error_writeBack_other.
    + rewrite (IH _ _ _ _ _ a Hrun) by (intros H; apply Hin; now right).
      now apply nth_error_writeBack_other.
Qed.

(** On a slice whose pointers are pairwise distinct, the loop over the
    store does what [insertItems] does on the records held behind the
    pointers: a [value] with its records behind [VPtr] is exact for data
    in which no record is reached twice. *)
Lemma insertItems_insertPointers e table ptrs : forall d store,
  NoDup ptrs ->
  insertItems rangeOrder escValue3 driver exec db d table
    (map (pointerTo e store) ptrs) =
  (r <- insertPointers rangeOrder escValue3 driver exec e db d table store ptrs ;;
   let '(d', (store', err)) := r in
   Ret (d', (map (pointerTo e store') ptrs, err))).
Proof.
  induction ptrs as [|a ptrs IH]; intros d store Hnd; [reflexivity|].
  inversion Hnd as [|? ? Hnotin Hnd']; subst.
  cbn [map insertItems insertPointers].
  destruct (insertItem rangeOrder escValue3 driver exec db d table
              (pointerTo e store a))
    as [[d1 [item' [er|]]]|msg] eqn:Ei; cbn [bind]; [| |reflexivity].
  - apply insertItem_error_keeps_item in Ei. subst item'.
    now rewrite writeBack_pointerTo.
  - assert (Hmap : map (pointerTo e store) ptrs
                   = map (pointerTo e (writeBack store a item')) ptrs).
    { apply map_ext_in. intros b Hb. unfold pointerTo.
      rewrite nth_error_writeBack_other; [reflexivity|].
      intros ->. contradiction. }
    rewrite Hmap, (IH d1 _ Hnd').
    destruct (insertPointers rangeOrder escValue3 driver exec e db d1 table
                (writeBack store a item') ptrs)
      as [[d2 [store2 err2]]|msg] eqn:Ep; cbn [bind]; [|reflexivity].
    do 3 f_equal.
    unfold pointerTo in Ei |- *.
    destruct (insertItem_pointer _ _ _ _ _ _ _ Ei) as [row [row' [Et [Ei' _]]]].
    subst item'. rewrite (insertPointers_frame _ _ _ _ _ _ _ _ a Ep Hnotin).
    cbn [writeBack]. rewrite nth_error_writeAt_same; [reflexivity|].
    apply nth_error_Some. rewrite Et. discriminate.
Qed.

End InsertMore.


(** The same through a slice of records passed by value: every row gets
    the id the driver reports. *)
Example Insert_slice_overwrites_keys :
  Insert insertionOrder escValueSpec nat sampleExec sampleDB 0 "t"
    (VSlice (TStruct "person") (Some [person 7 "ann"; person 0 "bob"]))
  = Ret (2, (VSlice (TStruct "person")
               (Some [person 42 "ann"; person 42 "bob"]), None)).
Proof. vm_compute. reflexivity. Qed.

(** A slice that holds the pointer to one record twice, [[]*person{p, p}]:
    the record is inserted twice, the second time with the id the first
    insert wrote into it. *)
Example InsertPointers_same_pointer_twice :
  InsertPointers insertionOrder escValueSpec nat sampleExec (TStruct "person")
    sampleDB 0 "t" [person 7 "ann"] [0; 0]
  = Ret (2, ([person 42 "ann"], None)).
Proof. vm_compute. reflexivity. Qed.



(** On [person]: the second row of a slice passed by reference, and the
    record behind the second element of a slice of pointers. *)
Example Insert_second_row_of_slice :
  Insert insertionOrder escValueSpec nat sampleExec sampleDB 0 "t"
    (sliceData true (TStruct "person")
       ([person 0 "bob"] ++ person 7 "ann" :: [person 0 "cy"]))
  = Ret (3, (sliceData true (TStruct "person")
               ([person 42 "bob"] ++ person 42 "ann" :: [person 42 "cy"]), None))
  /\ InsertPointers insertionOrder escValueSpec nat sampleExec (TStruct "person")
       sampleDB 0 "t" [person 7 "ann"; person 0 "bob"] ([1] ++ 0 :: [])
     = Ret (2, ([person 42 "ann"; person 42 "bob"], None)).
Proof. split; vm_compute; reflexivity. Qed.

(** ** The scan as a whole *)

(** The examples of section 8 of the spec. *)
Example replaceArgs_scalar :
  replaceArgs sampleDB (runes "SELECT * FROM t WHERE id = #") [VInt Int 5]
  = Ret (runes "SELECT * FROM t WHERE id = ?", [VInt Int 5], None).
Proof. vm_compute. reflexivity. Qed.

Example replaceArgs_slice :
  replaceArgs sampleDB (runes "SELECT * FROM t WHERE id = #") [intSlice [1; 2; 3]%Z]
  = Ret (runes "SELECT * FROM t WHERE id = (?,?,?)",
         [VInt Int 1; VInt Int 2; VInt Int 3], None).
Proof. vm_compute. reflexivity. Qed.

Example replaceArgs_key :
  replaceArgs sampleDB (runes "SELECT * FROM %") [VString "orders"]
  = Ret (runes "SELECT * FROM `orders`", [], None).
Proof. vm_compute. reflexivity. Qed.

Example replaceArgs_numbered :
  replaceArgs numberedDB (runes "a = # AND b IN # AND c = ## #")
    [VBool true; intSlice [7; 8]%Z; VString "x"; VInt Int 9]
  = Ret (runes "a = $1 AND b IN ($2,$3) AND c = # $4",
         [VBool true; VInt Int 7; VInt Int 8; VString "x"; VInt Int 9], None).
Proof. vm_compute. reflexivity. Qed.

Example replaceArgs_too_few :
  replaceArgs sampleDB (runes "a = # AND b = #") [VInt Int 1]
  = Ret ([], [], Some (ErrExpectingArg 2 1)).
Proof. vm_compute. reflexivity. Qed.

Example replaceArgs_nil_element_panics :
  replaceArgs sampleDB (runes "a IN #") [VSlice TInterface (Some [VNil])]
  = Panic "reflect: Zero(nil)".
Proof. vm_compute. reflexivity. Qed.

(** * Further properties of the code *)

(** ** The column map *)

Lemma mapSet_keys_In {A : Type} (m : list (string * A)) k v k' :
  In k' (map fst (mapSet m k v)) -> k' = k \/ In k' (map fst m).
Proof.
  induction m as [|[k0 v0] m IH]; cbn [mapSet map fst In].
  - intros [<- | []]. now left.
  - destruct (String.eqb k0 k) eqn:E; cbn [map fst In].
    + intros [<- | H]; [now left | right; now right].
    + intros [<- | H]; [right; now left |].
      destruct (IH H) as [-> | H']; [now left | right; now right].
Qed.

Lemma mapSet_NoDup {A : Type} (m : list (string * A)) k v :
  NoDup (map fst m) -> NoDup (map fst (mapSet m k v)).
Proof.
  induction m as [|[k0 v0] m IH]; cbn [mapSet map fst]; intros H.
  - constructor; [intros [] | constructor].
  - inversion H as [|? ? Hnot Hrest]; subst.
    destruct (String.eqb k0 k) eqn:E; cbn [map fst].
    + apply String.eqb_eq in E. subst k0. now constructor.
    + constructor; [|now apply IH].
      intros Hin. apply mapSet_keys_In in Hin.
      destruct Hin as [-> | Hin]; [|contradiction].
      now rewrite String.eqb_refl in E.
Qed.

Lemma mapGet_NoDup_In {A : Type} (m : list (string * A)) k v :
  NoDup (map fst m) -> In (k, v) m -> mapGet m k = Some v.
Proof.
  induction m as [|[k0 v0] m IH]; cbn [map fst mapGet]; intros Hnd Hin.
  - destruct Hin.
  - inversion Hnd as [|? ? Hnot Hrest]; subst.
    destruct Hin as [E | Hin].
    + inversion E; subst. now rewrite String.eqb_refl.
    + destruct (String.eqb k0 k) eqn:E.
      * apply String.eqb_eq in E. subst k0.
        exfalso. apply Hnot. apply (in_map fst) in Hin. exact Hin.
      * now apply IH.
Qed.

Lemma getStructInfoLoop_NoDup fields : forall si si',
  NoDup (map fst si) ->
  getStructInfoLoop fields si = Ret si' ->
  NoDup (map fst si').
Proof.
  induction fields as [|field fields IH]; intros si si' Hnd Hrun.
  - cbn in Hrun. inversion Hrun; subst. exact Hnd.
  - cbn [getStructInfoLoop] in Hrun.
    destruct (fieldStep field) as [[info|]|msg]; cbn [bind] in Hrun.
    + eapply IH; [|exact Hrun]. now apply mapSet_NoDup.
    + eapply IH; eassumption.
    + discriminate.
Qed.

(** X1: the struct info holds one descriptor for each column name, and
    that descriptor is filed under its own [dbName]: looking up the key of
    an entry returns that entry. *)
Theorem getStructInfo_one_descriptor_per_column
  (fields : list StructField) (si : structInfo) :
  getStructInfo fields = Ret si ->
  NoDup (map fst si)
  /\ forall k fi, In (k, fi) si -> dbName fi = k /\ mapGet si k = Some fi.
Proof.
  intros Hrun.
  assert (Hnd : NoDup (map fst si)).
  { apply (getStructInfoLoop_NoDup fields [] si); [constructor | exact Hrun]. }
  split; [exact Hnd|].
  intros k fi Hin. split.
  - eapply getStructInfo_keys; eassumption.
  - now apply mapGet_NoDup_In.
Qed.

Lemma getStructInfo_one_descriptor_per_column_witness :
  getStructInfo [int64Field; noteField]
  = Ret [("n", with_emptyValue (newFieldInfo "n" "N") "''");
         ("note", with_emptyValue
                    (with_ptr (with_null (with_omitEmpty
                       (newFieldInfo "note" "Note") true) true) true) "''")]
  /\ (NoDup (map fst [("n", with_emptyValue (newFieldInfo "n" "N") "''");
         ("note", with_emptyValue
                    (with_ptr (with_null (with_omitEmpty
                       (newFieldInfo "note" "Note") true) true) true) "''")])
      /\ forall k fi,
           In (k, fi) [("n", with_emptyValue (newFieldInfo "n" "N") "''");
              ("note", with_emptyValue
                    (with_ptr (with_null (with_omitEmpty
                       (newFieldInfo "note" "Note") true) true) true) "''")] ->
           dbName fi = k
           /\ mapGet [("n", with_emptyValue (newFieldInfo "n" "N") "''");
                ("note", with_emptyValue
                    (with_ptr (with_null (with_omitEmpty
                       (newFieldInfo "note" "Note") true) true) true) "''")] k
              = Some fi).
Proof.
  assert (H : getStructInfo [int64Field; noteField]
              = Ret [("n", with_emptyValue (newFieldInfo "n" "N") "''");
                     ("note", with_emptyValue
                                (with_ptr (with_null (with_omitEmpty
                                   (newFieldInfo "note" "Note") true) true) true) "''")])
    by (vm_compute; reflexivity).
  split; [exact H | exact (getStructInfo_one_descriptor_per_column _ _ H)].
Defined.

Lemma getStructInfoLoop_unexported fields f : forall si,
  In f fields -> dbTag f <> "" -> PkgPath f <> "" ->
  exists msg, getStructInfoLoop fields si = Panic msg.
Proof.
  induction fields as [|g fields IH]; intros si Hin Ht Hp; [destruct Hin|].
  cbn [getStructInfoLoop].
  destruct (fieldStep g) as [[info|]|msg] eqn:Eg; cbn [bind]; [ | | eauto].
  - destruct Hin as [-> | Hin]; [|now apply IH].
    unfold fieldStep in Eg.
    apply String.eqb_neq in Ht, Hp. rewrite Ht, Hp in Eg. discriminate.
  - destruct Hin as [-> | Hin]; [|now apply IH].
    unfold fieldStep in Eg.
    apply String.eqb_neq in Ht, Hp. rewrite Ht, Hp in Eg. discriminate.
Qed.

(** X2: a struct type with an unexported field that carries a non-empty
    [db] tag makes [getStructInfo] panic, also when the tag is ["-"]: the
    test for the unexported field comes before the test for ["-"]. *)
Theorem getStructInfo_unexported_tagged_panics
  (fields : list StructField) (f : StructField) :
  In f fields -> dbTag f <> "" -> PkgPath f <> "" ->
  exists msg, getStructInfo fields = Panic msg.
Proof. intros. eapply getStructInfoLoop_unexported; eassumption. Qed.

Lemma getStructInfo_unexported_tagged_panics_witness :
  In hiddenField [int64Field; hiddenField]
  /\ dbTag hiddenField <> ""
  /\ PkgPath hiddenField <> ""
  /\ exists msg, getStructInfo [int64Field; hiddenField] = Panic msg.
Proof.
  assert (H1 : In hiddenField [int64Field; hiddenField]) by (right; left; reflexivity).
  assert (H2 : dbTag hiddenField <> "") by (vm_compute; discriminate).
  assert (H3 : PkgPath hiddenField <> "") by (vm_compute; discriminate).
  repeat (split; [assumption|]).
  exact (getStructInfo_unexported_tagged_panics _ _ H1 H2 H3).
Defined.

Lemma getStructInfoLoop_app l1 l2 : forall si,
  getStructInfoLoop (l1 ++ l2) si =
  (si1 <- getStructInfoLoop l1 si ;; getStructInfoLoop l2 si1).
Proof.
  induction l1 as [|f l1 IH]; intros si; [reflexivity|].
  cbn [app getStructInfoLoop].
  destruct (fieldStep f) as [[info|]|msg]; cbn [bind]; auto.
Qed.

Lemma getStructInfoLoop_keeps fields k info : forall si si',
  (forall g info', In g fields -> fieldStep g = Ret (Some info') ->
                   dbName info' <> k) ->
  mapGet si k = Some info ->
  getStructInfoLoop fields si = Ret si' ->
  mapGet si' k = Some info.
Proof.
  induction fields as [|g fields IH]; intros si si' Hother Hget Hrun.
  - cbn in Hrun. inversion Hrun; subst. exact Hget.
  - cbn [getStructInfoLoop] in Hrun.
    destruct (fieldStep g) as [[info'|]|msg] eqn:Eg; cbn [bind] in Hrun;
      [ | | discriminate].
    + eapply IH; [ | | exact Hrun].
      * intros g' i' Hin. apply Hother. now right.
      * rewrite mapGet_mapSet_other; [exact Hget|].
        apply (Hother g info'); [now left | exact Eg].
    + eapply IH; [ | exact Hget | exact Hrun].
      intros g' i' Hin. apply Hother. now right.
Qed.

(** X3: when several fields name the same column, the descriptor the
    struct info holds for it is the one of the field declared last: a field
    that no later field shadows is the one found under its column. *)
Theorem getStructInfo_last_field_wins
  (before after : list StructField) (f : StructField) (info : fieldInfo)
  (si : structInfo) :
  fieldStep f = Ret (Some info) ->
  (forall g info', In g after -> fieldStep g = Ret (Some info') ->
                   dbName info' <> dbName info) ->
  getStructInfo (before ++ f :: after) = Ret si ->
  mapGet si (dbName info) = Some info.
Proof.
  intros Hf Hother Hrun. unfold getStructInfo in Hrun.
  rewrite getStructInfoLoop_app in Hrun.
  destruct (getStructInfoLoop before []) as [si1|msg]; cbn [bind] in Hrun;
    [|discriminate].
  cbn [getStructInfoLoop] in Hrun. rewrite Hf in Hrun. cbn [bind] in Hrun.
  eapply getStructInfoLoop_keeps; [exact Hother | | exact Hrun].
  apply mapGet_mapSet_same.
Qed.

Lemma getStructInfo_last_field_wins_witness :
  fieldStep int64Field = Ret (Some (with_emptyValue (newFieldInfo "n" "N") "''"))
  /\ (forall g info', In g [noteField] -> fieldStep g = Ret (Some info') ->
        dbName info' <> dbName (with_emptyValue (newFieldInfo "n" "N") "''"))
  /\ getStructInfo ([shadowedField] ++ int64Field :: [noteField])
     = Ret [("n", with_emptyValue (newFieldInfo "n" "N") "''");
            ("note", with_emptyValue
                       (with_ptr (with_null (with_omitEmpty
                          (newFieldInfo "note" "Note") true) true) true) "''")]
  /\ mapGet [("n", with_emptyValue (newFieldInfo "n" "N") "''");
             ("note", with_emptyValue
                        (with_ptr (with_null (with_omitEmpty
                           (newFieldInfo "note" "Note") true) true) true) "''")]
       (dbName (with_emptyValue (newFieldInfo "n" "N") "''"))
     = Some (with_emptyValue (newFieldInfo "n" "N") "''").
Proof.
  assert (H1 : fieldStep int64Field
               = Ret (Some (with_emptyValue (newFieldInfo "n" "N") "''")))
    by (vm_compute; reflexivity).
  assert (H2 : forall g info', In g [noteField] ->
               fieldStep g = Ret (Some info') ->
               dbName info' <> dbName (with_emptyValue (newFieldInfo "n" "N") "''")).
  { intros g info' [<- | []] E. vm_compute in E. inversion E; subst.
    vm_compute. discriminate. }
  assert (H3 : getStructInfo ([shadowedField] ++ int64Field :: [noteField])
               = Ret [("n", with_emptyValue (newFieldInfo "n" "N") "''");
                      ("note", with_emptyValue
                                 (with_ptr (with_null (with_omitEmpty
                                    (newFieldInfo "note" "Note") true) true) true) "''")])
    by (vm_compute; reflexivity).
  repeat (split; [assumption|]).
  exact (getStructInfo_last_field_wins _ _ _ _ _ H1 H2 H3).
Defined.

(** ** The modifiers of a tag *)

Lemma fold_modifier_flags ps : forall info,
  primaryKey (fold_left modifier ps info)
  = primaryKey info || existsb (String.eqb "pk") ps
  /\ omitEmpty (fold_left modifier ps info)
     = omitEmpty info || existsb (String.eqb "omitempty") ps
  /\ null (fold_left modifier ps info)
     = null info || existsb (String.eqb "null") ps
  /\ notNull (fold_left modifier ps info)
     = notNull info || existsb (String.eqb "notnull") ps.
Proof.
  induction ps as [|p ps IH]; intros info; cbn [fold_left existsb].
  - now rewrite !orb_false_r.
  - destruct (IH (modifier info p)) as [H1 [H2 [H3 H4]]].
    rewrite H1, H2, H3, H4. unfold modifier.
    rewrite (String.eqb_sym "pk" p), (String.eqb_sym "omitempty" p),
      (String.eqb_sym "null" p), (String.eqb_sym "notnull" p).
    destruct (String.eqb p "pk") eqn:E1.
    { apply String.eqb_eq in E1. subst p. cbn.
      rewrite ?orb_true_r. repeat split; reflexivity. }
    destruct (String.eqb p "omitempty") eqn:E2.
    { apply String.eqb_eq in E2. subst p. cbn.
      rewrite ?orb_true_r. repeat split; reflexivity. }
    destruct (String.eqb p "null") eqn:E3.
    { apply String.eqb_eq in E3. subst p. cbn.
      rewrite ?orb_true_r. repeat split; reflexivity. }
    destruct (String.eqb p "notnull") eqn:E4.
    { apply String.eqb_eq in E4. subst p. cbn.
      rewrite ?orb_true_r. repeat split; reflexivity. }
    cbn. repeat split; reflexivity.
Qed.

Lemma existsb_eqb_In (s : string) (ps : list string) :
  existsb (String.eqb s) ps = true <-> In s ps.
Proof.
  rewrite existsb_exists. split.
  - intros [x [Hin E]]. apply String.eqb_eq in E. now subst.
  - intros H. exists s. split; [exact H | apply String.eqb_refl].
Qed.

(** X4: the four flags of a descriptor are read off the tokens behind the
    first comma of the tag: a flag is set exactly when its keyword
    ([pk], [omitempty], [null], [notnull]) is one of them, in any position
    and whatever other tokens there are; the first token, the column name,
    sets no flag. *)
Theorem fieldStep_flags (field : StructField) (info : fieldInfo) :
  fieldStep field = Ret (Some info) ->
  (primaryKey info = true <-> In "pk" (tl (Split (dbTag field) ",")))
  /\ (omitEmpty info = true <-> In "omitempty" (tl (Split (dbTag field) ",")))
  /\ (null info = true <-> In "null" (tl (Split (dbTag field) ",")))
  /\ (notNull info = true <-> In "notnull" (tl (Split (dbTag field) ","))).
Proof.
  intros Hs. rewrite (fieldStep_some _ _ Hs).
  assert (Hfix : forall i, primaryKey (fixEmptyValue i) = primaryKey i
                           /\ omitEmpty (fixEmptyValue i) = omitEmpty i
                           /\ null (fixEmptyValue i) = null i
                           /\ notNull (fixEmptyValue i) = notNull i).
  { intros i. unfold fixEmptyValue. destruct (_ && _); repeat split; reflexivity. }
  destruct (Hfix (taggedInfo field)) as [F1 [F2 [F3 F4]]].
  rewrite F1, F2, F3, F4. unfold taggedInfo, modifiers.
  set (start := defaultDbName _ _).
  destruct (fold_modifier_flags (tl (Split (dbTag field) ",")) start)
    as [H1 [H2 [H3 H4]]].
  rewrite H1, H2, H3, H4.
  assert (Hs0 : primaryKey start = false /\ omitEmpty start = false
                /\ null start = false /\ notNull start = false).
  { unfold start, defaultDbName.
    destruct (String.eqb _ _); destruct (KindOf (Type_ field));
      repeat split; reflexivity. }
  destruct Hs0 as [S1 [S2 [S3 S4]]]. rewrite S1, S2, S3, S4. cbn [orb].
  repeat split; apply existsb_eqb_In.
Qed.

Lemma fieldStep_flags_witness :
  fieldStep noteField
  = Ret (Some (with_emptyValue
                 (with_ptr (with_null (with_omitEmpty
                    (newFieldInfo "note" "Note") true) true) true) "''"))
  /\ ((primaryKey (with_emptyValue
                    (with_ptr (with_null (with_omitEmpty
                       (newFieldInfo "note" "Note") true) true) true) "''") = true
       <-> In "pk" (tl (Split (dbTag noteField) ",")))
      /\ (omitEmpty (with_emptyValue
                    (with_ptr (with_null (with_omitEmpty
                       (newFieldInfo "note" "Note") true) true) true) "''") = true
          <-> In "omitempty" (tl (Split (dbTag noteField) ",")))
      /\ (null (with_emptyValue
                    (with_ptr (with_null (with_omitEmpty
                       (newFieldInfo "note" "Note") true) true) true) "''") = true
          <-> In "null" (tl (Split (dbTag noteField) ",")))
      /\ (notNull (with_emptyValue
                    (with_ptr (with_null (with_omitEmpty
                       (newFieldInfo "note" "Note") true) true) true) "''") = true
          <-> In "notnull" (tl (Split (dbTag noteField) ",")))).
Proof.
  assert (H : fieldStep noteField
              = Ret (Some (with_emptyValue
                             (with_ptr (with_null (with_omitEmpty
                                (newFieldInfo "note" "Note") true) true) true) "''")))
    by (vm_compute; reflexivity).
  split; [exact H | exact (fieldStep_flags _ _ H)].
Defined.

(** ** The only primary key *)

Lemma onlyPrimaryKeyLoop_found entries : forall x,
  onlyPrimaryKeyLoop entries (Some x) =
  match filter (fun e => primaryKey (snd e)) entries with
  | [] => Some x
  | _ => None
  end.
Proof.
  induction entries as [|[k i] entries IH]; intros x; cbn [onlyPrimaryKeyLoop filter snd].
  - reflexivity.
  - destruct (primaryKey i); [reflexivity | apply IH].
Qed.

Lemma onlyPrimaryKeyLoop_filter entries :
  onlyPrimaryKeyLoop entries None =
  match filter (fun e => primaryKey (snd e)) entries with
  | [(_, pk)] => Some pk
  | _ => None
  end.
Proof.
  induction entries as [|[k i] entries IH]; cbn [onlyPrimaryKeyLoop filter snd].
  - reflexivity.
  - destruct (primaryKey i); [|exact IH].
    rewrite onlyPrimaryKeyLoop_found.
    now destruct (filter _ entries).
Qed.

(** X5: [onlyPrimaryKey] returns a descriptor exactly when one entry of the
    struct info is a primary key, and then that entry; with none, or with
    two or more, it returns nil. *)
Theorem onlyPrimaryKey_exactly_one
  (rangeOrder : forall A : Type, list (string * A) -> list (string * A))
  (si : structInfo) :
  onlyPrimaryKey rangeOrder si =
  match filter (fun e => primaryKey (snd e)) (rangeOrder fieldInfo si) with
  | [(_, pk)] => Some pk
  | _ => None
  end.
Proof. unfold onlyPrimaryKey. apply onlyPrimaryKeyLoop_filter. Qed.

Lemma Permutation_filter_keys {A : Type} (f : A -> bool) (l l' : list A) :
  Permutation l l' -> Permutation (filter f l) (filter f l').
Proof.
  induction 1 as [ | x l l' _ IH | x y l | l l' l'' _ IH1 _ IH2 ]; cbn [filter].
  - constructor.
  - destruct (f x); [now constructor | exact IH].
  - destruct (f x), (f y); try apply Permutation_refl. apply perm_swap.
  - eapply Permutation_trans; eassumption.
Qed.

Lemma single_key_Permutation (l l' : list (string * fieldInfo)) :
  Permutation l l' ->
  match l with [(_, pk)] => Some pk | _ => None end
  = match l' with [(_, pk)] => Some pk | _ => None end.
Proof.
  intros H. destruct l as [|a [|b l]].
  - apply Permutation_nil in H. now subst.
  - apply Permutation_length_1_inv in H. now subst.
  - apply Permutation_length in H. cbn [List.length] in H.
    destruct a. destruct l' as [|a' [|b' l']]; try discriminate H.
    now destruct a'.
Qed.

(** X6: the result of [onlyPrimaryKey] does not depend on the order in
    which [range] visits the map: two orders that visit the same entries
    give the same descriptor, or both nil. *)
Theorem onlyPrimaryKey_order_independent
  (order1 order2 : forall A : Type, list (string * A) -> list (string * A))
  (si : structInfo) :
  Permutation (order1 fieldInfo si) (order2 fieldInfo si) ->
  onlyPrimaryKey order1 si = onlyPrimaryKey order2 si.
Proof.
  intros H. unfold onlyPrimaryKey. rewrite !onlyPrimaryKeyLoop_filter.
  apply single_key_Permutation. now apply Permutation_filter_keys.
Qed.

Lemma onlyPrimaryKey_order_independent_witness :
  Permutation (insertionOrder fieldInfo personInfo) (reverseOrder fieldInfo personInfo)
  /\ onlyPrimaryKey insertionOrder personInfo = onlyPrimaryKey reverseOrder personInfo.
Proof.
  assert (H : Permutation (insertionOrder fieldInfo personInfo)
                (reverseOrder fieldInfo personInfo))
    by (unfold insertionOrder, reverseOrder; apply Permutation_rev).
  split; [exact H | exact (onlyPrimaryKey_order_independent _ _ _ H)].
Defined.

(** ** NullTime *)

(** X7: [Scan] succeeds on nil and on a [time.Time], and then [Valid] is
    true exactly when [Time] is not nil; on every other value it returns
    an error about that value and leaves the receiver as it was. *)
Theorem Scan_valid_iff_time (ni : NullTime) (v : value) :
  (snd (Scan ni v) = None
   /\ (v = VNil \/ exists w e l, v = VTime w e l)
   /\ (Valid (fst (Scan ni v)) = true <-> Time_ (fst (Scan ni v)) <> None))
  \/ (snd (Scan ni v) = Some v
      /\ v <> VNil /\ (forall w e l, v <> VTime w e l)
      /\ fst (Scan ni v) = ni).
Proof.
  destruct v;
    try (right; cbn; repeat split; [discriminate | intros; discriminate]).
  - left. cbn. split; [reflexivity|]. split; [now left|].
    split; [discriminate | intros H; now contradiction H].
  - left. cbn. split; [reflexivity|]. split; [right; eauto|].
    split; [discriminate | reflexivity].
Qed.

(** ** More on placeholder substitution *)

Section ReplaceArgsMore.

Variable db : DB.
Variable args : list value.

(** A sigil that is not followed by itself leaves the first two tests of
    the loop. *)
Lemma replaceLoop_sigil_step c rest st :
  c = PlaceholderKey db \/ c = PlaceholderValue db ->
  hd 0%Z rest <> c ->
  replaceLoop db args (c :: rest) st =
  match nth_error args (nthArg st) with
  | None => Ret (failWith (ErrExpectingArg (nthArg st + 1) (List.length args)))
  | Some arg =>
      if (c =? PlaceholderKey db)%Z then
        match arg with
        | VPtr (TScalar String_) target =>
            match target with
            | Some (VString v) =>
                replaceLoop db args rest (WriteString (consume st) (Esc db v))
            | _ => Panic "invalid memory address or nil pointer dereference"
            end
        | VString v =>
            replaceLoop db args rest (WriteString (consume st) (Esc db v))
        | _ => Ret (failWith (ErrKeyType c arg))
        end
      else if IsValue arg then
        replaceLoop db args rest (bindParam db (consume st) arg)
      else if IsValid arg && hasKind arg Slice && negb (IsValue arg) then
        if (List.length (sliceItems arg) =? 0)%nat then Ret (failWith ErrEmptySlice)
        else
          st' <- expandItems db (itemInfo (elemIsPtr arg)) (sliceItems arg) 0
                   (WriteRune (consume st) 40%Z) ;;
          replaceLoop db args rest (WriteRune st' 41%Z)
      else replaceLoop db args rest (bindParam db (consume st) arg)
  end.
Proof.
  intros Hc Hn. cbn [replaceLoop].
  assert (H1 : negb (c =? PlaceholderKey db)%Z && negb (c =? PlaceholderValue db)%Z
               = false).
  { destruct Hc as [-> | ->]; rewrite Z.eqb_refl; cbn [negb andb];
      [reflexivity | apply andb_false_r]. }
  assert (H2 : ((c =? PlaceholderValue db)%Z && (hd 0%Z rest =? PlaceholderValue db)%Z)
               || ((c =? PlaceholderKey db)%Z && (hd 0%Z rest =? PlaceholderKey db)%Z)
               = false).
  { apply orb_false_iff. split; apply andb_false_iff.
    - destruct (c =? PlaceholderValue db)%Z eqn:E; [right | now left].
      apply Z.eqb_eq in E. apply Z.eqb_neq. congruence.
    - destruct (c =? PlaceholderKey db)%Z eqn:E; [right | now left].
      apply Z.eqb_eq in E. apply Z.eqb_neq. congruence. }
  rewrite H1, H2. reflexivity.
Qed.

Lemma replaceLoop_error_bounded n : forall rs st sql ps e,
  (List.length rs <= n)%nat ->
  replaceLoop db args rs st = Ret (sql, ps, Some e) ->
  sql = [] /\ ps = [].
Proof.
  induction n as [|n IH]; intros rs st sql ps e Hlen Hrun.
  - destruct rs; [|cbn in Hlen; lia]. cbn in Hrun. discriminate.
  - destruct rs as [|r rest]; [cbn in Hrun; discriminate|].
    cbn [List.length] in Hlen.
    assert (Hrest : (List.length rest <= n)%nat) by lia.
    cbn [replaceLoop] in Hrun.
    destruct (negb (r =? PlaceholderKey db)%Z && negb (r =? PlaceholderValue db)%Z).
    { now apply (IH rest _ _ _ _ Hrest Hrun). }
    destruct (((r =? PlaceholderValue db)%Z && (hd 0%Z rest =? PlaceholderValue db)%Z)
              || ((r =? PlaceholderKey db)%Z && (hd 0%Z rest =? PlaceholderKey db)%Z)).
    { destruct rest as [|r' rest']; [discriminate|].
      eapply (IH rest'); [cbn [List.length] in Hrest; lia | exact Hrun]. }
    destruct (nth_error args (nthArg st)) as [arg|];
      [|inversion Hrun; now split].
    destruct (r =? PlaceholderKey db)%Z.
    { destruct arg as [ | | | | v | | t target | | | ];
        try (inversion Hrun; now split).
      - now apply (IH rest _ _ _ _ Hrest Hrun).
      - destruct t as [k| | | | | ]; try (inversion Hrun; now split).
        destruct k; try (inversion Hrun; now split).
        destruct target as [[ | | | | v | | | | | ]|]; try discriminate.
        now apply (IH rest _ _ _ _ Hrest Hrun). }
    destruct (IsValue arg).
    { now apply (IH rest _ _ _ _ Hrest Hrun). }
    destruct (IsValid arg && hasKind arg Slice && negb false).
    { destruct (List.length (sliceItems arg) =? 0)%nat;
        [inversion Hrun; now split|].
      destruct (expandItems db (itemInfo (elemIsPtr arg)) (sliceItems arg) 0
                  (WriteRune (consume st) 40%Z)) as [st'|msg];
        cbn [bind] in Hrun; [|discriminate].
      now apply (IH rest _ _ _ _ Hrest Hrun). }
    now apply (IH rest _ _ _ _ Hrest Hrun).
Qed.

End ReplaceArgsMore.

(** X8: when a sigil that is not doubled is reached and no argument is
    left for it, the call returns the error that names the ordinal of the
    missing argument and the number of arguments given, with the empty
    string and no parameters. *)
Theorem replaceLoop_too_few_arguments (db : DB) (args : list value) (c : rune)
  (rest : text) (st : scan) :
  c = PlaceholderKey db \/ c = PlaceholderValue db ->
  hd 0%Z rest <> c ->
  (List.length args <= nthArg st)%nat ->
  replaceLoop db args (c :: rest) st
  = Ret ([], [], Some (ErrExpectingArg (nthArg st + 1) (List.length args))).
Proof.
  intros Hc Hn Hlen.
  rewrite (replaceLoop_sigil_step db args c rest st Hc Hn).
  apply nth_error_None in Hlen. rewrite Hlen. reflexivity.
Qed.

Lemma replaceLoop_too_few_arguments_witness :
  (35%Z = PlaceholderKey sampleDB \/ 35%Z = PlaceholderValue sampleDB)
  /\ hd 0%Z (runes " x") <> 35%Z
  /\ (List.length [VInt Int 1] <= nthArg {| sb := runes "a = ? AND b = ";
                                             newArgs := [VInt Int 1];
                                             nthArg := 1 |})%nat
  /\ replaceLoop sampleDB [VInt Int 1] (35%Z :: runes " x")
       {| sb := runes "a = ? AND b = "; newArgs := [VInt Int 1]; nthArg := 1 |}
     = Ret ([], [], Some (ErrExpectingArg (1 + 1) (List.length [VInt Int 1]))).
Proof.
  assert (H1 : 35%Z = PlaceholderKey sampleDB \/ 35%Z = PlaceholderValue sampleDB)
    by (right; reflexivity).
  assert (H2 : hd 0%Z (runes " x") <> 35%Z) by (vm_compute; discriminate).
  assert (H3 : (List.length [VInt Int 1]
                <= nthArg {| sb := runes "a = ? AND b = ";
                             newArgs := [VInt Int 1]; nthArg := 1 |})%nat)
    by (cbn; lia).
  repeat (split; [assumption|]).
  exact (replaceLoop_too_few_arguments sampleDB _ _ _ _ H1 H2 H3).
Defined.

(** X9: whenever [replaceArgs] returns an error, the SQL text it returns
    is empty and the parameter list is nil: no partly built statement
    leaves the function. *)
Theorem replaceArgs_error_returns_nothing (db : DB) (sqlS : text)
  (args : list value) (sql : text) (ps : list value) (e : error) :
  replaceArgs db sqlS args = Ret (sql, ps, Some e) ->
  sql = [] /\ ps = [].
Proof.
  unfold replaceArgs. apply (replaceLoop_error_bounded db args (List.length sqlS)).
  lia.
Qed.

Lemma replaceArgs_error_returns_nothing_witness :
  replaceArgs sampleDB (runes "a = # AND t = %") [VInt Int 1; VInt Int 2]
  = Ret ([], [], Some (ErrKeyType 37%Z (VInt Int 2)))
  /\ ([] : text) = [] /\ ([] : list value) = [].
Proof.
  assert (H : replaceArgs sampleDB (runes "a = # AND t = %") [VInt Int 1; VInt Int 2]
              = Ret ([], [], Some (ErrKeyType 37%Z (VInt Int 2))))
    by (vm_compute; reflexivity).
  split; [exact H | exact (replaceArgs_error_returns_nothing _ _ _ _ _ _ H)].
Defined.

(** X10: at a key sigil that is not doubled, a string argument, or a
    pointer to one, is escaped with [Esc] and written into the text; one
    argument is consumed and no parameter is added. Whatever the call
    then returns without error holds the escaped name at that position,
    and when no sigil follows, the call returns the text built before, the
    escaped name and the rest of the template, with the arguments behind
    the consumed one appended to the parameters. *)
Theorem replaceLoop_key_splices_name (db : DB) (args : list value) (c : rune)
  (rest : text) (st : scan) (arg : value) (s : string) :
  c = PlaceholderKey db ->
  hd 0%Z rest <> c ->
  nth_error args (nthArg st) = Some arg ->
  arg = VString s \/ arg = VPtr (TScalar String_) (Some (VString s)) ->
  replaceLoop db args (c :: rest) st =
  replaceLoop db args rest
    {| sb := sb st ++ Esc db s; newArgs := newArgs st; nthArg := S (nthArg st) |}
  /\ (forall sql ps,
        replaceLoop db args (c :: rest) st = Ret (sql, ps, None) ->
        exists moreText moreParams,
          sql = sb st ++ Esc db s ++ moreText /\ ps = newArgs st ++ moreParams)
  /\ (Forall (plain db) rest ->
      replaceLoop db args (c :: rest) st
      = Ret (sb st ++ Esc db s ++ rest,
             newArgs st ++ skipn (S (nthArg st)) args, None)).
Proof.
  intros Hc Hn Harg Hs.
  assert (E : replaceLoop db args (c :: rest) st =
              replaceLoop db args rest
                {| sb := sb st ++ Esc db s; newArgs := newArgs st;
                   nthArg := S (nthArg st) |}).
  { rewrite (replaceLoop_sigil_step db args c rest st (or_introl Hc) Hn).
    rewrite Harg, Hc, Z.eqb_refl.
    destruct Hs as [-> | ->]; reflexivity. }
  destruct (replaceLoop_resumes db args _ _ _ _ E) as [Hret Hplain].
  split; [exact E|]. split.
  - intros sql ps Hrun.
    destruct (Hret sql ps Hrun) as [t [q [Ht Hq]]]. cbn [sb newArgs] in Ht, Hq.
    exists t, q. rewrite Ht, Hq, <- app_assoc. split; reflexivity.
  - intros Hp. rewrite (Hplain Hp). cbn [sb newArgs nthArg].
    now rewrite <- app_assoc.
Qed.

Lemma replaceLoop_key_splices_name_witness :
  37%Z = PlaceholderKey sampleDB
  /\ hd 0%Z (runes " x") <> 37%Z
  /\ nth_error [VString "orders"] 0 = Some (VString "orders")
  /\ (VString "orders" = VString "orders"
      \/ VString "orders" = VPtr (TScalar String_) (Some (VString "orders")))
  /\ replaceLoop sampleDB [VString "orders"] (37%Z :: runes " x")
       {| sb := runes "FROM "; newArgs := []; nthArg := 0 |}
     = replaceLoop sampleDB [VString "orders"] (runes " x")
         {| sb := runes "FROM " ++ Esc sampleDB "orders"; newArgs := [];
            nthArg := 1 |}
  /\ (forall sql ps,
        replaceLoop sampleDB [VString "orders"] (37%Z :: runes " x")
          {| sb := runes "FROM "; newArgs := []; nthArg := 0 |}
        = Ret (sql, ps, None) ->
        exists moreText moreParams,
          sql = runes "FROM " ++ Esc sampleDB "orders" ++ moreText
          /\ ps = [] ++ moreParams)
  /\ (Forall (plain sampleDB) (runes " x") ->
      replaceLoop sampleDB [VString "orders"] (37%Z :: runes " x")
        {| sb := runes "FROM "; newArgs := []; nthArg := 0 |}
      = Ret (runes "FROM " ++ Esc sampleDB "orders" ++ runes " x",
             [] ++ skipn 1 [VString "orders"], None)).
Proof.
  assert (H1 : 37%Z = PlaceholderKey sampleDB) by reflexivity.
  assert (H2 : hd 0%Z (runes " x") <> 37%Z) by (vm_compute; discriminate).
  assert (H3 : nth_error [VString "orders"] 0 = Some (VString "orders"))
    by reflexivity.
  assert (H4 : VString "orders" = VString "orders"
               \/ VString "orders" = VPtr (TScalar String_) (Some (VString "orders")))
    by (left; reflexivity).
  repeat (split; [assumption|]).
  exact (replaceLoop_key_splices_name sampleDB _ _ _
           {| sb := runes "FROM "; newArgs := []; nthArg := 0 |} _ _
           H1 H2 H3 H4).
Defined.

(** X11: at a key sigil that is not doubled, an argument that is neither a
    string nor a pointer to a string ends the call with the type error for
    that sigil and that argument. *)
Theorem replaceLoop_key_type_error (db : DB) (args : list value) (c : rune)
  (rest : text) (st : scan) (arg : value) :
  c = PlaceholderKey db ->
  hd 0%Z rest <> c ->
  nth_error args (nthArg st) = Some arg ->
  (forall s, arg <> VString s) ->
  (forall target, arg <> VPtr (TScalar String_) target) ->
  replaceLoop db args (c :: rest) st = Ret ([], [], Some (ErrKeyType c arg)).
Proof.
  intros Hc Hn Harg Hs Hp.
  rewrite (replaceLoop_sigil_step db args c rest st (or_introl Hc) Hn).
  rewrite Harg, Hc, Z.eqb_refl.
  destruct arg as [ | | | | v | | t target | | | ]; try reflexivity.
  - now contradiction (Hs v).
  - destruct t as [k| | | | | ]; try reflexivity.
    destruct k; try reflexivity.
    now contradiction (Hp target).
Qed.

Lemma replaceLoop_key_type_error_witness :
  37%Z = PlaceholderKey sampleDB
  /\ hd 0%Z (runes " x") <> 37%Z
  /\ nth_error [VInt Int 5] 0 = Some (VInt Int 5)
  /\ (forall s, VInt Int 5 <> VString s)
  /\ (forall target, VInt Int 5 <> VPtr (TScalar String_) target)
  /\ replaceLoop sampleDB [VInt Int 5] (37%Z :: runes " x")
       {| sb := runes "FROM "; newArgs := []; nthArg := 0 |}
     = Ret ([], [], Some (ErrKeyType 37%Z (VInt Int 5))).
Proof.
  assert (H1 : 37%Z = PlaceholderKey sampleDB) by reflexivity.
  assert (H2 : hd 0%Z (runes " x") <> 37%Z) by (vm_compute; discriminate).
  assert (H3 : nth_error [VInt Int 5] 0 = Some (VInt Int 5)) by reflexivity.
  assert (H4 : forall s, VInt Int 5 <> VString s) by (intros s; discriminate).
  assert (H5 : forall target, VInt Int 5 <> VPtr (TScalar String_) target)
    by (intros t; discriminate).
  repeat (split; [assumption|]).
  exact (replaceLoop_key_type_error sampleDB _ _ _
           {| sb := runes "FROM "; newArgs := []; nthArg := 0 |} _
           H1 H2 H3 H4 H5).
Defined.

(** X12: at a value sigil that is not doubled, an argument that the driver
    takes as a value (nil and [[]byte] among them) or that is not of slice
    kind (an array, a struct, a pointer) is bound unchanged as one
    parameter, and the mark written for it carries the position of that
    parameter in the output list. Whatever the call then returns without
    error holds that mark and that parameter at that position, and when no
    sigil follows, the call returns the text built before, the mark and
    the rest of the template, with the parameter and the arguments behind
    it appended to the parameters. *)
Theorem replaceLoop_value_binds_one (db : DB) (args : list value) (c : rune)
  (rest : text) (st : scan) (arg : value) :
  c = PlaceholderValue db ->
  c <> PlaceholderKey db ->
  hd 0%Z rest <> c ->
  nth_error args (nthArg st) = Some arg ->
  IsValue arg = true \/ hasKind arg Slice = false ->
  replaceLoop db args (c :: rest) st =
  replaceLoop db args rest
    {| sb := sb st ++ placeholderMark db (S (List.length (newArgs st)));
       newArgs := newArgs st ++ [arg];
       nthArg := S (nthArg st) |}
  /\ (forall sql ps,
        replaceLoop db args (c :: rest) st = Ret (sql, ps, None) ->
        exists moreText moreParams,
          sql = sb st ++ placeholderMark db (S (List.length (newArgs st)))
                  ++ moreText
          /\ ps = newArgs st ++ [arg] ++ moreParams)
  /\ (Forall (plain db) rest ->
      replaceLoop db args (c :: rest) st
      = Ret (sb st ++ placeholderMark db (S (List.length (newArgs st))) ++ rest,
             newArgs st ++ [arg] ++ skipn (S (nthArg st)) args, None)).
Proof.
  intros Hv Hk Hn Harg Hkind.
  assert (E : replaceLoop db args (c :: rest) st =
              replaceLoop db args rest
                {| sb := sb st ++ placeholderMark db (S (List.length (newArgs st)));
                   newArgs := newArgs st ++ [arg];
                   nthArg := S (nthArg st) |}).
  { rewrite (replaceLoop_value_step db args c rest st arg Hv Hk Hn Harg).
    assert (E : bindParam db (consume st) arg
                = {| sb := sb st ++ placeholderMark db (S (List.length (newArgs st)));
                     newArgs := newArgs st ++ [arg];
                     nthArg := S (nthArg st) |}).
    { unfold bindParam, consume. cbn [sb newArgs nthArg].
      rewrite appendPlaceholder_mark, length_app. cbn [List.length].
      now rewrite Nat.add_1_r. }
    destruct Hkind as [Hd | Hs].
    - rewrite Hd, E. reflexivity.
    - rewrite Hs, andb_false_r. cbn [andb]. rewrite E.
      now destruct (IsValue arg). }
  destruct (replaceLoop_resumes db args _ _ _ _ E) as [Hret Hplain].
  split; [exact E|]. split.
  - intros sql ps Hrun.
    destruct (Hret sql ps Hrun) as [t [q [Ht Hq]]]. cbn [sb newArgs] in Ht, Hq.
    exists t, q. rewrite Ht, Hq, <- !app_assoc. split; reflexivity.
  - intros Hp. rewrite (Hplain Hp). cbn [sb newArgs nthArg].
    now rewrite <- !app_assoc.
Qed.

Lemma replaceLoop_value_binds_one_witness :
  35%Z = PlaceholderValue numberedDB
  /\ 35%Z <> PlaceholderKey numberedDB
  /\ hd 0%Z (runes " x") <> 35%Z
  /\ nth_error [VInt Int 1; intArray [1; 2]%Z] 1 = Some (intArray [1; 2]%Z)
  /\ (IsValue (intArray [1; 2]%Z) = true \/ hasKind (intArray [1; 2]%Z) Slice = false)
  /\ replaceLoop numberedDB [VInt Int 1; intArray [1; 2]%Z] (35%Z :: runes " x")
       {| sb := runes "a = $1 AND b = "; newArgs := [VInt Int 1]; nthArg := 1 |}
     = replaceLoop numberedDB [VInt Int 1; intArray [1; 2]%Z] (runes " x")
         {| sb := runes "a = $1 AND b = "
                    ++ placeholderMark numberedDB (S (List.length [VInt Int 1]));
            newArgs := [VInt Int 1] ++ [intArray [1; 2]%Z];
            nthArg := 2 |}
  /\ (forall sql ps,
        replaceLoop numberedDB [VInt Int 1; intArray [1; 2]%Z] (35%Z :: runes " x")
          {| sb := runes "a = $1 AND b = "; newArgs := [VInt Int 1]; nthArg := 1 |}
        = Ret (sql, ps, None) ->
        exists moreText moreParams,
          sql = runes "a = $1 AND b = "
                  ++ placeholderMark numberedDB (S (List.length [VInt Int 1]))
                  ++ moreText
          /\ ps = [VInt Int 1] ++ [intArray [1; 2]%Z] ++ moreParams)
  /\ (Forall (plain numberedDB) (runes " x") ->
      replaceLoop numberedDB [VInt Int 1; intArray [1; 2]%Z] (35%Z :: runes " x")
        {| sb := runes "a = $1 AND b = "; newArgs := [VInt Int 1]; nthArg := 1 |}
      = Ret (runes "a = $1 AND b = "
               ++ placeholderMark numberedDB (S (List.length [VInt Int 1]))
               ++ runes " x",
             [VInt Int 1] ++ [intArray [1; 2]%Z]
               ++ skipn 2 [VInt Int 1; intArray [1; 2]%Z], None)).
Proof.
  assert (H1 : 35%Z = PlaceholderValue numberedDB) by reflexivity.
  assert (H2 : 35%Z <> PlaceholderKey numberedDB) by (vm_compute; discriminate).
  assert (H3 : hd 0%Z (runes " x") <> 35%Z) by (vm_compute; discriminate).
  assert (H4 : nth_error [VInt Int 1; intArray [1; 2]%Z] 1
               = Some (intArray [1; 2]%Z)) by reflexivity.
  assert (H5 : IsValue (intArray [1; 2]%Z) = true
               \/ hasKind (intArray [1; 2]%Z) Slice = false)
    by (right; reflexivity).
  repeat (split; [assumption|]).
  exact (replaceLoop_value_binds_one numberedDB _ _ _
           {| sb := runes "a = $1 AND b = "; newArgs := [VInt Int 1]; nthArg := 1 |}
           _ H1 H2 H3 H4 H5).
Defined.

Lemma replaceLoop_returns_bounded (db : DB) (args : list value) n :
  Forall (fun arg =>
            (forall target, arg = VPtr (TScalar String_) target ->
                            exists s, target = Some (VString s))
            /\ Forall (fun item => item <> VNil) (sliceItems arg)) args ->
  forall rs st,
    (List.length rs <= n)%nat ->
    exists r, replaceLoop db args rs st = Ret r.
Proof.
  intros Hsafe.
  induction n as [|n IH]; intros rs st Hlen.
  - destruct rs; [|cbn in Hlen; lia]. cbn. eauto.
  - destruct rs as [|r rest]; [cbn; eauto|].
    cbn [List.length] in Hlen.
    assert (Hrest : (List.length rest <= n)%nat) by lia.
    cbn [replaceLoop].
    destruct (negb (r =? PlaceholderKey db)%Z && negb (r =? PlaceholderValue db)%Z).
    { now apply IH. }
    destruct (((r =? PlaceholderValue db)%Z && (hd 0%Z rest =? PlaceholderValue db)%Z)
              || ((r =? PlaceholderKey db)%Z && (hd 0%Z rest =? PlaceholderKey db)%Z)).
    { destruct rest as [|r' rest']; [eauto|].
      apply IH. cbn [List.length] in Hrest. lia. }
    destruct (nth_error args (nthArg st)) as [arg|] eqn:Earg; [|eauto].
    assert (Hin : In arg args) by (eapply nth_error_In; exact Earg).
    rewrite Forall_forall in Hsafe. destruct (Hsafe arg Hin) as [Hptr Hitems].
    destruct (r =? PlaceholderKey db)%Z.
    { destruct arg as [ | | | | v | | t target | | | ]; eauto.
      destruct t as [k| | | | | ]; eauto.
      destruct k; eauto.
      destruct (Hptr target eq_refl) as [s ->]. now apply IH. }
    destruct (IsValue arg); [now apply IH|].
    destruct (IsValid arg && hasKind arg Slice && negb false); [|now apply IH].
    destruct (List.length (sliceItems arg) =? 0)%nat eqn:El; [eauto|].
    assert (Hne : sliceItems arg <> []).
    { intros E. rewrite E in El. discriminate El. }
    destruct (expandItems_first db (itemInfo (elemIsPtr arg)) (sliceItems arg)
                (WriteRune (consume st) 40%Z) Hne) as [params [_ Heq]].
    { intros item Hitem. rewrite Forall_forall in Hitems.
      eexists. apply escValue_itemInfo. now apply Hitems. }
    rewrite Heq. cbn [bind]. now apply IH.
Qed.

(** X13: [replaceArgs] returns, with a result or an error, and does not
    panic, for every template, as long as no argument is a nil [*string]
    and no slice among the arguments holds a nil interface. *)
Theorem replaceArgs_does_not_panic (db : DB) (sqlS : text) (args : list value) :
  Forall (fun arg =>
            (forall target, arg = VPtr (TScalar String_) target ->
                            exists s, target = Some (VString s))
            /\ Forall (fun item => item <> VNil) (sliceItems arg)) args ->
  exists r, replaceArgs db sqlS args = Ret r.
Proof.
  intros H. apply (replaceLoop_returns_bounded db args (List.length sqlS) H).
  lia.
Qed.

Lemma replaceArgs_does_not_panic_witness :
  Forall (fun arg =>
            (forall target, arg = VPtr (TScalar String_) target ->
                            exists s, target = Some (VString s))
            /\ Forall (fun item => item <> VNil) (sliceItems arg))
    [VString "t"; intSlice [1; 2]%Z]
  /\ exists r,
       replaceArgs sampleDB (runes "SELECT * FROM % WHERE id IN #")
         [VString "t"; intSlice [1; 2]%Z] = Ret r.
Proof.
  assert (H : Forall (fun arg =>
                (forall target, arg = VPtr (TScalar String_) target ->
                                exists s, target = Some (VString s))
                /\ Forall (fun item => item <> VNil) (sliceItems arg))
              [VString "t"; intSlice [1; 2]%Z]).
  { constructor; [split; [intros t E; discriminate E | constructor]|].
    constructor; [|constructor].
    split; [intros t E; discriminate E|].
    cbn. constructor; [discriminate|]. constructor; [discriminate|]. constructor. }
  split; [exact H | exact (replaceArgs_does_not_panic _ _ _ H)].
Defined.

(** ** The value policy of util.go *)

(** X14: the one-result [escValue] panics in two cases only: on the nil
    interface, whose zero value cannot be built, and on a zero value of a
    pointer field tagged [notnull]; in every other case it returns nil
    for a zero value of a descriptor that allows NULL and the value itself
    otherwise. *)
Theorem escValue_panics_iff (v : value) (fi : fieldInfo) :
  ((exists msg, escValue v fi = Panic msg)
   <-> v = VNil \/ (deepZero v = true /\ ptr fi = true /\ notNull fi = true))
  /\ (forall r, escValue v fi = Ret r ->
                r = if deepZero v && allowNull fi then VNil else v).
Proof.
  destruct v.
  1: { split.
       - split; [intros _; now left | intros _; cbn; eauto].
       - intros r H. discriminate H. }
  all: unfold escValue, allowNull; cbn [isZero bind];
    match goal with |- context [deepZero ?x] => destruct (deepZero x) eqn:Ez end;
    destruct (ptr fi), (notNull fi), (null fi); cbn [andb];
    (split;
     [ split;
       [ intros [msg H]; try discriminate H; right; auto
       | intros [H | [H1 [H2 H3]]]; try discriminate; eauto ]
     | intros r H; inversion H; reflexivity ]).
Qed.

(** ** More on the shape check *)

(** X15: [checkData] returns without error only for a struct reached
    through a pointer, which it reports as struct mode, and for a slice
    whose element type is a struct or a pointer to a struct: every other
    value that it does not panic on gets the error. *)
Theorem checkData_accepts_only (data : value) (rv : Value) (structMode : bool) :
  checkData data = Ret (rv, structMode, None) ->
  (structMode = true
   /\ KindOf (typ rv) = Struct
   /\ exists e, data = VPtr e (Some (held rv)))
  \/ (structMode = false
      /\ exists e, typ rv = TSlice e
                   /\ (KindOf e = Struct
                       \/ exists ee, e = TPtr ee /\ KindOf ee = Struct)).
Proof.
  unfold checkData.
  destruct (Indirect data) as [v|] eqn:Ei; [|discriminate].
  destruct (KindOf (typ v)) eqn:Ek; try discriminate.
  - destruct (typ v) as [k| | | e | | ] eqn:Et; cbn in Ek;
      try discriminate Ek; cbn [Elem bind]; try discriminate.
    destruct (KindOf e) eqn:Eke; try discriminate.
    + destruct e as [k| | ee | | | ]; cbn in Eke;
        try discriminate Eke; cbn [Elem bind]; try discriminate.
      destruct (Kind_eqb (KindOf ee) Struct) eqn:Es; cbn [negb]; [|discriminate].
      intros H. inversion H; subst. right. split; [reflexivity|].
      exists (TPtr ee). rewrite Et. split; [reflexivity|]. right.
      exists ee. split; [reflexivity | now apply Kind_eqb_eq].
    + intros H. inversion H; subst. right. split; [reflexivity|].
      exists e. rewrite Et. split; [reflexivity | now left].
  - destruct (CanAddr v) eqn:Ea; cbn [negb]; [|discriminate].
    intros H. inversion H; subst. left. split; [reflexivity|].
    split; [exact Ek|].
    unfold Indirect in Ei.
    destruct data as [ | | | | | | e target | | | ]; try discriminate;
      try (inversion Ei; subst; discriminate).
    destruct target as [t|]; [|discriminate].
    inversion Ei; subst. eauto.
Qed.

Lemma checkData_accepts_only_witness :
  checkData (VSlice (TPtr (TStruct "person")) (Some []))
  = Ret ({| held := VSlice (TPtr (TStruct "person")) (Some []);
            typ := TSlice (TPtr (TStruct "person")); CanAddr := false |},
         false, None)
  /\ ((false = true
       /\ KindOf (TSlice (TPtr (TStruct "person"))) = Struct
       /\ exists e, VSlice (TPtr (TStruct "person")) (Some [])
                    = VPtr e (Some (VSlice (TPtr (TStruct "person")) (Some []))))
      \/ (false = false
          /\ exists e, TSlice (TPtr (TStruct "person")) = TSlice e
                       /\ (KindOf e = Struct
                           \/ exists ee, e = TPtr ee /\ KindOf ee = Struct))).
Proof.
  assert (H : checkData (VSlice (TPtr (TStruct "person")) (Some []))
              = Ret ({| held := VSlice (TPtr (TStruct "person")) (Some []);
                        typ := TSlice (TPtr (TStruct "person"));
                        CanAddr := false |}, false, None)) by reflexivity.
  split; [exact H | exact (checkData_accepts_only _ _ _ H)].
Defined.

(** [checkData] does not return an error for nil data or for a nil
    pointer: it panics, since the zero Value has no type. *)
Theorem checkData_nil_panics (data : value) :
  data = VNil \/ (exists e, data = VPtr e None) ->
  exists msg, checkData data = Panic msg.
Proof.
  intros [-> | [e ->]]; cbn; eauto.
Qed.

Lemma checkData_nil_panics_witness :
  (VPtr (TStruct "person") None = VNil
   \/ exists e, VPtr (TStruct "person") None = VPtr e None)
  /\ exists msg, checkData (VPtr (TStruct "person") None) = Panic msg.
Proof.
  assert (H : VPtr (TStruct "person") None = VNil
              \/ exists e, VPtr (TStruct "person") None = VPtr e None)
    by (right; eexists; reflexivity).
  split; [exact H | exact (checkData_nil_panics _ H)].
Defined.

(** ** The value map of a record *)

Lemma mapGet_None_keys {A : Type} (m : list (string * A)) k :
  ~ In k (map fst m) -> mapGet m k = None.
Proof.
  induction m as [|[k0 v0] m IH]; cbn [map fst mapGet In]; intros H;
    [reflexivity|].
  destruct (String.eqb k0 k) eqn:E.
  - apply String.eqb_eq in E. exfalso. apply H. now left.
  - apply IH. intros Hin. apply H. now right.
Qed.

Lemma mapGet_Permutation {A : Type} (l l' : list (string * A)) k :
  NoDup (map fst l) -> Permutation l l' -> mapGet l k = mapGet l' k.
Proof.
  intros Hnd Hp.
  assert (Hnd' : NoDup (map fst l')).
  { eapply Permutation_NoDup; [|exact Hnd]. now apply Permutation_map. }
  destruct (mapGet l k) as [v|] eqn:E.
  - symmetry. apply mapGet_NoDup_In; [exact Hnd'|].
    eapply Permutation_in; [exact Hp|]. now apply mapGet_In.
  - destruct (mapGet l' k) as [v|] eqn:E'; [|reflexivity].
    apply mapGet_In in E'.
    apply (Permutation_in _ (Permutation_sym Hp)) in E'.
    apply (mapGet_NoDup_In _ _ _ Hnd) in E'. congruence.
Qed.

Section ValuesLoop.

Variable fields : list (StructField * value).

(** What [valuesFromStruct] enters for a descriptor: nothing for a zero
    value of an [omitempty] field, the value of the field otherwise. *)
Lemma valuesLoop_lookup entries : forall vals0 values,
  NoDup (map fst entries) ->
  (forall k fi, In (k, fi) entries -> dbName fi = k) ->
  (forall k, In k (map fst entries) -> mapGet vals0 k = None) ->
  valuesLoop fields entries vals0 = Ret values ->
  forall k,
    mapGet values k =
    match mapGet entries k with
    | None => mapGet vals0 k
    | Some fi =>
        match FieldByName fields (name fi) with
        | Some (_, v) => if deepZero v && omitEmpty fi then None else Some v
        | None => None
        end
    end.
Proof.
  induction entries as [|[k0 fi] entries IH];
    intros vals0 values Hnd Hkey Hfree Hrun k.
  - cbn in Hrun. inversion Hrun; subst. reflexivity.
  - cbn [map fst] in Hnd. inversion Hnd as [|? ? Hnot Hrest]; subst.
    assert (Hk0 : dbName fi = k0) by (apply Hkey; now left).
    cbn [valuesLoop] in Hrun.
    destruct (FieldByName fields (name fi)) as [[f v]|] eqn:Ef; [|discriminate].
    assert (Hz : isZero v = Ret (deepZero v) \/ exists msg, isZero v = Panic msg).
    { destruct v; cbn; eauto. }
    destruct Hz as [Hz | [msg Hz]]; rewrite Hz in Hrun; cbn [bind] in Hrun;
      [|discriminate].
    assert (Hkey' : forall k' fi', In (k', fi') entries -> dbName fi' = k').
    { intros k' fi' H. apply Hkey. now right. }
    cbn [mapGet].
    destruct (deepZero v && omitEmpty fi) eqn:Eo.
    + assert (Hfree' : forall k', In k' (map fst entries) -> mapGet vals0 k' = None).
      { intros k' H. apply Hfree. now right. }
      rewrite (IH vals0 values Hrest Hkey' Hfree' Hrun k).
      destruct (String.eqb k0 k) eqn:E; [|reflexivity].
      apply String.eqb_eq in E. subst k.
      rewrite (mapGet_None_keys entries k0 Hnot), Ef, Eo.
      apply Hfree. now left.
    + assert (Hfree' : forall k', In k' (map fst entries) ->
                                   mapGet (mapSet vals0 (dbName fi) v) k' = None).
      { intros k' Hin. rewrite Hk0.
        rewrite mapGet_mapSet_other; [apply Hfree; now right|].
        intros ->. contradiction. }
      rewrite (IH _ values Hrest Hkey' Hfree' Hrun k).
      destruct (String.eqb k0 k) eqn:E.
      * apply String.eqb_eq in E. subst k.
        rewrite (mapGet_None_keys entries k0 Hnot), Ef, Eo.
        rewrite Hk0. apply mapGet_mapSet_same.
      * destruct (mapGet entries k); [reflexivity|].
        rewrite Hk0. apply mapGet_mapSet_other.
        intros ->. now rewrite String.eqb_refl in E.
Qed.

End ValuesLoop.

(** X16: the value map of a record holds, under each column of the struct
    info, the current value of the field mapped to it, except that a zero
    value of an [omitempty] field is left out; it holds nothing else. *)
Theorem valuesFromStruct_lookup
  (rangeOrder : forall A : Type, list (string * A) -> list (string * A))
  (n : string) (fields : list (StructField * value))
  (values : list (string * value)) (info : structInfo) (k : string) :
  Permutation (rangeOrder fieldInfo info) info ->
  valuesFromStruct rangeOrder (VStruct n fields) = Ret (values, info) ->
  mapGet values k =
  match mapGet info k with
  | None => None
  | Some fi =>
      match FieldByName fields (name fi) with
      | Some (_, v) => if deepZero v && omitEmpty fi then None else Some v
      | None => None
      end
  end.
Proof.
  intros Hperm Hrun. cbn [valuesFromStruct] in Hrun.
  destruct (getStructInfo (map fst fields)) as [si|msg] eqn:Es;
    cbn [bind] in Hrun; [|discriminate].
  destruct (valuesLoop fields (rangeOrder fieldInfo si) []) as [vals|msg] eqn:Ev;
    cbn [bind] in Hrun; [|discriminate].
  inversion Hrun; subst vals si. clear Hrun.
  assert (Hnd : NoDup (map fst info)).
  { apply (getStructInfoLoop_NoDup (map fst fields) [] info);
      [constructor | exact Es]. }
  assert (Hnd' : NoDup (map fst (rangeOrder fieldInfo info))).
  { eapply Permutation_NoDup; [|exact Hnd].
    apply Permutation_map. now apply Permutation_sym. }
  assert (Hkeys : forall k' fi, In (k', fi) (rangeOrder fieldInfo info) ->
                                dbName fi = k').
  { intros k' fi Hin. eapply getStructInfo_keys; [exact Es|].
    eapply Permutation_in; eassumption. }
  assert (Hfree : forall k', In k' (map fst (rangeOrder fieldInfo info)) ->
                             mapGet ([] : list (string * value)) k' = None)
    by reflexivity.
  rewrite (valuesLoop_lookup fields _ [] values Hnd' Hkeys Hfree Ev k).
  rewrite (mapGet_Permutation _ _ k Hnd' Hperm).
  now destruct (mapGet info k).
Qed.

Lemma valuesFromStruct_lookup_witness :
  Permutation (insertionOrder fieldInfo personInfo) personInfo
  /\ valuesFromStruct insertionOrder (person 7 "ann")
     = Ret ([("id", VInt Int64 7); ("name", VString "ann")], personInfo)
  /\ mapGet [("id", VInt Int64 7); ("name", VString "ann")] "name" =
     match mapGet personInfo "name" with
     | None => None
     | Some fi =>
         match FieldByName
                 [(exported "ID" "id,pk" (TScalar Int64), VInt Int64 7);
                  (exported "Name" "name" (TScalar String_), VString "ann")]
                 (name fi) with
         | Some (_, v) => if deepZero v && omitEmpty fi then None else Some v
         | None => None
         end
     end.
Proof.
  assert (H1 : Permutation (insertionOrder fieldInfo personInfo) personInfo)
    by apply Permutation_refl.
  assert (H2 : valuesFromStruct insertionOrder (person 7 "ann")
               = Ret ([("id", VInt Int64 7); ("name", VString "ann")], personInfo))
    by (vm_compute; reflexivity).
  repeat (split; [assumption|]).
  exact (valuesFromStruct_lookup insertionOrder "person" _ _ _ "name" H1 H2).
Defined.

(** ** The INSERT builder *)

Section InsertClause.

Variable escValue3 :
  value -> option fieldInfo -> result (text * value * option error).
Variable db : DB.
Variable info : structInfo.

Lemma insertClauseLoop_classified (lit : string -> value -> text)
  (drv : string -> value -> value) entries : forall c,
  (forall k v, In (k, v) entries ->
               escValue3 v (mapGet info k) = Ret (lit k v, drv k v, None)) ->
  insertClauseLoop escValue3 db info entries c =
  Ret {| cols := cols c ++ map (fun e => Esc db (fst e)) entries;
         vs := vs c
               ++ map (fun e => if text_eqb (lit (fst e) (snd e)) []
                                then runes "?" else lit (fst e) (snd e)) entries;
         cargs := cargs c
                  ++ map (fun e => drv (fst e) (snd e))
                       (filter (fun e => text_eqb (lit (fst e) (snd e)) [])
                          entries) |}.
Proof.
  induction entries as [|[k v] entries IH]; intros c H.
  - cbn. rewrite !app_nil_r. now destruct c.
  - cbn [insertClauseLoop]. rewrite (H k v (or_introl eq_refl)). cbn [bind].
    cbn [map filter fst snd].
    destruct (text_eqb (lit k v) []); rewrite IH;
      try (intros k' v' Hin; apply H; now right);
      cbn [cols vs cargs map]; rewrite <- ?app_assoc; reflexivity.
Qed.

Lemma insertClauseLoop_error_panics entries : forall c k v escV drv e,
  In (k, v) entries ->
  escValue3 v (mapGet info k) = Ret (escV, drv, Some e) ->
  exists msg, insertClauseLoop escValue3 db info entries c = Panic msg.
Proof.
  induction entries as [|[k0 v0] entries IH]; intros c k v escV drv e Hin Herr;
    [destruct Hin|].
  cbn [insertClauseLoop].
  destruct (escValue3 v0 (mapGet info k0)) as [[[escV0 drv0] err0]|msg] eqn:E0;
    cbn [bind]; [|eauto].
  destruct err0 as [e0|]; [eauto|].
  destruct Hin as [Heq | Hin]; [inversion Heq; subst; congruence|].
  destruct (text_eqb escV0 []); eapply IH; eassumption.
Qed.

End InsertClause.

(** X17: when every value is classified without error, the INSERT
    statement lists the escaped columns in the order [range] visits them,
    then one entry per column in the same order, a [?] where the value is
    bound and the literal where it is inlined; the arguments are the bound
    values in that same order, one for each [?]. *)
Theorem insertClauseFromValues_statement
  (rangeOrder : forall A : Type, list (string * A) -> list (string * A))
  (escValue3 : value -> option fieldInfo -> result (text * value * option error))
  (db : DB) (table : string) (values : list (string * value))
  (info : structInfo)
  (lit : string -> value -> text) (drv : string -> value -> value) :
  (forall k v, In (k, v) (rangeOrder value values) ->
               escValue3 v (mapGet info k) = Ret (lit k v, drv k v, None)) ->
  insertClauseFromValues rangeOrder escValue3 db table values info =
  Ret (runes "INSERT INTO " ++ Esc db table ++ runes " ("
         ++ Join (map (fun e => Esc db (fst e)) (rangeOrder value values))
              (runes ",")
         ++ runes ") VALUES("
         ++ Join (map (fun e => if text_eqb (lit (fst e) (snd e)) []
                                then runes "?" else lit (fst e) (snd e))
                    (rangeOrder value values)) (runes ",")
         ++ runes ")",
       map (fun e => drv (fst e) (snd e))
         (filter (fun e => text_eqb (lit (fst e) (snd e)) [])
            (rangeOrder value values)),
       None).
Proof.
  intros H. unfold insertClauseFromValues.
  rewrite (insertClauseLoop_classified escValue3 db info lit drv _ _ H).
  reflexivity.
Qed.

Lemma insertClauseFromValues_statement_witness :
  (forall k v,
     In (k, v) (insertionOrder value [("id", VInt Int64 7); ("note", VPtr (TScalar String_) None)]) ->
     escValueSpec v (mapGet [("note", with_ptr (newFieldInfo "note" "Note") true)] k)
     = Ret ((fun _ v => if deepZero v then runes "null" else []) k v,
            (fun _ v => if deepZero v then VNil else v) k v, None))
  /\ insertClauseFromValues insertionOrder escValueSpec sampleDB "t"
       [("id", VInt Int64 7); ("note", VPtr (TScalar String_) None)]
       [("note", with_ptr (newFieldInfo "note" "Note") true)]
     = Ret (runes "INSERT INTO " ++ Esc sampleDB "t" ++ runes " ("
              ++ Join (map (fun e => Esc sampleDB (fst e))
                         (insertionOrder value
                            [("id", VInt Int64 7);
                             ("note", VPtr (TScalar String_) None)]))
                   (runes ",")
              ++ runes ") VALUES("
              ++ Join (map (fun e =>
                              if text_eqb
                                   ((fun _ v => if deepZero v then runes "null" else [])
                                      (fst e) (snd e)) []
                              then runes "?"
                              else (fun _ v => if deepZero v then runes "null" else [])
                                     (fst e) (snd e))
                         (insertionOrder value
                            [("id", VInt Int64 7);
                             ("note", VPtr (TScalar String_) None)]))
                   (runes ",")
              ++ runes ")",
            map (fun e => (fun _ v => if deepZero v then VNil else v) (fst e) (snd e))
              (filter (fun e =>
                         text_eqb
                           ((fun _ v => if deepZero v then runes "null" else [])
                              (fst e) (snd e)) [])
                 (insertionOrder value
                    [("id", VInt Int64 7);
                     ("note", VPtr (TScalar String_) None)])),
            None).
Proof.
  assert (H : forall k v,
     In (k, v) (insertionOrder value [("id", VInt Int64 7); ("note", VPtr (TScalar String_) None)]) ->
     escValueSpec v (mapGet [("note", with_ptr (newFieldInfo "note" "Note") true)] k)
     = Ret ((fun _ v => if deepZero v then runes "null" else []) k v,
            (fun _ v => if deepZero v then VNil else v) k v, None)).
  { intros k v [E | [E | []]]; inversion E; subst; reflexivity. }
  split; [exact H|].
  exact (insertClauseFromValues_statement insertionOrder escValueSpec sampleDB "t"
           _ _ _ _ H).
Defined.

(** The statement of the witness above, written out. *)
Example insertClause_null_literal :
  insertClauseFromValues insertionOrder escValueSpec sampleDB "t"
    [("id", VInt Int64 7); ("note", VPtr (TScalar String_) None)]
    [("note", with_ptr (newFieldInfo "note" "Note") true)]
  = Ret (runes "INSERT INTO `t` (`id`,`note`) VALUES(?,null)",
         [VInt Int64 7], None).
Proof. vm_compute. reflexivity. Qed.

(** X18: when the classification of any one value reports an error,
    [insertClauseFromValues] does not return that error: it panics. *)
Theorem insertClauseFromValues_error_panics
  (rangeOrder : forall A : Type, list (string * A) -> list (string * A))
  (escValue3 : value -> option fieldInfo -> result (text * value * option error))
  (db : DB) (table : string) (values : list (string * value))
  (info : structInfo) (k : string) (v : value)
  (escV : text) (drv : value) (e : error) :
  In (k, v) (rangeOrder value values) ->
  escValue3 v (mapGet info k) = Ret (escV, drv, Some e) ->
  exists msg,
    insertClauseFromValues rangeOrder escValue3 db table values info = Panic msg.
Proof.
  intros Hin Herr. unfold insertClauseFromValues.
  destruct (insertClauseLoop_error_panics escValue3 db info _
              {| cols := []; vs := []; cargs := [] |} k v escV drv e Hin Herr)
    as [msg Hp].
  rewrite Hp. cbn [bind]. eauto.
Qed.

Lemma insertClauseFromValues_error_panics_witness :
  In ("note", VPtr (TScalar String_) None)
    (insertionOrder value [("id", VInt Int64 7); ("note", VPtr (TScalar String_) None)])
  /\ escValueSpec (VPtr (TScalar String_) None)
       (mapGet [("note", with_notNull (with_ptr (newFieldInfo "note" "Note") true) true)]
          "note")
     = Ret ([], VNil, Some (ErrOther "esc Value unimplemented case..."))
  /\ exists msg,
       insertClauseFromValues insertionOrder escValueSpec sampleDB "t"
         [("id", VInt Int64 7); ("note", VPtr (TScalar String_) None)]
         [("note", with_notNull (with_ptr (newFieldInfo "note" "Note") true) true)]
       = Panic msg.
Proof.
  assert (H1 : In ("note", VPtr (TScalar String_) None)
                 (insertionOrder value
                    [("id", VInt Int64 7); ("note", VPtr (TScalar String_) None)]))
    by (right; left; reflexivity).
  assert (H2 : escValueSpec (VPtr (TScalar String_) None)
                 (mapGet [("note", with_notNull
                                     (with_ptr (newFieldInfo "note" "Note") true) true)]
                    "note")
               = Ret ([], VNil, Some (ErrOther "esc Value unimplemented case...")))
    by reflexivity.
  repeat (split; [assumption|]).
  exact (insertClauseFromValues_error_panics insertionOrder escValueSpec sampleDB "t"
           _ _ _ _ _ _ _ H1 H2).
Defined.

(** ** More on Insert *)

(** X19: when the driver reports an error for the INSERT statement of a
    record passed by reference, [Insert] returns that error and the record
    is as it was before the call: nothing is written back. *)
Theorem Insert_exec_error_keeps_record
  (rangeOrder : forall A : Type, list (string * A) -> list (string * A))
  (escValue3 : value -> option fieldInfo -> result (text * value * option error))
  (driver : Type)
  (exec : driver -> Z -> text -> list value -> driver * (Z * option error))
  (db : DB) (d d' : driver) (table n : string)
  (fields : list (StructField * value))
  (values : list (string * value)) (info : structInfo)
  (sql : text) (args : list value) (insert_id : Z) (e : error) :
  valuesFromStruct rangeOrder (VStruct n fields) = Ret (values, info) ->
  insertClauseFromValues rangeOrder escValue3 db table values info
  = Ret (sql, args, None) ->
  exec d 1%Z sql args = (d', (insert_id, Some e)) ->
  Insert rangeOrder escValue3 driver exec db d table
    (VPtr (TStruct n) (Some (VStruct n fields)))
  = Ret (d', (VPtr (TStruct n) (Some (VStruct n fields)), Some e)).
Proof.
  intros Hv Hc He.
  unfold Insert. cbn [checkData Indirect KindOf typ CanAddr negb bind held].
  unfold insertRow.
  rewrite (insertStruct_built rangeOrder escValue3 driver exec db d table _ _ _ _ _ Hv Hc).
  rewrite He. reflexivity.
Qed.

Lemma Insert_exec_error_keeps_record_witness :
  valuesFromStruct insertionOrder (person 0 "ann")
  = Ret ([("id", VInt Int64 0); ("name", VString "ann")], personInfo)
  /\ insertClauseFromValues insertionOrder escValueSpec sampleDB "t"
       [("id", VInt Int64 0); ("name", VString "ann")] personInfo
     = Ret (runes "INSERT INTO `t` (`id`,`name`) VALUES(?,?)",
            [VInt Int64 0; VString "ann"], None)
  /\ failingExec 0 1%Z (runes "INSERT INTO `t` (`id`,`name`) VALUES(?,?)")
       [VInt Int64 0; VString "ann"]
     = (1, (0%Z, Some (ErrOther "driver: bad connection")))
  /\ Insert insertionOrder escValueSpec nat failingExec sampleDB 0 "t"
       (VPtr (TStruct "person") (Some (person 0 "ann")))
     = Ret (1, (VPtr (TStruct "person") (Some (person 0 "ann")),
                Some (ErrOther "driver: bad connection"))).
Proof.
  assert (H1 : valuesFromStruct insertionOrder (person 0 "ann")
               = Ret ([("id", VInt Int64 0); ("name", VString "ann")], personInfo))
    by (vm_compute; reflexivity).
  assert (H2 : insertClauseFromValues insertionOrder escValueSpec sampleDB "t"
                 [("id", VInt Int64 0); ("name", VString "ann")] personInfo
               = Ret (runes "INSERT INTO `t` (`id`,`name`) VALUES(?,?)",
                      [VInt Int64 0; VString "ann"], None))
    by (vm_compute; reflexivity).
  assert (H3 : failingExec 0 1%Z (runes "INSERT INTO `t` (`id`,`name`) VALUES(?,?)")
                 [VInt Int64 0; VString "ann"]
               = (1, (0%Z, Some (ErrOther "driver: bad connection"))))
    by reflexivity.
  repeat (split; [assumption|]).
  exact (Insert_exec_error_keeps_record insertionOrder escValueSpec nat failingExec
           sampleDB 0 1 "t" "person" _ _ _ _ _ _ _ H1 H2 H3).
Defined.



(** X21: when the struct info of a record passed by reference has no
    primary key, or more than one, a successful [Insert] leaves every
    field of the record as it was: the inserted id is dropped. *)
Theorem Insert_without_only_key_keeps_record
  (rangeOrder : forall A : Type, list (string * A) -> list (string * A))
  (escValue3 : value -> option fieldInfo -> result (text * value * option error))
  (driver : Type)
  (exec : driver -> Z -> text -> list value -> driver * (Z * option error))
  (db : DB) (d d' : driver) (table n : string)
  (fields : list (StructField * value))
  (values : list (string * value)) (info : structInfo)
  (sql : text) (args : list value) (insert_id : Z) :
  valuesFromStruct rangeOrder (VStruct n fields) = Ret (values, info) ->
  insertClauseFromValues rangeOrder escValue3 db table values info
  = Ret (sql, args, None) ->
  exec d 1%Z sql args = (d', (insert_id, None)) ->
  onlyPrimaryKey rangeOrder info = None ->
  Insert rangeOrder escValue3 driver exec db d table
    (VPtr (TStruct n) (Some (VStruct n fields)))
  = Ret (d', (VPtr (TStruct n) (Some (VStruct n fields)), None)).
Proof.
  intros Hv Hc He Hpk.
  unfold Insert. cbn [checkData Indirect KindOf typ CanAddr negb bind held].
  unfold insertRow.
  rewrite (insertStruct_built rangeOrder escValue3 driver exec db d table _ _ _ _ _ Hv Hc).
  rewrite He. cbn [bind]. rewrite Hpk. reflexivity.
Qed.

Lemma Insert_without_only_key_keeps_record_witness :
  valuesFromStruct insertionOrder (twoKeys 1 2 "x")
  = Ret ([("a", VInt Int64 1); ("b", VInt Int64 2); ("c", VString "x")],
         [("a", with_primaryKey (with_emptyValue (newFieldInfo "a" "A") "''") true);
          ("b", with_primaryKey (with_emptyValue (newFieldInfo "b" "B") "''") true);
          ("c", with_emptyValue (newFieldInfo "c" "C") "''")])
  /\ insertClauseFromValues insertionOrder escValueSpec sampleDB "t"
       [("a", VInt Int64 1); ("b", VInt Int64 2); ("c", VString "x")]
       [("a", with_primaryKey (with_emptyValue (newFieldInfo "a" "A") "''") true);
        ("b", with_primaryKey (with_emptyValue (newFieldInfo "b" "B") "''") true);
        ("c", with_emptyValue (newFieldInfo "c" "C") "''")]
     = Ret (runes "INSERT INTO `t` (`a`,`b`,`c`) VALUES(?,?,?)",
            [VInt Int64 1; VInt Int64 2; VString "x"], None)
  /\ sampleExec 0 1%Z (runes "INSERT INTO `t` (`a`,`b`,`c`) VALUES(?,?,?)")
       [VInt Int64 1; VInt Int64 2; VString "x"] = (1, (42%Z, None))
  /\ onlyPrimaryKey insertionOrder
       [("a", with_primaryKey (with_emptyValue (newFieldInfo "a" "A") "''") true);
        ("b", with_primaryKey (with_emptyValue (newFieldInfo "b" "B") "''") true);
        ("c", with_emptyValue (newFieldInfo "c" "C") "''")] = None
  /\ Insert insertionOrder escValueSpec nat sampleExec sampleDB 0 "t"
       (VPtr (TStruct "twoKeys") (Some (twoKeys 1 2 "x")))
     = Ret (1, (VPtr (TStruct "twoKeys") (Some (twoKeys 1 2 "x")), None)).
Proof.
  repeat (split; [vm_compute; reflexivity|]).
  refine (Insert_without_only_key_keeps_record insertionOrder escValueSpec nat
            sampleExec sampleDB 0 1 "t" "twoKeys" _
            [("a", VInt Int64 1); ("b", VInt Int64 2); ("c", VString "x")]
            [("a", with_primaryKey (with_emptyValue (newFieldInfo "a" "A") "''") true);
             ("b", with_primaryKey (with_emptyValue (newFieldInfo "b" "B") "''") true);
             ("c", with_emptyValue (newFieldInfo "c" "C") "''")]
            (runes "INSERT INTO `t` (`a`,`b`,`c`) VALUES(?,?,?)")
            [VInt Int64 1; VInt Int64 2; VString "x"] 42%Z _ _ _ _);
    vm_compute; reflexivity.
Defined.

(** X22: [Insert] on a slice stops at the first row whose insert fails
    and returns the error of that row. In a slice of records, passed by
    value or by reference, the rows before it hold the ids written back
    and the failing row and the rows behind it are as they were. In a
    slice of pointers, where a record may be reached through more than one
    element, the records are as the inserts of the rows before the
    failing one left them, and no pointer behind it is followed. *)
Theorem Insert_slice_stops_at_first_error
  (rangeOrder : forall A : Type, list (string * A) -> list (string * A))
  (escValue3 : value -> option fieldInfo -> result (text * value * option error))
  (driver : Type)
  (exec : driver -> Z -> text -> list value -> driver * (Z * option error))
  (db : DB) (table n : string) :
  (forall byRef d d1 d2 done done' later bad bad' err,
     insertItems rangeOrder escValue3 driver exec db d table done
     = Ret (d1, (done', None)) ->
     insertItem rangeOrder escValue3 driver exec db d1 table bad
     = Ret (d2, (bad', Some err)) ->
     Insert rangeOrder escValue3 driver exec db d table
       (sliceData byRef (TStruct n) (done ++ bad :: later))
     = Ret (d2, (sliceData byRef (TStruct n) (done' ++ bad :: later), Some err)))
  /\ (forall d d1 d2 store store1 done a later bad' err,
        insertPointers rangeOrder escValue3 driver exec (TStruct n) db d table
          store done
        = Ret (d1, (store1, None)) ->
        insertItem rangeOrder escValue3 driver exec db d1 table
          (pointerTo (TStruct n) store1 a)
        = Ret (d2, (bad', Some err)) ->
        InsertPointers rangeOrder escValue3 driver exec (TStruct n) db d table
          store (done ++ a :: later)
        = Ret (d2, (store1, Some err))).
Proof.
  split.
  - intros byRef d d1 d2 done done' later bad bad' err Hdone Hbad.
    rewrite Insert_sliceData.
    rewrite (insertItems_app rangeOrder escValue3 driver exec db table
               done d (bad :: later) d1 done' Hdone).
    cbn [insertItems]. rewrite Hbad. cbn [bind].
    apply insertItem_error_keeps_item in Hbad. now subst bad'.
  - intros d d1 d2 store store1 done a later bad' err Hdone Hbad.
    unfold InsertPointers.
    cbn [checkData Indirect TypeOf KindOf typ Elem bind Kind_eqb negb].
    rewrite (insertPointers_app rangeOrder escValue3 driver exec db _ table
               done d store _ d1 store1 Hdone).
    cbn [insertPointers]. rewrite Hbad. cbn [bind].
    apply insertItem_error_keeps_item in Hbad. subst bad'.
    now rewrite writeBack_pointerTo.
Qed.

Lemma Insert_slice_stops_at_first_error_witness :
  (insertItems insertionOrder escValueSpec nat secondFailsExec sampleDB 0 "t"
     [person 0 "ann"] = Ret (1, ([person 42 "ann"], None))
   /\ insertItem insertionOrder escValueSpec nat secondFailsExec sampleDB 1 "t"
        (person 0 "bob")
      = Ret (2, (person 0 "bob", Some (ErrOther "driver: bad connection")))
   /\ Insert insertionOrder escValueSpec nat secondFailsExec sampleDB 0 "t"
        (sliceData false (TStruct "person")
           ([person 0 "ann"] ++ person 0 "bob" :: [person 0 "cy"]))
      = Ret (2, (sliceData false (TStruct "person")
                   ([person 42 "ann"] ++ person 0 "bob" :: [person 0 "cy"]),
                 Some (ErrOther "driver: bad connection"))))
  /\ (insertPointers insertionOrder escValueSpec nat secondFailsExec
        (TStruct "person") sampleDB 0 "t" [person 0 "ann"; person 0 "bob"] [0]
      = Ret (1, ([person 42 "ann"; person 0 "bob"], None))
      /\ insertItem insertionOrder escValueSpec nat secondFailsExec sampleDB 1 "t"
           (pointerTo (TStruct "person") [person 42 "ann"; person 0 "bob"] 1)
         = Ret (2, (VPtr (TStruct "person") (Some (person 0 "bob")),
                    Some (ErrOther "driver: bad connection")))
      /\ InsertPointers insertionOrder escValueSpec nat secondFailsExec
           (TStruct "person") sampleDB 0 "t" [person 0 "ann"; person 0 "bob"]
           ([0] ++ 1 :: [0])
         = Ret (2, ([person 42 "ann"; person 0 "bob"],
                    Some (ErrOther "driver: bad connection")))).
Proof.
  assert (H1 : insertItems insertionOrder escValueSpec nat secondFailsExec sampleDB
                 0 "t" [person 0 "ann"] = Ret (1, ([person 42 "ann"], None)))
    by (vm_compute; reflexivity).
  assert (H2 : insertItem insertionOrder escValueSpec nat secondFailsExec sampleDB
                 1 "t" (person 0 "bob")
               = Ret (2, (person 0 "bob", Some (ErrOther "driver: bad connection"))))
    by (vm_compute; reflexivity).
  assert (H3 : insertPointers insertionOrder escValueSpec nat secondFailsExec
                 (TStruct "person") sampleDB 0 "t"
                 [person 0 "ann"; person 0 "bob"] [0]
               = Ret (1, ([person 42 "ann"; person 0 "bob"], None)))
    by (vm_compute; reflexivity).
  assert (H4 : insertItem insertionOrder escValueSpec nat secondFailsExec sampleDB
                 1 "t"
                 (pointerTo (TStruct "person") [person 42 "ann"; person 0 "bob"] 1)
               = Ret (2, (VPtr (TStruct "person") (Some (person 0 "bob")),
                          Some (ErrOther "driver: bad connection"))))
    by (vm_compute; reflexivity).
  split.
  - repeat (split; [assumption|]).
    exact (proj1 (Insert_slice_stops_at_first_error insertionOrder escValueSpec
                    nat secondFailsExec sampleDB "t" "person")
             false 0 1 2 _ _ [person 0 "cy"] _ _ _ H1 H2).
  - repeat (split; [assumption|]).
    exact (proj2 (Insert_slice_stops_at_first_error insertionOrder escValueSpec
                    nat secondFailsExec sampleDB "t" "person")
             0 1 2 _ _ _ 1 [0] _ _ H3 H4).
Defined.

(** The slice [[]*person{p, q, p}] of the witness: the record behind [p]
    holds 42 after the call, for the first element and for the third, which
    the loop did not reach. *)
Example InsertPointers_shared_record_holds_id :
  InsertPointers insertionOrder escValueSpec nat secondFailsExec
    (TStruct "person") sampleDB 0 "t" [person 0 "ann"; person 0 "bob"] [0; 1; 0]
  = Ret (2, ([person 42 "ann"; person 0 "bob"],
             Some (ErrOther "driver: bad connection")))
  /\ map (pointerTo (TStruct "person") [person 42 "ann"; person 0 "bob"]) [0; 1; 0]
     = [VPtr (TStruct "person") (Some (person 42 "ann"));
        VPtr (TStruct "person") (Some (person 0 "bob"));
        VPtr (TStruct "person") (Some (person 42 "ann"))].
Proof. split; vm_compute; reflexivity. Qed.

(** ** More on the UPDATE builder *)

Section UpdateMore.

Variable escValue3 :
  value -> option fieldInfo -> result (text * value * option error).
Variable db : DB.
Variable info : structInfo.

(** A primary key that is classified as the literal [null] ends the loop
    in an error, wherever it stands among the columns. *)
Lemma updateLoop_null_key entries : forall b key v drv,
  In (key, v) entries ->
  si_primaryKey info key = Ret true ->
  escValue3 v (mapGet info key) = Ret (runes "null", drv, None) ->
  (forall k' v', In (k', v') entries ->
                 exists pk r, si_primaryKey info k' = Ret pk
                              /\ escValue3 v' (mapGet info k') = Ret r) ->
  exists args e,
    updateLoop escValue3 db info entries b = Ret ([], args, Some e).
Proof.
  induction entries as [|[k0 v0] entries IH]; intros b key v drv Hin Hpk Hnull Hall;
    [destruct Hin|].
  cbn [updateLoop].
  destruct Hin as [Heq | Hin].
  - inversion Heq; subst k0 v0.
    rewrite Hpk. cbn [bind]. rewrite Hnull. cbn [bind].
    change (text_eqb (runes "null") (runes "null")) with true. cbv iota. eauto.
  - destruct (Hall k0 v0 (or_introl eq_refl))
      as [pk0 [[[escV0 drv0] err0] [Hp0 Hr0]]].
    rewrite Hp0. cbn [bind]. rewrite Hr0. cbn [bind].
    assert (Hrest : forall b',
              exists args e,
                updateLoop escValue3 db info entries b' = Ret ([], args, Some e)).
    { intros b'. eapply IH; try eassumption.
      intros k' v' H'. apply Hall. now right. }
    destruct pk0.
    + destruct err0 as [e0|]; [eauto|].
      destruct (text_eqb escV0 (runes "null")); [eauto|].
      destruct (text_eqb escV0 []); apply Hrest.
    + destruct err0 as [e0|]; [eauto|].
      destruct (text_eqb escV0 []); apply Hrest.
Qed.

(** The predicate or assignment written for one bound column. *)
Let bound (e : string * value) : text :=
  Esc db (fst e) ++ runes "=" ++ [PlaceholderValue db].

Lemma updateLoop_bound_later (isKey : string -> bool) entries : forall b,
  (0 < idx b)%nat ->
  (forall k v, In (k, v) entries -> si_primaryKey info k = Ret (isKey k)) ->
  (forall k v, In (k, v) entries ->
               escValue3 v (mapGet info k) = Ret ([], v, None)) ->
  updateLoop escValue3 db info entries b =
  updateLoop escValue3 db info []
    {| update := update b
                 ++ List.concat
                      (map (fun e => runes "," ++ bound e)
                         (filter (fun e => negb (isKey (fst e))) entries));
       where_ := where_ b
                 ++ List.concat
                      (map bound (filter (fun e => isKey (fst e)) entries));
       idx := idx b
              + List.length (filter (fun e => negb (isKey (fst e))) entries);
       valid := valid b || existsb (fun e => isKey (fst e)) entries;
       uargs := uargs b ++ map snd entries |}.
Proof.
  induction entries as [|[k v] entries IH]; intros b Hidx Hpk Hesc.
  - cbn [filter map List.concat existsb List.length].
    rewrite !app_nil_r, orb_false_r, Nat.add_0_r. now destruct b.
  - match goal with |- _ = ?rhs => set (R := rhs) end.
    cbn [updateLoop].
    rewrite (Hpk k v (or_introl eq_refl)). cbn [bind].
    rewrite (Hesc k v (or_introl eq_refl)). cbn [bind].
    change (text_eqb [] (runes "null")) with false.
    change (text_eqb [] []) with true. cbv iota.
    assert (Hpk' : forall k' v', In (k', v') entries ->
                                 si_primaryKey info k' = Ret (isKey k')).
    { intros k' v' H'. apply (Hpk k' v'). now right. }
    assert (Hesc' : forall k' v', In (k', v') entries ->
                                  escValue3 v' (mapGet info k') = Ret ([], v', None)).
    { intros k' v' H'. apply (Hesc k' v'). now right. }
    destruct (isKey k) eqn:Ek.
    + rewrite IH; [ | cbn [idx]; exact Hidx | exact Hpk' | exact Hesc' ]. subst R.
      cbn [filter existsb fst snd map update where_ idx valid uargs].
      rewrite Ek. cbn [negb map List.concat List.length orb].
      f_equal. f_equal; unfold bound; cbn [fst];
        rewrite ?orb_true_r, <- ?app_assoc; reflexivity.
    + apply Nat.ltb_lt in Hidx. rewrite Hidx. apply Nat.ltb_lt in Hidx.
      rewrite IH; [ | cbn [idx]; lia | exact Hpk' | exact Hesc' ]. subst R.
      cbn [filter existsb fst snd map update where_ idx valid uargs].
      rewrite Ek. cbn [negb map List.concat List.length orb].
      f_equal. f_equal; unfold bound; cbn [fst];
        rewrite <- ?app_assoc, ?Nat.add_succ_r; reflexivity.
Qed.

Lemma updateLoop_bound_first (isKey : string -> bool) entries : forall b,
  idx b = 0%nat ->
  (forall k v, In (k, v) entries -> si_primaryKey info k = Ret (isKey k)) ->
  (forall k v, In (k, v) entries ->
               escValue3 v (mapGet info k) = Ret ([], v, None)) ->
  updateLoop escValue3 db info entries b =
  updateLoop escValue3 db info []
    {| update := update b
                 ++ Join (map bound
                            (filter (fun e => negb (isKey (fst e))) entries))
                      (runes ",");
       where_ := where_ b
                 ++ List.concat
                      (map bound (filter (fun e => isKey (fst e)) entries));
       idx := List.length (filter (fun e => negb (isKey (fst e))) entries);
       valid := valid b || existsb (fun e => isKey (fst e)) entries;
       uargs := uargs b ++ map snd entries |}.
Proof.
  induction entries as [|[k v] entries IH]; intros b Hidx Hpk Hesc.
  - cbn [filter map List.concat existsb List.length Join].
    rewrite !app_nil_r, orb_false_r. destruct b; cbn in Hidx; now subst.
  - match goal with |- _ = ?rhs => set (R := rhs) end.
    cbn [updateLoop].
    rewrite (Hpk k v (or_introl eq_refl)). cbn [bind].
    rewrite (Hesc k v (or_introl eq_refl)). cbn [bind].
    change (text_eqb [] (runes "null")) with false.
    change (text_eqb [] []) with true. cbv iota.
    assert (Hpk' : forall k' v', In (k', v') entries ->
                                 si_primaryKey info k' = Ret (isKey k')).
    { intros k' v' H'. apply (Hpk k' v'). now right. }
    assert (Hesc' : forall k' v', In (k', v') entries ->
                                  escValue3 v' (mapGet info k') = Ret ([], v', None)).
    { intros k' v' H'. apply (Hesc k' v'). now right. }
    destruct (isKey k) eqn:Ek.
    + rewrite IH; [ | cbn [idx]; exact Hidx | exact Hpk' | exact Hesc' ]. subst R.
      cbn [filter existsb fst snd map update where_ idx valid uargs].
      rewrite Ek. cbn [negb map List.concat List.length orb].
      f_equal. f_equal; unfold bound; cbn [fst];
        rewrite ?orb_true_r, <- ?app_assoc; reflexivity.
    + rewrite Hidx. cbn [Nat.ltb Nat.leb].
      rewrite (updateLoop_bound_later isKey);
        [ | cbn [idx]; lia | exact Hpk' | exact Hesc' ]. subst R.
      cbn [filter existsb fst snd map update where_ idx valid uargs].
      rewrite Ek. cbn [negb map List.length orb].
      rewrite Join_cons_concat, map_map.
      f_equal. f_equal; unfold bound; cbn [fst];
        rewrite <- ?app_assoc; reflexivity.
Qed.

End UpdateMore.

(** X23: when one of the primary-key columns of a record is classified
    as the literal [null], building the UPDATE clause returns an error and
    the empty string, wherever [range] meets that column. *)
Theorem updateClause_null_key_is_error
  (rangeOrder : forall A : Type, list (string * A) -> list (string * A))
  (escValue3 : value -> option fieldInfo -> result (text * value * option error))
  (db : DB) (table : string) (row : value)
  (values : list (string * value)) (info : structInfo)
  (key : string) (v drv : value) :
  valuesFromStruct rangeOrder row = Ret (values, info) ->
  In (key, v) (rangeOrder value values) ->
  si_primaryKey info key = Ret true ->
  escValue3 v (mapGet info key) = Ret (runes "null", drv, None) ->
  (forall k' v', In (k', v') (rangeOrder value values) ->
                 exists pk r, si_primaryKey info k' = Ret pk
                              /\ escValue3 v' (mapGet info k') = Ret r) ->
  exists args e,
    updateClauseFromRow rangeOrder escValue3 db table row
    = Ret ([], args, Some e).
Proof.
  intros Hv Hin Hpk Hnull Hall. unfold updateClauseFromRow.
  rewrite Hv. cbn [bind]. unfold updateClauseFromValues.
  eapply updateLoop_null_key; eassumption.
Qed.

Lemma updateClause_null_key_is_error_witness :
  valuesFromStruct insertionOrder (nilKey "ann")
  = Ret ([("id", VPtr (TScalar Int64) None); ("name", VString "ann")], nilKeyInfo)
  /\ In ("id", VPtr (TScalar Int64) None)
       (insertionOrder value
          [("id", VPtr (TScalar Int64) None); ("name", VString "ann")])
  /\ si_primaryKey nilKeyInfo "id" = Ret true
  /\ escValueSpec (VPtr (TScalar Int64) None) (mapGet nilKeyInfo "id")
     = Ret (runes "null", VNil, None)
  /\ (forall k' v',
        In (k', v') (insertionOrder value
                       [("id", VPtr (TScalar Int64) None); ("name", VString "ann")]) ->
        exists pk r, si_primaryKey nilKeyInfo k' = Ret pk
                     /\ escValueSpec v' (mapGet nilKeyInfo k') = Ret r)
  /\ exists args e,
       updateClauseFromRow insertionOrder escValueSpec sampleDB "t" (nilKey "ann")
       = Ret ([], args, Some e).
Proof.
  assert (H1 : valuesFromStruct insertionOrder (nilKey "ann")
               = Ret ([("id", VPtr (TScalar Int64) None); ("name", VString "ann")],
                      nilKeyInfo)) by (vm_compute; reflexivity).
  assert (H2 : In ("id", VPtr (TScalar Int64) None)
                 (insertionOrder value
                    [("id", VPtr (TScalar Int64) None); ("name", VString "ann")]))
    by (left; reflexivity).
  assert (H3 : si_primaryKey nilKeyInfo "id" = Ret true) by reflexivity.
  assert (H4 : escValueSpec (VPtr (TScalar Int64) None) (mapGet nilKeyInfo "id")
               = Ret (runes "null", VNil, None)) by reflexivity.
  assert (H5 : forall k' v',
             In (k', v') (insertionOrder value
                            [("id", VPtr (TScalar Int64) None);
                             ("name", VString "ann")]) ->
             exists pk r, si_primaryKey nilKeyInfo k' = Ret pk
                          /\ escValueSpec v' (mapGet nilKeyInfo k') = Ret r).
  { intros k' v' [E | [E | []]]; inversion E; subst;
      eexists; eexists; split; reflexivity. }
  repeat (split; [assumption|]).
  exact (updateClause_null_key_is_error insertionOrder escValueSpec sampleDB "t"
           _ _ _ _ _ _ H1 H2 H3 H4 H5).
Defined.

(** X24: when every column of the record is bound as a parameter and at
    least one is a primary key, the UPDATE statement is the SET list of
    the other columns, joined by commas, followed by the WHERE part of the
    key columns, each column in the order [range] visits them; the
    arguments are the values of all columns in that one order, keys and
    others interleaved as [range] gives them, not in the order of their
    placeholders in the statement. *)
Theorem updateClause_bound_statement
  (rangeOrder : forall A : Type, list (string * A) -> list (string * A))
  (escValue3 : value -> option fieldInfo -> result (text * value * option error))
  (db : DB) (table : string) (values : list (string * value))
  (info : structInfo) (isKey : string -> bool) :
  (forall k v, In (k, v) (rangeOrder value values) ->
               si_primaryKey info k = Ret (isKey k)) ->
  (forall k v, In (k, v) (rangeOrder value values) ->
               escValue3 v (mapGet info k) = Ret ([], v, None)) ->
  existsb (fun e => isKey (fst e)) (rangeOrder value values) = true ->
  updateClauseFromValues rangeOrder escValue3 db table values info =
  Ret (runes "UPDATE " ++ Esc db table ++ runes " SET "
         ++ Join (map (fun e => Esc db (fst e) ++ runes "="
                                  ++ [PlaceholderValue db])
                    (filter (fun e => negb (isKey (fst e)))
                       (rangeOrder value values))) (runes ",")
         ++ runes " WHERE "
         ++ List.concat
              (map (fun e => Esc db (fst e) ++ runes "="
                               ++ [PlaceholderValue db])
                 (filter (fun e => isKey (fst e)) (rangeOrder value values))),
       map snd (rangeOrder value values), None).
Proof.
  intros Hpk Hesc Hkey. unfold updateClauseFromValues.
  rewrite (updateLoop_bound_first escValue3 db info isKey _ (updateStart db table)
             eq_refl Hpk Hesc).
  cbn [updateLoop valid update where_ uargs updateStart orb].
  rewrite Hkey. cbn [negb app]. rewrite <- !app_assoc. reflexivity.
Qed.

Lemma updateClause_bound_statement_witness :
  (forall k v,
     In (k, v) (insertionOrder value
                  [("a", VInt Int64 1); ("c", VString "x"); ("b", VInt Int64 2)]) ->
     si_primaryKey twoKeysInfo k = Ret (twoKeysIsKey k))
  /\ (forall k v,
        In (k, v) (insertionOrder value
                     [("a", VInt Int64 1); ("c", VString "x"); ("b", VInt Int64 2)]) ->
        escValueSpec v (mapGet twoKeysInfo k) = Ret ([], v, None))
  /\ existsb (fun e => twoKeysIsKey (fst e))
       (insertionOrder value
          [("a", VInt Int64 1); ("c", VString "x"); ("b", VInt Int64 2)]) = true
  /\ updateClauseFromValues insertionOrder escValueSpec sampleDB "t"
       [("a", VInt Int64 1); ("c", VString "x"); ("b", VInt Int64 2)] twoKeysInfo
     = Ret (runes "UPDATE " ++ Esc sampleDB "t" ++ runes " SET "
              ++ Join (map (fun e => Esc sampleDB (fst e) ++ runes "="
                                       ++ [PlaceholderValue sampleDB])
                         (filter (fun e => negb (twoKeysIsKey (fst e)))
                            (insertionOrder value
                               [("a", VInt Int64 1); ("c", VString "x");
                                ("b", VInt Int64 2)]))) (runes ",")
              ++ runes " WHERE "
              ++ List.concat
                   (map (fun e => Esc sampleDB (fst e) ++ runes "="
                                    ++ [PlaceholderValue sampleDB])
                      (filter (fun e => twoKeysIsKey (fst e))
                         (insertionOrder value
                            [("a", VInt Int64 1); ("c", VString "x");
                             ("b", VInt Int64 2)]))),
            map snd (insertionOrder value
                       [("a", VInt Int64 1); ("c", VString "x"); ("b", VInt Int64 2)]),
            None).
Proof.
  assert (H1 : forall k v,
     In (k, v) (insertionOrder value
                  [("a", VInt Int64 1); ("c", VString "x"); ("b", VInt Int64 2)]) ->
     si_primaryKey twoKeysInfo k = Ret (twoKeysIsKey k)).
  { intros k v [E | [E | [E | []]]]; inversion E; subst; reflexivity. }
  assert (H2 : forall k v,
        In (k, v) (insertionOrder value
                     [("a", VInt Int64 1); ("c", VString "x"); ("b", VInt Int64 2)]) ->
        escValueSpec v (mapGet twoKeysInfo k) = Ret ([], v, None)).
  { intros k v [E | [E | [E | []]]]; inversion E; subst; reflexivity. }
  assert (H3 : existsb (fun e => twoKeysIsKey (fst e))
       (insertionOrder value
          [("a", VInt Int64 1); ("c", VString "x"); ("b", VInt Int64 2)]) = true)
    by reflexivity.
  repeat (split; [assumption|]).
  exact (updateClause_bound_statement insertionOrder escValueSpec sampleDB "t"
           _ _ _ H1 H2 H3).
Defined.

(** The statement of the witness above, written out: the first argument
    belongs to the WHERE part, the first placeholder to the SET list. *)
Example updateClause_arguments_in_range_order :
  updateClauseFromValues insertionOrder escValueSpec sampleDB "t"
    [("a", VInt Int64 1); ("c", VString "x"); ("b", VInt Int64 2)] twoKeysInfo
  = Ret (runes "UPDATE `t` SET `c`=# WHERE `a`=#`b`=#",
         [VInt Int64 1; VString "x"; VInt Int64 2], None).
Proof. vm_compute. reflexivity. Qed.

(** ** Update, Save and InsertBulk *)

Section SaveMore.

Variable rangeOrder : forall A : Type, list (string * A) -> list (string * A).
Variable escValue3 :
  value -> option fieldInfo -> result (text * value * option error).
Variable driver : Type.
Variable exec : driver -> Z -> text -> list value -> driver * (Z * option error).
Variable db : DB.

Lemma valuesLoop_not_nil fields entries : forall vals0 values,
  (forall k v, mapGet vals0 k = Some v -> v <> VNil) ->
  valuesLoop fields entries vals0 = Ret values ->
  forall k v, mapGet values k = Some v -> v <> VNil.
Proof.
  induction entries as [|[k0 fi] entries IH]; intros vals0 values H0 Hrun.
  - cbn in Hrun. inversion Hrun; subst. exact H0.
  - cbn [valuesLoop] in Hrun.
    destruct (FieldByName fields (name fi)) as [[f v]|]; [|discriminate].
    destruct (isZero v) as [z|msg] eqn:Ez; cbn [bind] in Hrun; [|discriminate].
    assert (Hv : v <> VNil) by (intros ->; discriminate Ez).
    destruct (z && omitEmpty fi).
    + eapply IH; [exact H0 | exact Hrun].
    + eapply IH; [|exact Hrun].
      intros k' v' Hget.
      destruct (String.eqb (dbName fi) k') eqn:E.
      * apply String.eqb_eq in E. subst k'.
        rewrite mapGet_mapSet_same in Hget. inversion Hget; subst. exact Hv.
      * rewrite mapGet_mapSet_other in Hget; [now apply (H0 k')|].
        intros Heq. subst k'. now rewrite String.eqb_refl in E.
Qed.

(** The values [valuesFromStruct] returns are never the nil interface. *)
Lemma valuesFromStruct_not_nil row values info k v :
  valuesFromStruct rangeOrder row = Ret (values, info) ->
  mapGet values k = Some v -> v <> VNil.
Proof.
  intros Hrun. destruct row; try discriminate.
  { cbn [valuesFromStruct] in Hrun. inversion Hrun; subst.
    intros H. discriminate H. }
  cbn [valuesFromStruct] in Hrun.
  destruct (getStructInfo (map fst fields)) as [si|]; cbn [bind] in Hrun;
    [|discriminate].
  destruct (valuesLoop fields (rangeOrder fieldInfo si) []) as [vals|] eqn:Ev;
    cbn [bind] in Hrun; [|discriminate].
  inversion Hrun; subst.
  apply (valuesLoop_not_nil _ _ _ _) with (2 := Ev).
  intros k' v' H. discriminate H.
Qed.

(** [saveRow] on a record that is not behind a pointer: both [Insert] and
    [Update] refuse it. *)
Lemma saveRow_struct_by_value d table n fields values info pk :
  valuesFromStruct rangeOrder (VStruct n fields) = Ret (values, info) ->
  onlyPrimaryKey rangeOrder info = Some pk ->
  saveRow rangeOrder escValue3 driver exec db d table (VStruct n fields)
  = Ret (d, (VStruct n fields, Some ErrNeedSlice)).
Proof.
  intros Hv Hpk. unfold saveRow.
  cbn [Indirect TypeOf held]. rewrite Hv. cbn [bind]. rewrite Hpk.
  destruct (mapGet values (dbName pk)) as [v|] eqn:Eg; [|reflexivity].
  assert (Hn : v <> VNil) by (eapply valuesFromStruct_not_nil; eassumption).
  assert (Hz : isZero v = Ret (deepZero v))
    by (destruct v; [congruence | reflexivity ..]).
  rewrite Hz. cbn [bind]. destruct (deepZero v); reflexivity.
Qed.

End SaveMore.

(** X25: [Save] on a record whose struct info has no primary key, or more
    than one, returns its own error; the driver is not called and the
    record is unchanged. *)
Theorem Save_needs_exactly_one_key
  (rangeOrder : forall A : Type, list (string * A) -> list (string * A))
  (escValue3 : value -> option fieldInfo -> result (text * value * option error))
  (driver : Type)
  (exec : driver -> Z -> text -> list value -> driver * (Z * option error))
  (db : DB) (d : driver) (table n : string)
  (fields : list (StructField * value))
  (values : list (string * value)) (info : structInfo) :
  valuesFromStruct rangeOrder (VStruct n fields) = Ret (values, info) ->
  onlyPrimaryKey rangeOrder info = None ->
  Save rangeOrder escValue3 driver exec db d table
    (VPtr (TStruct n) (Some (VStruct n fields)))
  = Ret (d, (VPtr (TStruct n) (Some (VStruct n fields)), Some ErrSavePk)).
Proof.
  intros Hv Hpk. unfold Save.
  cbn [checkData Indirect KindOf typ CanAddr negb bind held].
  unfold saveRow. cbn [Indirect held]. rewrite Hv. cbn [bind]. rewrite Hpk.
  reflexivity.
Qed.

Lemma Save_needs_exactly_one_key_witness :
  valuesFromStruct insertionOrder (twoKeys 1 2 "x")
  = Ret ([("a", VInt Int64 1); ("b", VInt Int64 2); ("c", VString "x")], twoKeysInfo)
  /\ onlyPrimaryKey insertionOrder twoKeysInfo = None
  /\ Save insertionOrder escValueSpec nat sampleExec sampleDB 0 "t"
       (VPtr (TStruct "twoKeys") (Some (twoKeys 1 2 "x")))
     = Ret (0, (VPtr (TStruct "twoKeys") (Some (twoKeys 1 2 "x")), Some ErrSavePk)).
Proof.
  assert (H1 : valuesFromStruct insertionOrder (twoKeys 1 2 "x")
               = Ret ([("a", VInt Int64 1); ("b", VInt Int64 2); ("c", VString "x")],
                      twoKeysInfo)) by (vm_compute; reflexivity).
  assert (H2 : onlyPrimaryKey insertionOrder twoKeysInfo = None) by reflexivity.
  repeat (split; [assumption|]).
  exact (Save_needs_exactly_one_key insertionOrder escValueSpec nat sampleExec
           sampleDB 0 "t" "twoKeys" _ _ _ H1 H2).
Defined.

(** X26: [Save] on a record passed by reference that has exactly one
    primary key is [Insert] when the value map holds no value for the key
    (a zero [omitempty] key) or a zero one, and [Update], which leaves the
    record as it is, when the key is not zero. *)
Theorem Save_inserts_or_updates
  (rangeOrder : forall A : Type, list (string * A) -> list (string * A))
  (escValue3 : value -> option fieldInfo -> result (text * value * option error))
  (driver : Type)
  (exec : driver -> Z -> text -> list value -> driver * (Z * option error))
  (db : DB) (d : driver) (table n : string)
  (fields : list (StructField * value))
  (values : list (string * value)) (info : structInfo) (pk : fieldInfo) :
  valuesFromStruct rangeOrder (VStruct n fields) = Ret (values, info) ->
  onlyPrimaryKey rangeOrder info = Some pk ->
  Save rangeOrder escValue3 driver exec db d table
    (VPtr (TStruct n) (Some (VStruct n fields)))
  = match mapGet values (dbName pk) with
    | None =>
        Insert rangeOrder escValue3 driver exec db d table
          (VPtr (TStruct n) (Some (VStruct n fields)))
    | Some v =>
        if deepZero v then
          Insert rangeOrder escValue3 driver exec db d table
            (VPtr (TStruct n) (Some (VStruct n fields)))
        else
          r <- Update rangeOrder escValue3 driver exec db d table
                 (VPtr (TStruct n) (Some (VStruct n fields))) ;;
          Ret (fst r, (VPtr (TStruct n) (Some (VStruct n fields)), snd r))
    end.
Proof.
  intros Hv Hpk. unfold Save.
  cbn [checkData Indirect KindOf typ CanAddr negb bind held].
  unfold saveRow. cbn [Indirect held]. rewrite Hv. cbn [bind]. rewrite Hpk.
  destruct (mapGet values (dbName pk)) as [v|] eqn:Eg; [|reflexivity].
  assert (Hn : v <> VNil) by (eapply valuesFromStruct_not_nil; eassumption).
  assert (Hz : isZero v = Ret (deepZero v))
    by (destruct v; [congruence | reflexivity ..]).
  rewrite Hz. cbn [bind]. destruct (deepZero v); [reflexivity|].
  destruct (Update _ _ _ _ _ _ _ _) as [[d' err]|msg]; reflexivity.
Qed.

Lemma Save_inserts_or_updates_witness :
  valuesFromStruct insertionOrder (person 7 "ann")
  = Ret ([("id", VInt Int64 7); ("name", VString "ann")], personInfo)
  /\ onlyPrimaryKey insertionOrder personInfo
     = Some (with_primaryKey (with_emptyValue (newFieldInfo "id" "ID") "''") true)
  /\ Save insertionOrder escValueSpec nat sampleExec sampleDB 0 "t"
       (VPtr (TStruct "person") (Some (person 7 "ann")))
     = match mapGet [("id", VInt Int64 7); ("name", VString "ann")]
               (dbName (with_primaryKey
                          (with_emptyValue (newFieldInfo "id" "ID") "''") true)) with
       | None =>
           Insert insertionOrder escValueSpec nat sampleExec sampleDB 0 "t"
             (VPtr (TStruct "person") (Some (person 7 "ann")))
       | Some v =>
           if deepZero v then
             Insert insertionOrder escValueSpec nat sampleExec sampleDB 0 "t"
               (VPtr (TStruct "person") (Some (person 7 "ann")))
           else
             r <- Update insertionOrder escValueSpec nat sampleExec sampleDB 0 "t"
                    (VPtr (TStruct "person") (Some (person 7 "ann"))) ;;
             Ret (fst r, (VPtr (TStruct "person") (Some (person 7 "ann")), snd r))
       end.
Proof.
  assert (H1 : valuesFromStruct insertionOrder (person 7 "ann")
               = Ret ([("id", VInt Int64 7); ("name", VString "ann")], personInfo))
    by (vm_compute; reflexivity).
  assert (H2 : onlyPrimaryKey insertionOrder personInfo
               = Some (with_primaryKey
                         (with_emptyValue (newFieldInfo "id" "ID") "''") true))
    by reflexivity.
  repeat (split; [assumption|]).
  exact (Save_inserts_or_updates insertionOrder escValueSpec nat sampleExec
           sampleDB 0 "t" "person" _ _ _ _ H1 H2).
Defined.

(** The two examples of the spec: a zero key is inserted and receives the
    id, a key of 7 is updated with 7 bound in the WHERE part. *)
Example Save_zero_key_inserts :
  Save insertionOrder escValueSpec nat sampleExec sampleDB 0 "t"
    (VPtr (TStruct "person") (Some (person 0 "ann")))
  = Ret (1, (VPtr (TStruct "person") (Some (person 42 "ann")), None)).
Proof. vm_compute. reflexivity. Qed.

Example Save_key_seven_updates :
  Save insertionOrder escValueSpec nat sampleExec sampleDB 0 "t"
    (VPtr (TStruct "person") (Some (person 7 "ann")))
  = Ret (1, (VPtr (TStruct "person") (Some (person 7 "ann")), None))
  /\ updateClauseFromRow insertionOrder escValueSpec sampleDB "t" (person 7 "ann")
     = Ret (runes "UPDATE `t` SET `name`=# WHERE `id`=#",
            [VInt Int64 7; VString "ann"], None).
Proof. split; vm_compute; reflexivity. Qed.

(** X27: [Save] on a slice of records that are not pointers fails on its
    first element whenever that record has exactly one primary key: the
    element is handed on by value, and both [Insert] and [Update] refuse a
    record that is not addressable. The driver is not called and the slice
    is unchanged. *)
Theorem Save_slice_of_structs_fails
  (rangeOrder : forall A : Type, list (string * A) -> list (string * A))
  (escValue3 : value -> option fieldInfo -> result (text * value * option error))
  (driver : Type)
  (exec : driver -> Z -> text -> list value -> driver * (Z * option error))
  (db : DB) (d : driver) (table n m : string)
  (fields : list (StructField * value)) (rest : list value)
  (values : list (string * value)) (info : structInfo) (pk : fieldInfo) :
  valuesFromStruct rangeOrder (VStruct m fields) = Ret (values, info) ->
  onlyPrimaryKey rangeOrder info = Some pk ->
  Save rangeOrder escValue3 driver exec db d table
    (VSlice (TStruct n) (Some (VStruct m fields :: rest)))
  = Ret (d, (VSlice (TStruct n) (Some (VStruct m fields :: rest)),
             Some ErrNeedSlice)).
Proof.
  intros Hv Hpk. unfold Save.
  cbn [checkData Indirect TypeOf KindOf typ Elem bind held sliceItems saveItems].
  rewrite (saveRow_struct_by_value rangeOrder escValue3 driver exec db d table
             m fields values info pk Hv Hpk).
  reflexivity.
Qed.

Lemma Save_slice_of_structs_fails_witness :
  valuesFromStruct insertionOrder (person 0 "ann")
  = Ret ([("id", VInt Int64 0); ("name", VString "ann")], personInfo)
  /\ onlyPrimaryKey insertionOrder personInfo
     = Some (with_primaryKey (with_emptyValue (newFieldInfo "id" "ID") "''") true)
  /\ Save insertionOrder escValueSpec nat sampleExec sampleDB 0 "t"
       (VSlice (TStruct "person")
          (Some (VStruct "person"
                   [(exported "ID" "id,pk" (TScalar Int64), VInt Int64 0);
                    (exported "Name" "name" (TScalar String_), VString "ann")]
                 :: [person 7 "bob"])))
     = Ret (0, (VSlice (TStruct "person")
                  (Some (VStruct "person"
                           [(exported "ID" "id,pk" (TScalar Int64), VInt Int64 0);
                            (exported "Name" "name" (TScalar String_), VString "ann")]
                         :: [person 7 "bob"])),
                Some ErrNeedSlice)).
Proof.
  assert (H1 : valuesFromStruct insertionOrder (person 0 "ann")
               = Ret ([("id", VInt Int64 0); ("name", VString "ann")], personInfo))
    by (vm_compute; reflexivity).
  assert (H2 : onlyPrimaryKey insertionOrder personInfo
               = Some (with_primaryKey
                         (with_emptyValue (newFieldInfo "id" "ID") "''") true))
    by reflexivity.
  repeat (split; [assumption|]).
  exact (Save_slice_of_structs_fails insertionOrder escValueSpec nat sampleExec
           sampleDB 0 "t" "person" "person" _ [person 7 "bob"] _ _ _ H1 H2).
Defined.

(** A slice that holds the pointer to one record twice, [[]*person{p, p}]
    with a zero key: the first turn inserts the record and writes 42 into
    it, the second turn finds the key set and updates. *)
Example SavePointers_same_pointer_twice :
  SavePointers insertionOrder escValueSpec (list text) loggingExec
    (TStruct "person") sampleDB [] "t" [person 0 "ann"] [0; 0]
  = Ret ([runes "INSERT INTO `t` (`id`,`name`) VALUES(?,?)";
          runes "UPDATE `t` SET `name`=# WHERE `id`=#"],
         ([person 42 "ann"], None)).
Proof. vm_compute. reflexivity. Qed.

(** The same slice through pointers is saved row by row. *)
Example Save_slice_of_pointers :
  Save insertionOrder escValueSpec nat sampleExec sampleDB 0 "t"
    (VSlice (TPtr (TStruct "person"))
       (Some [VPtr (TStruct "person") (Some (person 0 "ann"));
              VPtr (TStruct "person") (Some (person 7 "bob"))]))
  = Ret (2, (VSlice (TPtr (TStruct "person"))
               (Some [VPtr (TStruct "person") (Some (person 42 "ann"));
                      VPtr (TStruct "person") (Some (person 7 "bob"))]), None)).
Proof. vm_compute. reflexivity. Qed.

(** X28: [InsertBulk] on an empty or nil slice of records does not return
    early: it sends the driver one statement with an empty column list and
    no tuple, expecting zero rows, and returns what the driver answers. *)
Theorem InsertBulk_empty_slice
  (rangeOrder : forall A : Type, list (string * A) -> list (string * A))
  (escValue3 : value -> option fieldInfo -> result (text * value * option error))
  (driver : Type)
  (exec : driver -> Z -> text -> list value -> driver * (Z * option error))
  (db : DB) (d : driver) (table n : string) (e : rtype)
  (items : option (list value)) :
  rangeOrder (option fieldInfo) [] = [] ->
  e = TStruct n \/ e = TPtr (TStruct n) ->
  items = None \/ items = Some [] ->
  InsertBulk rangeOrder escValue3 driver exec db d table (VSlice e items)
  = Ret (fst (exec d 0%Z (runes "INSERT INTO " ++ Esc db table
                            ++ runes "() VALUES ") []),
         snd (snd (exec d 0%Z (runes "INSERT INTO " ++ Esc db table
                                 ++ runes "() VALUES ") []))).
Proof.
  intros Hr He Hi. unfold InsertBulk.
  destruct He as [-> | ->], Hi as [-> | ->];
    cbn [checkData Indirect TypeOf KindOf typ Elem bind Kind_eqb negb held
           sliceItems bulkRows];
    rewrite Hr;
    cbn [bulkColumns bulkTuples bind app List.concat List.length Z.of_nat];
    rewrite !app_nil_r;
    destruct (exec d 0%Z _ []) as [d' [i err]]; reflexivity.
Qed.

Lemma InsertBulk_empty_slice_witness :
  insertionOrder (option fieldInfo) [] = []
  /\ (TStruct "person" = TStruct "person"
      \/ TStruct "person" = TPtr (TStruct "person"))
  /\ ((Some [] : option (list value)) = None
      \/ (Some [] : option (list value)) = Some [])
  /\ InsertBulk insertionOrder escValueSpec nat sampleExec sampleDB 0 "t"
       (VSlice (TStruct "person") (Some []))
     = Ret (fst (sampleExec 0 0%Z (runes "INSERT INTO " ++ Esc sampleDB "t"
                                     ++ runes "() VALUES ") []),
            snd (snd (sampleExec 0 0%Z (runes "INSERT INTO " ++ Esc sampleDB "t"
                                          ++ runes "() VALUES ") []))).
Proof.
  assert (H1 : insertionOrder (option fieldInfo) [] = []) by reflexivity.
  assert (H2 : TStruct "person" = TStruct "person"
               \/ TStruct "person" = TPtr (TStruct "person"))
    by (left; reflexivity).
  assert (H3 : (Some [] : option (list value)) = None
               \/ (Some [] : option (list value)) = Some [])
    by (right; reflexivity).
  repeat (split; [assumption|]).
  exact (InsertBulk_empty_slice insertionOrder escValueSpec nat sampleExec sampleDB
           0 "t" "person" _ _ H1 H2 H3).
Defined.

(** [InsertBulk] on two rows with [escValue] as section 4.2 of the spec
    gives it: a bound value leaves nothing in its place. *)
Example InsertBulk_two_rows :
  InsertBulk insertionOrder escValueSpec nat
    (fun d expected sql args =>
       (S d, (0%Z, if text_eqb sql (runes "INSERT INTO `t`(`id`,`name`) VALUES (,),(,)")
                      && (expected =? 2)%Z
                   then None else Some (ErrOther "other statement"))))
    sampleDB 0 "t"
    (VSlice (TStruct "person") (Some [person 1 "ann"; person 2 "bob"]))
  = Ret (1, None).
Proof. vm_compute. reflexivity. Qed.

(** X29: [Insert], [Update] and [Save] on an empty or nil slice of
    records return nil without calling the driver and leave the slice as
    it is. *)
Theorem empty_slice_is_left_alone
  (rangeOrder : forall A : Type, list (string * A) -> list (string * A))
  (escValue3 : value -> option fieldInfo -> result (text * value * option error))
  (driver : Type)
  (exec : driver -> Z -> text -> list value -> driver * (Z * option error))
  (db : DB) (d : driver) (table n : string) (e : rtype)
  (items : option (list value)) :
  e = TStruct n \/ e = TPtr (TStruct n) ->
  items = None \/ items = Some [] ->
  Insert rangeOrder escValue3 driver exec db d table (VSlice e items)
  = Ret (d, (VSlice e items, None))
  /\ Update rangeOrder escValue3 driver exec db d table (VSlice e items)
     = Ret (d, None)
  /\ Save rangeOrder escValue3 driver exec db d table (VSlice e items)
     = Ret (d, (VSlice e items, None)).
Proof.
  intros He Hi.
  destruct He as [-> | ->], Hi as [-> | ->]; repeat split; reflexivity.
Qed.

Lemma empty_slice_is_left_alone_witness :
  (TPtr (TStruct "person") = TStruct "person"
   \/ TPtr (TStruct "person") = TPtr (TStruct "person"))
  /\ ((None : option (list value)) = None
      \/ (None : option (list value)) = Some [])
  /\ (Insert insertionOrder escValueSpec nat sampleExec sampleDB 0 "t"
        (VSlice (TPtr (TStruct "person")) None)
      = Ret (0, (VSlice (TPtr (TStruct "person")) None, None))
      /\ Update insertionOrder escValueSpec nat sampleExec sampleDB 0 "t"
           (VSlice (TPtr (TStruct "person")) None)
         = Ret (0, None)
      /\ Save insertionOrder escValueSpec nat sampleExec sampleDB 0 "t"
           (VSlice (TPtr (TStruct "person")) None)
         = Ret (0, (VSlice (TPtr (TStruct "person")) None, None))).
Proof.
  assert (H1 : TPtr (TStruct "person") = TStruct "person"
               \/ TPtr (TStruct "person") = TPtr (TStruct "person"))
    by (right; reflexivity).
  assert (H2 : (None : option (list value)) = None
               \/ (None : option (list value)) = Some [])
    by (left; reflexivity).
  repeat (split; [assumption|]).
  exact (empty_slice_is_left_alone insertionOrder escValueSpec nat sampleExec
           sampleDB 0 "t" "person" _ _ H1 H2).
Defined.

(** X30: [Update] on a record passed by reference none of whose columns
    is a primary key returns an error and does not call the driver. *)
Theorem Update_without_key_sends_nothing
  (rangeOrder : forall A : Type, list (string * A) -> list (string * A))
  (escValue3 : value -> option fieldInfo -> result (text * value * option error))
  (driver : Type)
  (exec : driver -> Z -> text -> list value -> driver * (Z * option error))
  (db : DB) (d : driver) (table n : string)
  (fields : list (StructField * value))
  (values : list (string * value)) (info : structInfo) :
  valuesFromStruct rangeOrder (VStruct n fields) = Ret (values, info) ->
  (forall key v, In (key, v) (rangeOrder value values) ->
                 si_primaryKey info key = Ret false) ->
  (forall key v, In (key, v) (rangeOrder value values) ->
                 exists r, escValue3 v (mapGet info key) = Ret r) ->
  exists e,
    Update rangeOrder escValue3 driver exec db d table
      (VPtr (TStruct n) (Some (VStruct n fields)))
    = Ret (d, Some e).
Proof.
  intros Hv Hpk Hesc.
  destruct (updateLoop_no_key escValue3 db info (rangeOrder value values)
              (updateStart db table) eq_refl Hpk Hesc) as [args [e He]].
  exists e. unfold Update.
  cbn [checkData Indirect KindOf typ CanAddr negb bind held].
  unfold updateRow, updateClauseFromRow. rewrite Hv. cbn [bind].
  unfold updateClauseFromValues. rewrite He. reflexivity.
Qed.

Lemma Update_without_key_sends_nothing_witness :
  valuesFromStruct insertionOrder (noKey "ann")
  = Ret ([("name", VString "ann")], noKeyInfo)
  /\ (forall key v,
        In (key, v) (insertionOrder value [("name", VString "ann")]) ->
        si_primaryKey noKeyInfo key = Ret false)
  /\ (forall key v,
        In (key, v) (insertionOrder value [("name", VString "ann")]) ->
        exists r, escValueSpec v (mapGet noKeyInfo key) = Ret r)
  /\ exists e,
       Update insertionOrder escValueSpec nat sampleExec sampleDB 0 "t"
         (VPtr (TStruct "noKey") (Some (noKey "ann")))
       = Ret (0, Some e).
Proof.
  assert (H1 : valuesFromStruct insertionOrder (noKey "ann")
               = Ret ([("name", VString "ann")], noKeyInfo))
    by (vm_compute; reflexivity).
  assert (H2 : forall key v,
             In (key, v) (insertionOrder value [("name", VString "ann")]) ->
             si_primaryKey noKeyInfo key = Ret false).
  { intros key v [E | []]. inversion E; subst. reflexivity. }
  assert (H3 : forall key v,
             In (key, v) (insertionOrder value [("name", VString "ann")]) ->
             exists r, escValueSpec v (mapGet noKeyInfo key) = Ret r).
  { intros key v [E | []]. inversion E; subst. eexists. reflexivity. }
  repeat (split; [assumption|]).
  exact (Update_without_key_sends_nothing insertionOrder escValueSpec nat sampleExec
           sampleDB 0 "t" "noKey" _ _ _ H1 H2 H3).
Defined.
